(** * dc.js stack mixin: a shallow embedding of [src/base/stack-mixin.js]

    The development follows the source file top to bottom: the layer
    registry ([StackedDataAdaptor]), the composition callback installed by
    the [StackMixin] constructor, point extraction and domain filtering,
    visibility, axis extents, titles and legend entries.

    Conventions of the embedding.
    - JavaScript numbers are exact integers ([Z]); the value [NaN] is kept
      where the code can produce it ([number]).  Keys ([x]) and values ([y])
      delivered by the accessors are integers.
    - An object used as a dictionary ([_hiddenStacks], [_titles]) is a
      finite map of the properties created by assignment, read through its
      prototype: a name that is not an own property but is a member of
      [Object.prototype] reads as that member, and an assignment under
      ['__proto__'] creates no property ([Object_prototype], [flag_read],
      [flag_assign], [TitlesObject]).  A column of the stack input is a
      finite map of its own properties.
    - Point objects are shared between the arrays [values] and
      [domainValues] of a layer.  Each composed layer therefore carries the
      store of the point objects allocated for it ([dl_points]); the two
      arrays hold references (indices) into that store, and the write-back
      of [y0]/[y1] updates the store.
    - A read of a property of [undefined] raises; this is [Throw TypeError]. *)

From stdpp Require Import base option list strings gmap pretty.
From Stdlib Require Import ZArith.

Local Open Scope Z_scope.

(** ** JavaScript values used by the mixin *)

Inductive number : Type :=
  | Num (z : Z)
  | NaN.

Definition isNaN (n : number) : bool :=
  match n with NaN => true | Num _ => false end.

(** [a + b] on numbers. *)
Definition num_add (a b : number) : number :=
  match a, b with
  | Num p, Num q => Num (p + q)
  | _, _ => NaN
  end.

(** [a - b] on numbers. *)
Definition num_sub (a b : number) : number :=
  match a, b with
  | Num p, Num q => Num (p - q)
  | _, _ => NaN
  end.

(** A possibly absent ([undefined]) number converted by an arithmetic
    operator: [undefined] becomes [NaN]. *)
Definition to_number (v : option number) : number :=
  match v with Some n => n | None => NaN end.

(** An argument of a method whose parameters are optional and inspected
    with [typeof]. *)
Inductive arg (F : Type) : Type :=
  | AUndefined
  | AString (s : string)
  | AFunction (f : F).
Arguments AUndefined {F}.
Arguments AString {F} s.
Arguments AFunction {F} f.

Definition is_string {F} (a : arg F) : bool :=
  match a with AString _ => true | _ => false end.

Definition is_function {F} (a : arg F) : bool :=
  match a with AFunction _ => true | _ => false end.

(** Truthiness of an argument: [undefined] and the empty string are falsy. *)
Definition truthy {F} (a : arg F) : bool :=
  match a with
  | AUndefined => false
  | AString s => negb (String.eqb s "")
  | AFunction _ => true
  end.

(** *** Plain objects used as dictionaries

    [_hiddenStacks] and [_titles] are created by [{}] and read and written
    with [obj[key]].  Such an object inherits from [Object.prototype]. *)

(** The string-keyed members of [Object.prototype]. *)
Definition Object_prototype : list string :=
  ["constructor"; "hasOwnProperty"; "isPrototypeOf"; "propertyIsEnumerable";
   "toLocaleString"; "toString"; "valueOf"; "__proto__"; "__defineGetter__";
   "__defineSetter__"; "__lookupGetter__"; "__lookupSetter__"].

(** [key in Object.prototype]. *)
Definition inherited (key : string) : bool :=
  bool_decide (key ∈ Object_prototype).

(** Truthiness of [obj[key]] for an object whose assigned values are
    booleans: ['__proto__'] reads as the prototype object, an own property
    as its value, an inherited member as a function, anything else as
    [undefined]. *)
Definition flag_read (obj : gmap string bool) (key : string) : bool :=
  if decide (key = "__proto__") then true
  else match obj !! key with
       | Some b => b
       | None => inherited key
       end.

(** [obj[key] = b] for a boolean [b]: the setter of ['__proto__'] ignores a
    value that is not an object; every other key becomes an own property. *)
Definition flag_assign (obj : gmap string bool) (key : string) (b : bool)
  : gmap string bool :=
  if decide (key = "__proto__") then obj else <[key := b]> obj.

(** ** Exceptions *)

Inductive JsError : Type :=
  | TypeError.

Inductive result (A : Type) : Type :=
  | Ok (a : A)
  | Throw (e : JsError).
Arguments Ok {A} a.
Arguments Throw {A} e.

#[global] Instance result_ret : MRet result := λ A a, Ok a.
#[global] Instance result_bind : MBind result := λ A B f m,
  match m with
  | Ok a => f a
  | Throw e => Throw e
  end.

(** [l.forEach((a, i) => ...)] threading a state that the callback mutates. *)
Fixpoint forEach_from {A St : Type} (f : A → nat → St → result St)
    (i : nat) (l : list A) (s : St) : result St :=
  match l with
  | [] => Ok s
  | a :: l' => s' ← f a i s; forEach_from f (S i) l' s'
  end.

Definition forEach {A St : Type} (f : A → nat → St → result St)
    (l : list A) (s : St) : result St :=
  forEach_from f 0%nat l s.

(** [l.map((a, i) => ...)] with a callback that may raise. *)
Fixpoint map_from {A B : Type} (f : A → nat → result B)
    (i : nat) (l : list A) : result (list B) :=
  match l with
  | [] => Ok []
  | a :: l' => b ← f a i; bs ← map_from f (S i) l'; Ok (b :: bs)
  end.

Definition map_result {A B : Type} (f : A → nat → result B)
    (l : list A) : result (list B) :=
  map_from f 0%nat l.

(** Objects that carry a [name] property. *)
Class Named (A : Type) := name : A → string.

(** ** d3 and dc utilities imported by the mixin *)

Module d3.

(** A column of the stack input: an object with property [x] and one
    property per layer name. *)
Abbreviation column := (gmap string Z).
Abbreviation series := (list (number * number)).

(** Modelled from the spec: [d3-shape] (import at line 1) is not under
    src/.  The default value accessor of a stack generator reads the
    property named by the key and converts it to a number ([+d[key]]);
    a missing property gives [NaN]. *)
Definition value (d : column) (key : string) : number :=
  match d !! key with
  | Some z => Num z
  | None => NaN
  end.

(** Modelled from the spec: the default offset of [d3-shape]'s stack
    generator, which is not under src/.  Each series starts where the one
    before it ends (section 4.3, step 3: the baseline of a layer is the
    sum of the layers preceding it, and [y1 = y0 + y]). *)
Definition offsetNone_step (s0 s1 : series) : series :=
  zip_with (λ p0 p1,
    let base := if isNaN p0.2 then p0.1 else p0.2 in
    (base, num_add p1.2 base)) s0 s1.

(** The loop of the default offset over the series that follow [s0]. *)
Fixpoint offsetNone_from (s0 : series) (rest : list series) : list series :=
  match rest with
  | [] => []
  | s1 :: rest' =>
      let s1' := offsetNone_step s0 s1 in
      s1' :: offsetNone_from s1' rest'
  end.

(** The default offset: the first series is left as it is. *)
Definition offsetNone (sz : list series) : list series :=
  match sz with
  | [] => []
  | s0 :: rest => s0 :: offsetNone_from s0 rest
  end.

(** Modelled from the spec: [stack().keys(keys)(data)] of [d3-shape],
    not under src/: one series per key, in key order, one [y0, y1] pair
    per column, cumulated in key order (section 4.3, step 3). *)
Definition stack (keys : list string) (data : list column) : list series :=
  offsetNone (map (λ k, map (λ d, (Num 0, value d k)) data) keys).

(** A value that [min] and [max] take into account: neither [undefined]
    nor [NaN]. *)
Definition comparable (v : option number) : option Z :=
  match v with
  | Some (Num z) => Some z
  | _ => None
  end.

(** Modelled from the spec: [min(values, valueof)] of [d3-array], not
    under src/ (section 4.4): the least of the mapped values, [undefined]
    when there is none. *)
Definition min {A : Type} (values : list A) (valueof : A → option number)
  : option Z :=
  fold_left (λ m a,
    match comparable (valueof a) with
    | None => m
    | Some v =>
        match m with
        | None => Some v
        | Some cur => if cur >? v then Some v else m
        end
    end) values None.

(** Modelled from the spec: [max(values, valueof)] of [d3-array], not
    under src/ (section 4.4). *)
Definition max {A : Type} (values : list A) (valueof : A → option number)
  : option Z :=
  fold_left (λ m a,
    match comparable (valueof a) with
    | None => m
    | Some v =>
        match m with
        | None => Some v
        | Some cur => if cur <? v then Some v else m
        end
    end) values None.

End d3.

Module utils.

(** Modelled from the spec: [utils.add] of [src/core/utils], not under
    src/ (section 4.4: the extent plus the padding).  The padding is
    numeric; the unit [t] only matters for dates. *)
Definition add (l : option Z) (r : Z) (t : option string) : number :=
  num_add (to_number (Num <$> l)) (Num r).

(** Modelled from the spec: [utils.subtract] of [src/core/utils], not
    under src/ (section 4.4: the extent minus the padding). *)
Definition subtract (l : option Z) (r : Z) (t : option string) : number :=
  num_sub (to_number (Num <$> l)) (Num r).

(** Modelled from the spec: [utils.constant] of [src/core/utils], not
    under src/: the function that always returns its argument. *)
Definition constant {A B : Type} (b : B) : A → B := λ _, b.

End utils.


(** ** The data model *)

Section StackMixin.

(** A row of the grouping collaborator and a colour are opaque. *)
Context {Row Color : Type}.

(** A crossfilter group: [all()] returns its rows. *)
Record Group : Type := mkGroup { all : list Row }.

(** A value or key accessor [(d, i) => ...]. *)
Definition Accessor : Type := Row → nat → Z.

(** An entry of the registry [_stack]: [{group, name, accessor}]. *)
Record Layer : Type := mkLayer {
  layer_group : Group;
  layer_name : string;
  layer_accessor : option Accessor;
}.

#[global] Instance Layer_named : Named Layer := layer_name.

(** A point [{x, y, data, name}], to which composition adds [y0] and [y1]. *)
Record Point : Type := mkPoint {
  pt_x : Z;
  pt_y : Z;
  pt_data : Row;
  pt_name : string;
  pt_y0 : option number;
  pt_y1 : option number;
}.

#[global] Instance Point_named : Named Point := pt_name.

(** A layer as [StackedDataAdaptor.data] returns it, [{name, accessor,
    rawData}], together with what [_prepareValues] adds to the object:
    [domainValues] and [values], arrays of references into the store
    [dl_points] of the point objects of this layer. *)
Record DataLayer : Type := mkDataLayer {
  dl_name : string;
  dl_accessor : option Accessor;
  dl_rawData : list Row;
  dl_points : list Point;
  dl_domainValues : list nat;
  dl_values : list nat;
}.

#[global] Instance DataLayer_named : Named DataLayer := dl_name.

(** The points an array of references denotes. *)
Definition deref (store : list Point) (refs : list nat) : list Point :=
  omap (λ r, store !! r) refs.

Definition domainValues (l : DataLayer) : list Point :=
  deref (dl_points l) (dl_domainValues l).

Definition values (l : DataLayer) : list Point :=
  deref (dl_points l) (dl_values l).

(** A title function receives a point. *)
Definition TitleFn : Type := Point → string.

(** The object held in [_titles]: the title functions assigned to it, and
    its prototype.  [titles_proto] is [None] while the prototype is
    [Object.prototype], and [Some f] once an assignment under ['__proto__']
    has made the function [f] the prototype. *)
Record TitlesObject : Type := mkTitles {
  titles_own : gmap string TitleFn;
  titles_proto : option TitleFn;
}.

(** [{}]. *)
#[global] Instance TitlesObject_empty : Empty TitlesObject :=
  {| titles_own := ∅; titles_proto := None |}.

(** The value of [titles[key]]. *)
Inductive TitleValue : Type :=
  | IsTitle (f : TitleFn)
  | IsInherited (key : string)
  | ViaFunction (f : TitleFn) (key : string)
  | IsUndefined.

(** [titles[key]]: ['__proto__'] reads as the prototype; an own property as
    the title function assigned; otherwise the read goes to the prototype:
    a member of [Object.prototype] ([IsInherited]) or nothing
    ([IsUndefined]), and, once a function [f] is the prototype, the property
    [key] of [f] ([ViaFunction]), which depends on the function object. *)
Definition titles_read (t : TitlesObject) (key : string) : TitleValue :=
  if decide (key = "__proto__") then
    match titles_proto t with
    | Some f => IsTitle f
    | None => IsInherited key
    end
  else
    match titles_own t !! key with
    | Some f => IsTitle f
    | None =>
        match titles_proto t with
        | Some f => ViaFunction f key
        | None => if inherited key then IsInherited key else IsUndefined
        end
    end.

(** [titles[key] = f] for a function [f]: under ['__proto__'] the function
    becomes the prototype and no property is created; otherwise [key]
    becomes an own property, since the members of [Object.prototype] are
    writable.  Once a function [p] is the prototype, creating a property
    first consults the property [key] of [p], which depends on the function
    object: the result is then [inr p]. *)
Definition titles_assign (t : TitlesObject) (key : string) (f : TitleFn)
  : TitlesObject + TitleFn :=
  if decide (key = "__proto__") then
    inl {| titles_own := titles_own t; titles_proto := Some f |}
  else
    match titles_proto t, titles_own t !! key with
    | Some p, None => inr p
    | _, _ =>
        inl {| titles_own := <[key := f]> (titles_own t);
               titles_proto := titles_proto t |}
    end.

(** The x scale, of which the mixin reads the domain. *)
Record Scale : Type := mkScale { domain : list Z }.

(** *** StackedDataAdaptor (lines 7-53) *)

Record StackedDataAdaptor : Type := mkAdaptor {
  _stack : list Layer;
}.

(** [new StackedDataAdaptor()]. *)
Definition StackedDataAdaptor_new : StackedDataAdaptor :=
  {| _stack := [] |}.

(** The object the callback of [data()] builds for a layer (lines 16-22);
    the rows are cloned, and [_prepareValues] has not yet run. *)
Definition layer_data (layer : Layer) : DataLayer :=
  {| dl_name := layer_name layer;
     dl_accessor := layer_accessor layer;
     dl_rawData := all (layer_group layer);
     dl_points := [];
     dl_domainValues := [];
     dl_values := [] |}.

(** [data()]: one object per registered layer (lines 13-24). *)
Definition StackedDataAdaptor_data (a : StackedDataAdaptor) : list DataLayer :=
  map layer_data (_stack a).

(** [stack(group, name, accessor)] called with at least the group; [rest]
    is the list of the arguments that follow [group], so that
    [arguments.length] is [1 + length rest]. *)
Definition StackedDataAdaptor_stack (group : Group) (rest : list (arg Accessor))
    (a : StackedDataAdaptor) : StackedDataAdaptor :=
  let name := default AUndefined (rest !! 0%nat) in
  let accessor :=
    if (1 + length rest <=? 2)%nat then name
    else default AUndefined (rest !! 1%nat) in
  let layer_name :=
    match name with
    | AString s => s
    | _ => pretty (length (_stack a))
    end in
  let layer_accessor :=
    match accessor with
    | AFunction f => Some f
    | _ => None
    end in
  {| _stack := _stack a ++ [mkLayer group layer_name layer_accessor] |}.

Definition clearStack (a : StackedDataAdaptor) : StackedDataAdaptor :=
  {| _stack := [] |}.

(** *** The chart *)

(** The layout function held in [_stackLayout], applied as
    [stackLayout().keys(keys)(v4data)]. *)
Definition StackLayout : Type := list string → list d3.column → list d3.series.

(** The fields of [StackMixin], followed by what the methods below read
    from the classes it extends, which are not under src/: the x scale
    with its ordinal and elastic flags, the shared key and value accessors,
    the paddings, the chart-wide title, the group with its name, and the
    colour of a layer. *)
Record Chart : Type := mkChart {
  _stackLayout : StackLayout;
  _dataProvider : StackedDataAdaptor;
  _titles : TitlesObject;
  _hidableStacks : bool;
  _hiddenStacks : gmap string bool;
  _evadeDomainFilter : bool;
  _x : option Scale;
  _isOrdinal : bool;
  _elasticX : bool;
  _keyAccessor : Accessor;
  _valueAccessor : Accessor;
  _yAxisPadding : Z;
  _xAxisPadding : Z;
  _xAxisPaddingUnit : option string;
  _title : TitleFn;
  _group : option Group;
  _groupName : arg Accessor;
  getColor : Layer → nat → Color;
}.

(** Assignments to the fields of the mixin. *)
Definition set_dataProvider (a : StackedDataAdaptor) (c : Chart) : Chart :=
  mkChart (_stackLayout c) a (_titles c) (_hidableStacks c) (_hiddenStacks c)
    (_evadeDomainFilter c) (_x c) (_isOrdinal c) (_elasticX c)
    (_keyAccessor c) (_valueAccessor c) (_yAxisPadding c) (_xAxisPadding c)
    (_xAxisPaddingUnit c) (_title c) (_group c) (_groupName c) (getColor c).

Definition set_titles (t : TitlesObject) (c : Chart) : Chart :=
  mkChart (_stackLayout c) (_dataProvider c) t (_hidableStacks c)
    (_hiddenStacks c) (_evadeDomainFilter c) (_x c) (_isOrdinal c)
    (_elasticX c) (_keyAccessor c) (_valueAccessor c) (_yAxisPadding c)
    (_xAxisPadding c) (_xAxisPaddingUnit c) (_title c) (_group c)
    (_groupName c) (getColor c).

Definition set_hiddenStacks (h : gmap string bool) (c : Chart) : Chart :=
  mkChart (_stackLayout c) (_dataProvider c) (_titles c) (_hidableStacks c)
    h (_evadeDomainFilter c) (_x c) (_isOrdinal c) (_elasticX c)
    (_keyAccessor c) (_valueAccessor c) (_yAxisPadding c) (_xAxisPadding c)
    (_xAxisPaddingUnit c) (_title c) (_group c) (_groupName c) (getColor c).

(** Modelled from the spec: [valueAccessor(f)] of the base mixin, not under
    src/: replaces the shared value function (section 6). *)
Definition set_valueAccessor (f : Accessor) (c : Chart) : Chart :=
  mkChart (_stackLayout c) (_dataProvider c) (_titles c) (_hidableStacks c)
    (_hiddenStacks c) (_evadeDomainFilter c) (_x c) (_isOrdinal c)
    (_elasticX c) (_keyAccessor c) f (_yAxisPadding c) (_xAxisPadding c)
    (_xAxisPaddingUnit c) (_title c) (_group c) (_groupName c) (getColor c).

(** Modelled from the spec: [super.title(f)] of the base mixin, not under
    src/: sets the chart-wide default title (section 4.6); [super.title()]
    reads the field [_title]. *)
Definition set_title (f : TitleFn) (c : Chart) : Chart :=
  mkChart (_stackLayout c) (_dataProvider c) (_titles c) (_hidableStacks c)
    (_hiddenStacks c) (_evadeDomainFilter c) (_x c) (_isOrdinal c)
    (_elasticX c) (_keyAccessor c) (_valueAccessor c) (_yAxisPadding c)
    (_xAxisPadding c) (_xAxisPaddingUnit c) f (_group c) (_groupName c)
    (getColor c).

(** Modelled from the spec: [super.group(g, n)] of the base mixin, not
    under src/: records the group and its name. *)
Definition set_group (g : Group) (n : arg Accessor) (c : Chart) : Chart :=
  mkChart (_stackLayout c) (_dataProvider c) (_titles c) (_hidableStacks c)
    (_hiddenStacks c) (_evadeDomainFilter c) (_x c) (_isOrdinal c)
    (_elasticX c) (_keyAccessor c) (_valueAccessor c) (_yAxisPadding c)
    (_xAxisPadding c) (_xAxisPaddingUnit c) (_title c) (Some g) n
    (getColor c).


Definition set_hidableStacks (b : bool) (c : Chart) : Chart :=
  mkChart (_stackLayout c) (_dataProvider c) (_titles c) b (_hiddenStacks c)
    (_evadeDomainFilter c) (_x c) (_isOrdinal c) (_elasticX c)
    (_keyAccessor c) (_valueAccessor c) (_yAxisPadding c) (_xAxisPadding c)
    (_xAxisPaddingUnit c) (_title c) (_group c) (_groupName c) (getColor c).

Definition set_evadeDomainFilter (b : bool) (c : Chart) : Chart :=
  mkChart (_stackLayout c) (_dataProvider c) (_titles c) (_hidableStacks c)
    (_hiddenStacks c) b (_x c) (_isOrdinal c) (_elasticX c)
    (_keyAccessor c) (_valueAccessor c) (_yAxisPadding c) (_xAxisPadding c)
    (_xAxisPaddingUnit c) (_title c) (_group c) (_groupName c) (getColor c).

Definition set_stackLayout (f : StackLayout) (c : Chart) : Chart :=
  mkChart f (_dataProvider c) (_titles c) (_hidableStacks c)
    (_hiddenStacks c) (_evadeDomainFilter c) (_x c) (_isOrdinal c)
    (_elasticX c) (_keyAccessor c) (_valueAccessor c) (_yAxisPadding c)
    (_xAxisPadding c) (_xAxisPaddingUnit c) (_title c) (_group c)
    (_groupName c) (getColor c).

(** ** StackMixin (lines 62-353) *)

(** [_visibility(l)]: [!this._hiddenStacks[l.name]] (lines 318-320). *)
Definition _visibility `{Named A} (c : Chart) (l : A) : bool :=
  negb (flag_read (_hiddenStacks c) (name l)).

(** [a >= b] and [a <= b] where [b] may be [undefined]. *)
Definition ge_undef (a : Z) (b : option Z) : bool :=
  match b with Some b => b <=? a | None => false end.

Definition le_undef (a : Z) (b : option Z) : bool :=
  match b with Some b => a <=? b | None => false end.

(** [_domainFilter()] (lines 115-130). *)
Definition _domainFilter (c : Chart) : Point → bool :=
  match _x c with
  | None => utils.constant true
  | Some x =>
      let xDomain := domain x in
      if _isOrdinal c then λ _, true
      else if _elasticX c then λ _, true
      else λ p,
        ge_undef (pt_x p) (xDomain !! 0%nat)
        && le_undef (pt_x p) (xDomain !! (length xDomain - 1)%nat)
  end.

(** The objects [rawData.map(...)] allocates for a layer, in row order. *)
Definition allValues (c : Chart) (layer : DataLayer) : list Point :=
  let valAccessor := default (_valueAccessor c) (dl_accessor layer) in
  imap (λ i d,
    {| pt_x := _keyAccessor c d i;
       pt_y := valAccessor d i;
       pt_data := d;
       pt_name := dl_name layer;
       pt_y0 := None;
       pt_y1 := None |}) (dl_rawData layer).

(** Whether the object a reference points to passes a filter. *)
Definition passes (store : list Point) (f : Point → bool) (r : nat) : bool :=
  match store !! r with Some p => f p | None => false end.

(** [_prepareValues(layer, layerIdx)] (lines 102-113).  The point objects
    are stored in allocation order, so that [allValues] is the array of
    the references [0 .. n-1]. *)
Definition _prepareValues (c : Chart) (layer : DataLayer) (layerIdx : nat)
  : DataLayer :=
  let store := allValues c layer in
  let all_refs := seq 0 (length store) in
  let domain_refs := List.filter (passes store (_domainFilter c)) all_refs in
  {| dl_name := dl_name layer;
     dl_accessor := dl_accessor layer;
     dl_rawData := dl_rawData layer;
     dl_points := store;
     dl_domainValues := domain_refs;
     dl_values := if _evadeDomainFilter c then all_refs else domain_refs |}.

(** [layer.values[i]] read as an object: raises when it is [undefined]. *)
Definition value_at (layer : DataLayer) (i : nat) : result Point :=
  match dl_values layer !! i with
  | None => Throw TypeError
  | Some r =>
      match dl_points layer !! r with
      | None => Throw TypeError
      | Some p => Ok p
      end
  end.

(** The column built for point [v] at index [i] of the first layer
    (lines 82-86). *)
Definition column_of (layers : list DataLayer) (v : Point) (i : nat)
  : result d3.column :=
  forEach (λ layer _ (col : d3.column),
    p ← value_at layer i;
    Ok (<[name layer := pt_y p]> col)) layers {["x" := pt_x v]}.

(** [layers[i].values[j].y0 = ys[0]; layers[i].values[j].y1 = ys[1]]
    (lines 92-93). *)
Definition write_point (ys : number * number) (j : nat) (layer : DataLayer)
  : result DataLayer :=
  match dl_values layer !! j with
  | None => Throw TypeError
  | Some r =>
      Ok {| dl_name := dl_name layer;
            dl_accessor := dl_accessor layer;
            dl_rawData := dl_rawData layer;
            dl_points :=
              alter (λ p, mkPoint (pt_x p) (pt_y p) (pt_data p) (pt_name p)
                            (Some ys.1) (Some ys.2)) r (dl_points layer);
            dl_domainValues := dl_domainValues layer;
            dl_values := dl_values layer |}
  end.

(** The write-back loops (lines 90-95). *)
Definition write_back (v4result : list d3.series) (layers : list DataLayer)
  : result (list DataLayer) :=
  forEach (λ series i layers,
    forEach (λ ys j (layers : list DataLayer),
      match layers !! i with
      | None => Throw TypeError
      | Some layer =>
          layer' ← write_point ys j layer;
          Ok (<[i := layer']> layers)
      end) series layers) v4result layers.

(** The callback passed to [this.data(...)] by the constructor
    (lines 75-97); [data()] runs it. *)
Definition data (c : Chart) : result (list DataLayer) :=
  let layers :=
    List.filter (_visibility c) (StackedDataAdaptor_data (_dataProvider c)) in
  if (length layers =? 0)%nat then Ok []
  else
    let layers := imap (λ i l, _prepareValues c l i) layers in
    v4data ←
      match layers !! 0%nat with
      | None => Throw TypeError
      | Some layer0 =>
          map_result (λ r i,
            match dl_points layer0 !! r with
            | None => Throw TypeError
            | Some v => column_of layers v i
            end) (dl_values layer0)
      end;
    let keys := map name layers in
    let v4result := _stackLayout c keys v4data in
    write_back v4result layers.

(** [stack()] without argument: the registry (lines 151-153). *)
Definition stack (c : Chart) : list Layer :=
  _stack (_dataProvider c).

(** [stack(group, name, accessor)] with at least the group
    (lines 155-156); [rest] is the list of the arguments that follow
    [group].  The call [this._dataProvider.stack(group, name, accessor)]
    always passes three arguments, the parameters not supplied being
    [undefined]. *)
Definition stack_add (group : Group) (rest : list (arg Accessor)) (c : Chart)
  : Chart :=
  let name := default AUndefined (rest !! 0%nat) in
  let accessor := default AUndefined (rest !! 1%nat) in
  set_dataProvider
    (StackedDataAdaptor_stack group [name; accessor] (_dataProvider c)) c.

(** [group(g, n, f)] with at least the group (lines 159-170).  [_titles]
    becomes a fresh [{}]; the layer is attached by [this.stack(g, n)]; the
    call [super.group(g, n)] records the group and its name. *)
Definition group (g : Group) (n : arg Accessor) (f : option Accessor)
    (c : Chart) : Chart :=
  let c := set_dataProvider (clearStack (_dataProvider c)) c in
  let c := set_titles ∅ c in
  let c := stack_add g [n] c in
  let c := match f with Some f => set_valueAccessor f c | None => c end in
  set_group g n c.

(** [hidableStacks(hidableStacks)] (lines 178-184). *)
Definition hidableStacks (b : bool) (c : Chart) : Chart :=
  set_hidableStacks b c.

(** [_findLayerByName(n)] (lines 186-189): the first registered layer of
    that name, [undefined] when [indexOf] returns [-1]. *)
Definition _findLayerByName (n : string) (c : Chart) : option Layer :=
  snd <$> list_find (λ layer : Layer, name layer = n) (stack c).

(** [hideStack(stackName)] (lines 197-200). *)
Definition hideStack (stackName : string) (c : Chart) : Chart :=
  set_hiddenStacks (flag_assign (_hiddenStacks c) stackName true) c.

(** [showStack(stackName)] (lines 208-211). *)
Definition showStack (stackName : string) (c : Chart) : Chart :=
  set_hiddenStacks (flag_assign (_hiddenStacks c) stackName false) c.

(** [getValueAccessorByIndex(index)] (lines 213-215). *)
Definition getValueAccessorByIndex (index : nat) (c : Chart)
  : result Accessor :=
  match stack c !! index with
  | None => Throw TypeError
  | Some layer => Ok (default (_valueAccessor c) (layer_accessor layer))
  end.

(** [_flattenStack()] (lines 227-232). *)
Definition _flattenStack (c : Chart) : result (list Point) :=
  layers ← data c;
  Ok (concat (map domainValues layers)).

(** [pluck('x')]. *)
Definition pluck_x (p : Point) : option number := Some (Num (pt_x p)).

(** [p => (p.y < 0) ? (p.y + p.y0) : p.y0]. *)
Definition lower_edge (p : Point) : option number :=
  if pt_y p <? 0 then Some (num_add (Num (pt_y p)) (to_number (pt_y0 p)))
  else pt_y0 p.

(** [p => (p.y > 0) ? (p.y + p.y0) : p.y0]. *)
Definition upper_edge (p : Point) : option number :=
  if pt_y p >? 0 then Some (num_add (Num (pt_y p)) (to_number (pt_y0 p)))
  else pt_y0 p.

(** [yAxisMin()] (lines 217-220). *)
Definition yAxisMin (c : Chart) : result number :=
  pts ← _flattenStack c;
  Ok (utils.subtract (d3.min pts lower_edge) (_yAxisPadding c) None).

(** [yAxisMax()] (lines 222-225). *)
Definition yAxisMax (c : Chart) : result number :=
  pts ← _flattenStack c;
  Ok (utils.add (d3.max pts upper_edge) (_yAxisPadding c) None).

(** [xAxisMin()] (lines 234-237). *)
Definition xAxisMin (c : Chart) : result number :=
  pts ← _flattenStack c;
  Ok (utils.subtract (d3.min pts pluck_x) (_xAxisPadding c)
        (_xAxisPaddingUnit c)).

(** [xAxisMax()] (lines 239-242). *)
Definition xAxisMax (c : Chart) : result number :=
  pts ← _flattenStack c;
  Ok (utils.add (d3.max pts pluck_x) (_xAxisPadding c)
        (_xAxisPaddingUnit c)).

(** What [title] returns: a title function; the chart for chaining; the
    member of [Object.prototype] that [_titles] inherits under the name
    asked for; or, once a function [f] is the prototype of [_titles], the
    outcome of reading or assigning the property [key] through [f], which
    depends on the function object. *)
Inductive TitleResult : Type :=
  | TitleIs (f : TitleFn)
  | Chained (c : Chart)
  | InheritedMember (key : string)
  | ThroughPrototype (f : TitleFn) (key : string) (titleAccessor : arg TitleFn).

(** [stackName === this._groupName] for a string [stackName]. *)
Definition is_groupName (c : Chart) (s : string) : bool :=
  match _groupName c with
  | AString n => String.eqb s n
  | _ => false
  end.

(** [title(stackName, titleAccessor)] (lines 261-280); [super.title()]
    reads the chart-wide title and [super.title(f)] sets it. *)
Definition title (stackName titleAccessor : arg TitleFn) (c : Chart)
  : TitleResult :=
  if negb (truthy stackName) then TitleIs (_title c)
  else
    match stackName with
    | AFunction f => Chained (set_title f c)
    | AUndefined => TitleIs (_title c)
    | AString s =>
        match titleAccessor with
        | AFunction g =>
            if is_groupName c s then Chained (set_title g c)
            else
              match titles_assign (_titles c) s g with
              | inl t => Chained (set_titles t c)
              | inr p => ThroughPrototype p s titleAccessor
              end
        | _ =>
            match titles_read (_titles c) s with
            | IsTitle f => TitleIs f
            | IsInherited key => InheritedMember key
            | ViaFunction p key => ThroughPrototype p key titleAccessor
            | IsUndefined => TitleIs (_title c)
            end
        end
    end.

(** [stackLayout(_stack)] (lines 289-295). *)
Definition stackLayout (f : StackLayout) (c : Chart) : Chart :=
  set_stackLayout f c.

(** [evadeDomainFilter(evadeDomainFilter)] (lines 310-316). *)
Definition evadeDomainFilter (b : bool) (c : Chart) : Chart :=
  set_evadeDomainFilter b c.

(** An entry of [legendables()]. *)
Record Legendable : Type := mkLegendable {
  lg_chart : Chart;
  lg_name : string;
  lg_hidden : bool;
  lg_color : Color;
}.

(** [legendables()] (lines 328-335). *)
Definition legendables (c : Chart) : list Legendable :=
  imap (λ i layer,
    {| lg_chart := c;
       lg_name := name layer;
       lg_hidden := negb (_visibility c layer);
       lg_color := getColor c layer i |}) (stack c).

(** [isLegendableHidden(d)] (lines 337-340). *)
Definition isLegendableHidden (d : Legendable) (c : Chart) : bool :=
  match _findLayerByName (lg_name d) c with
  | Some layer => negb (_visibility c layer)
  | None => false
  end.

(** [legendToggle(d)] (lines 342-352); the call of [renderGroup()] that
    follows belongs to the rendering side and changes nothing here. *)
Definition legendToggle (d : Legendable) (c : Chart) : Chart :=
  if _hidableStacks c then
    if isLegendableHidden d c then showStack (lg_name d) c
    else hideStack (lg_name d) c
  else c.

(** [_ordinalXDomain()] (lines 322-326).  [_computeOrderedGroups] belongs
    to the base mixin, which is not under src/; it is a parameter. *)
Definition _ordinalXDomain (_computeOrderedGroups : list Row → list Row)
    (c : Chart) : result (list Z) :=
  pts ← _flattenStack c;
  let flat := map pt_data pts in
  let ordered := _computeOrderedGroups flat in
  Ok (imap (λ i d, _keyAccessor c d i) ordered).

End StackMixin.

(** ** Concrete charts used by the examples below *)

(** Rows are [(key, value)] pairs and colours are trivial; the x scale has
    the domain [1, 3]. *)
Definition chart_with (isOrdinal elasticX : bool) : @Chart (Z * Z) unit :=
  {| _stackLayout := d3.stack;
     _dataProvider := StackedDataAdaptor_new;
     _titles := ∅;
     _hidableStacks := false;
     _hiddenStacks := ∅;
     _evadeDomainFilter := false;
     _x := Some (mkScale [1; 3]);
     _isOrdinal := isOrdinal;
     _elasticX := elasticX;
     _keyAccessor := λ d _, d.1;
     _valueAccessor := λ d _, d.2;
     _yAxisPadding := 0;
     _xAxisPadding := 0;
     _xAxisPaddingUnit := None;
     _title := λ _, "";
     _group := None;
     _groupName := AUndefined;
     getColor := λ _ _, tt |}.

Definition example_chart : @Chart (Z * Z) unit := chart_with false false.

(** A point outside the domain [1, 3]. *)
Definition far_point : @Point (Z * Z) :=
  {| pt_x := 7; pt_y := 1; pt_data := (7, 1); pt_name := "A";
     pt_y0 := None; pt_y1 := None |}.

(** A layer as [StackedDataAdaptor.data] returns it. *)
Definition raw_layer_C : @DataLayer (Z * Z) :=
  {| dl_name := "C"; dl_accessor := None;
     dl_rawData := [(1, 5); (2, 15); (3, 7)];
     dl_points := []; dl_domainValues := []; dl_values := [] |}.

Definition group_A : @Group (Z * Z) := mkGroup [(1, 10); (2, 20)].
Definition group_B : @Group (Z * Z) := mkGroup [(1, 5); (2, 15)].
Definition group_C : @Group (Z * Z) := mkGroup [(1, 5); (2, 15); (3, 7)].

(** Layers [A] and [B] of the concrete scenario of the specification. *)
Definition chart_AB : Chart :=
  stack_add group_B [AString "B"] (stack_add group_A [AString "A"] example_chart).

(** Two layers attached under the same name. *)
Definition chart_AA : Chart :=
  stack_add group_B [AString "A"] (stack_add group_A [AString "A"] example_chart).

(** A first layer of two points followed by a layer of three. *)
Definition chart_AC : Chart :=
  stack_add group_C [AString "C"] (stack_add group_A [AString "A"] example_chart).

(** A first layer of three points followed by a layer of two. *)
Definition chart_CA : Chart :=
  stack_add group_A [AString "A"] (stack_add group_C [AString "C"] example_chart).

(** Two attach calls that leave the naming to the registry: [stack(A)]
    and [stack(B, accessor)]. *)
Definition unnamed_calls
  : list (@Group (Z * Z) * list (arg (@Accessor (Z * Z)))) :=
  [(group_A, []); (group_B, [AFunction (λ d _, d.1)])].

(** [chart_AB] with layer ["A"] hidden, and what it composes to. *)
Definition chart_AB_hidden_A : Chart := hideStack "A" chart_AB.

Definition composed_B : list (@DataLayer (Z * Z)) :=
  [{| dl_name := "B"; dl_accessor := None;
      dl_rawData := [(1, 5); (2, 15)];
      dl_points :=
        [{| pt_x := 1; pt_y := 5; pt_data := (1, 5); pt_name := "B";
            pt_y0 := Some (Num 0); pt_y1 := Some (Num 5) |};
         {| pt_x := 2; pt_y := 15; pt_data := (2, 15); pt_name := "B";
            pt_y0 := Some (Num 0); pt_y1 := Some (Num 15) |}];
      dl_domainValues := [0; 1]%nat;
      dl_values := [0; 1]%nat |}].

(** What [chart_AB] composes to. *)
Definition composed_AB : list (@DataLayer (Z * Z)) :=
  [{| dl_name := "A"; dl_accessor := None;
      dl_rawData := [(1, 10); (2, 20)];
      dl_points :=
        [{| pt_x := 1; pt_y := 10; pt_data := (1, 10); pt_name := "A";
            pt_y0 := Some (Num 0); pt_y1 := Some (Num 10) |};
         {| pt_x := 2; pt_y := 20; pt_data := (2, 20); pt_name := "A";
            pt_y0 := Some (Num 0); pt_y1 := Some (Num 20) |}];
      dl_domainValues := [0; 1]%nat;
      dl_values := [0; 1]%nat |};
   {| dl_name := "B"; dl_accessor := None;
      dl_rawData := [(1, 5); (2, 15)];
      dl_points :=
        [{| pt_x := 1; pt_y := 5; pt_data := (1, 5); pt_name := "B";
            pt_y0 := Some (Num 10); pt_y1 := Some (Num 15) |};
         {| pt_x := 2; pt_y := 15; pt_data := (2, 15); pt_name := "B";
            pt_y0 := Some (Num 20); pt_y1 := Some (Num 35) |}];
      dl_domainValues := [0; 1]%nat;
      dl_values := [0; 1]%nat |}].

(** What [chart_AC] composes to: the third point of ["C"] has no [y0]
    and no [y1]. *)
Definition composed_AC : list (@DataLayer (Z * Z)) :=
  [{| dl_name := "A"; dl_accessor := None;
      dl_rawData := [(1, 10); (2, 20)];
      dl_points :=
        [{| pt_x := 1; pt_y := 10; pt_data := (1, 10); pt_name := "A";
            pt_y0 := Some (Num 0); pt_y1 := Some (Num 10) |};
         {| pt_x := 2; pt_y := 20; pt_data := (2, 20); pt_name := "A";
            pt_y0 := Some (Num 0); pt_y1 := Some (Num 20) |}];
      dl_domainValues := [0; 1]%nat;
      dl_values := [0; 1]%nat |};
   {| dl_name := "C"; dl_accessor := None;
      dl_rawData := [(1, 5); (2, 15); (3, 7)];
      dl_points :=
        [{| pt_x := 1; pt_y := 5; pt_data := (1, 5); pt_name := "C";
            pt_y0 := Some (Num 10); pt_y1 := Some (Num 15) |};
         {| pt_x := 2; pt_y := 15; pt_data := (2, 15); pt_name := "C";
            pt_y0 := Some (Num 20); pt_y1 := Some (Num 35) |};
         {| pt_x := 3; pt_y := 7; pt_data := (3, 7); pt_name := "C";
            pt_y0 := None; pt_y1 := None |}];
      dl_domainValues := [0; 1; 2]%nat;
      dl_values := [0; 1; 2]%nat |}].

(** The layer of group [g] named [n] as a pass of chart [c] prepares it
    at position [i]. *)
Definition prepared_layer (c : @Chart (Z * Z) unit) (g : @Group (Z * Z))
    (n : string) (i : nat) : DataLayer :=
  _prepareValues c (layer_data (mkLayer g n None)) i.

(** [chart_AB] with legend toggling enabled, and the legend entries of
    layer ["A"] and of a name that is not registered. *)
Definition chart_AB_hidable : Chart := hidableStacks true chart_AB.

Definition legend_A : Legendable :=
  {| lg_chart := chart_AB_hidable; lg_name := "A"; lg_hidden := false;
     lg_color := tt |}.

Definition legend_Z : Legendable :=
  {| lg_chart := chart_AB_hidable; lg_name := "Z"; lg_hidden := false;
     lg_color := tt |}.

(** A title function. *)
Definition title_key : @TitleFn (Z * Z) := λ _, "key".

(** Two layers with a row outside the domain [1, 3], and what they
    compose to without and with the evade flag. *)
Definition group_A_far : @Group (Z * Z) := mkGroup [(1, 10); (2, 20); (7, 1)].
Definition group_B_far : @Group (Z * Z) := mkGroup [(1, 5); (2, 15); (7, 2)].

Definition chart_far : Chart :=
  stack_add group_B_far [AString "B"]
    (stack_add group_A_far [AString "A"] example_chart).

Definition composed_or_nil (r : result (list (@DataLayer (Z * Z))))
  : list DataLayer :=
  match r with Ok out => out | Throw _ => [] end.

Definition composed_far : list (@DataLayer (Z * Z)) :=
  Eval vm_compute in composed_or_nil (data chart_far).

Definition composed_far_evade : list (@DataLayer (Z * Z)) :=
  Eval vm_compute in
    composed_or_nil
      (data (evadeDomainFilter true (stackLayout d3.stack chart_far))).

(** [example_chart] with another x scale, or none. *)
Definition chart_scaled (x : option Scale) : @Chart (Z * Z) unit :=
  {| _stackLayout := d3.stack;
     _dataProvider := StackedDataAdaptor_new;
     _titles := ∅;
     _hidableStacks := false;
     _hiddenStacks := ∅;
     _evadeDomainFilter := false;
     _x := x;
     _isOrdinal := false;
     _elasticX := false;
     _keyAccessor := λ d _, d.1;
     _valueAccessor := λ d _, d.2;
     _yAxisPadding := 0;
     _xAxisPadding := 0;
     _xAxisPaddingUnit := None;
     _title := λ _, "";
     _group := None;
     _groupName := AUndefined;
     getColor := λ _ _, tt |}.

(** A first layer whose rows are all outside the domain [1, 3], followed
    by layer ["A"]. *)
Definition group_out : @Group (Z * Z) := mkGroup [(7, 1); (8, 2)].

Definition chart_out_A : Chart :=
  stack_add group_A [AString "A"]
    (stack_add group_out [AString "out"] example_chart).

(** A chart with legend toggling enabled whose only layer is named
    ['__proto__'], and the legend entry of that layer. *)
Definition chart_proto : Chart :=
  hidableStacks true (stack_add group_A [AString "__proto__"] example_chart).

Definition legend_proto : Legendable :=
  {| lg_chart := chart_proto; lg_name := "__proto__"; lg_hidden := true;
     lg_color := tt |}.

(** ** Definitions used to state the properties *)

Section Statements.

Context {Row Color : Type}.

(** The layer [group(g, n, f)] attaches: named [n] when [n] is a string and
    ["0"] otherwise, and without an accessor of its own. *)
Definition sole_layer (g : @Group Row) (n : arg (@Accessor Row)) : Layer :=
  {| layer_group := g;
     layer_name := match n with AString s => s | _ => "0" end;
     layer_accessor := None |}.

(** An attach call whose second argument is not a string: the layer is
    named by the registry. *)
Definition unnamed (rest : list (arg (@Accessor Row))) : Prop :=
  is_string (default AUndefined (rest !! 0%nat)) = false.

(** The name an attach call gives to its layer when the registry holds
    [len] layers. *)
Definition call_name (rest : list (arg (@Accessor Row))) (len : nat) : string :=
  match rest !! 0%nat with
  | Some (AString s) => s
  | _ => pretty len
  end.

(** Each call of a sequence attaches under a name that is not among the
    names registered at the time of the call; [names] are the names
    registered before the sequence. *)
Fixpoint fresh_names (calls : list (@Group Row * list (arg (@Accessor Row))))
    (names : list string) : Prop :=
  match calls with
  | [] => True
  | call :: calls' =>
      (call_name call.2 (length names) ∉ names)
      ∧ fresh_names calls' (names ++ [call_name call.2 (length names)])
  end.

(** A sequence of attach calls, each given as the group and the arguments
    that follow it. *)
Definition attach_all (calls : list (@Group Row * list (arg (@Accessor Row))))
    (c : @Chart Row Color) : Chart :=
  foldl (λ c call, stack_add call.1 call.2 c) c calls.

(** The layers a composition pass works on: the visible ones, in registry
    order, after [_prepareValues]. *)
Definition visible_layers (c : @Chart Row Color) : list DataLayer :=
  List.filter (_visibility c) (StackedDataAdaptor_data (_dataProvider c)).

Definition prepared (c : @Chart Row Color) : list DataLayer :=
  imap (λ i l, _prepareValues c l i) (visible_layers c).

(** The [y] of the point at index [k] of the [values] of a layer. *)
Definition y_at (l : @DataLayer Row) (k : nat) : Z :=
  match value_at l k with
  | Ok p => pt_y p
  | Throw _ => 0
  end.

(** The sum of the [y] at index [k] of the layers that precede position
    [i]. *)
Definition baseline (layers : list (@DataLayer Row)) (i k : nat) : Z :=
  foldr (λ l acc, y_at l k + acc) 0 (take i layers).

(** The point at index [k] of the [values] of layer [i] after a
    composition pass, when there is one. *)
Definition stacked_point (c : @Chart Row Color) (i k : nat) : option Point :=
  match data c with
  | Ok out =>
      match out !! i with
      | Some l =>
          match value_at l k with
          | Ok p => Some p
          | Throw _ => None
          end
      | None => None
      end
  | Throw _ => None
  end.

(** The column of index [i]: every layer, in order, stores its [y] under
    its name. *)
Definition column_fold (layers : list (@DataLayer Row)) (i : nat)
    (col : d3.column) : d3.column :=
  foldl (λ col l, <[name l := y_at l i]> col) col layers.

(** The sum of [yv 0 .. yv (i - 1)]. *)
Fixpoint sum_below (yv : nat → Z) (i : nat) : Z :=
  match i with
  | O => 0
  | S i' => sum_below yv i' + yv i'
  end.

(** A point after [y0] and [y1] have been assigned. *)
Definition with_offsets (ys : number * number) (p : @Point Row) : Point :=
  {| pt_x := pt_x p; pt_y := pt_y p; pt_data := pt_data p;
     pt_name := pt_name p; pt_y0 := Some ys.1; pt_y1 := Some ys.2 |}.

(** The effect of the inner write-back loop on one layer, from point index
    [j] on. *)
Definition set_point (ys : number * number) (j : nat) (layer : @DataLayer Row)
  : DataLayer :=
  match write_point ys j layer with
  | Ok layer' => layer'
  | Throw _ => layer
  end.

Fixpoint write_from (j : nat) (series : d3.series) (layer : @DataLayer Row)
  : DataLayer :=
  match series with
  | [] => layer
  | ys :: rest => write_from (S j) rest (set_point ys j layer)
  end.

(** The references of a layer are distinct and point into its store. *)
Definition layer_wf (l : @DataLayer Row) : Prop :=
  NoDup (dl_values l)
  ∧ Forall (λ r, (r < length (dl_points l))%nat) (dl_values l).

(** [m] is the least (greatest) element of [vs], and nothing when [vs] is
    empty. *)
Definition least_of (vs : list Z) (m : option Z) : Prop :=
  match m with
  | None => vs = []
  | Some z => z ∈ vs ∧ ∀ v, v ∈ vs → z ≤ v
  end.

Definition greatest_of (vs : list Z) (m : option Z) : Prop :=
  match m with
  | None => vs = []
  | Some z => z ∈ vs ∧ ∀ v, v ∈ vs → v ≤ z
  end.

(** The values of a list of points under an accessor that are numbers. *)
Definition numbers_of (f : @Point Row → option number) (pts : list Point)
  : list Z :=
  omap (λ p, d3.comparable (f p)) pts.

(** Two points that differ at most in [y0] and [y1]. *)
Definition same_point (p q : @Point Row) : Prop :=
  pt_x p = pt_x q ∧ pt_y p = pt_y q ∧ pt_data p = pt_data q
  ∧ pt_name p = pt_name q.

(** Two layers that differ at most in the [y0] and [y1] of their points. *)
Definition same_layer (l l' : @DataLayer Row) : Prop :=
  dl_name l = dl_name l'
  ∧ dl_accessor l = dl_accessor l'
  ∧ dl_rawData l = dl_rawData l'
  ∧ dl_domainValues l = dl_domainValues l'
  ∧ dl_values l = dl_values l'
  ∧ Forall2 same_point (dl_points l) (dl_points l').

(** An extent with the padding added or subtracted; not a number when
    there is no extent. *)
Definition plus_padding (m : option Z) (pad : Z) : number :=
  match m with
  | Some z => Num (z + pad)
  | None => NaN
  end.

Definition minus_padding (m : option Z) (pad : Z) : number :=
  match m with
  | Some z => Num (z - pad)
  | None => NaN
  end.

(** The [y] at index [k] of the [values] of the prepared layer at position
    [i], and the sum of these over the layers before [i]. *)
Definition prepared_y (c : @Chart Row Color) (i k : nat) : Z :=
  from_option (λ l, y_at l k) 0 (prepared c !! i).

Definition column_sum (c : @Chart Row Color) (i k : nat) : Z :=
  sum_below (λ j, prepared_y c j k) i.

End Statements.

(** ** Visibility (hideStack, showStack, _visibility) *)

Section Visibility.

Context {Row Color : Type}.
Implicit Types (c : @Chart Row Color) (l : @Layer Row) (n : string).

Lemma flag_read_assign (obj : gmap string bool) (n m : string) (b : bool) :
  flag_read (flag_assign obj n b) m
  = if decide (n = m) then (if decide (n = "__proto__") then true else b)
    else flag_read obj m.
Proof.
  unfold flag_read, flag_assign.
  destruct (decide (n = m)) as [->|Hnm].
  - destruct (decide (m = "__proto__")); [done|]. by rewrite lookup_insert_eq.
  - destruct (decide (m = "__proto__")); [done|].
    destruct (decide (n = "__proto__")); [done|]. by rewrite lookup_insert_ne.
Qed.

Lemma flag_read_proto (obj : gmap string bool) :
  flag_read obj "__proto__" = true.
Proof. reflexivity. Qed.


Lemma flag_assign_twice (obj : gmap string bool) (n : string) (a b : bool) :
  flag_assign (flag_assign obj n a) n b = flag_assign obj n b.
Proof.
  unfold flag_assign. destruct (decide (n = "__proto__")); [done|].
  by rewrite insert_insert_eq.
Qed.

Lemma flag_assign_comm (obj : gmap string bool) (n m : string) (a b : bool) :
  n ≠ m →
  flag_assign (flag_assign obj n a) m b = flag_assign (flag_assign obj m b) n a.
Proof.
  intros Hnm. unfold flag_assign.
  destruct (decide (n = "__proto__")), (decide (m = "__proto__")); try done.
  by rewrite insert_insert_ne.
Qed.

Lemma visibility_hide c n l :
  _visibility (hideStack n c) l
  = if decide (n = name l) then false else _visibility c l.
Proof.
  unfold _visibility, hideStack; simpl.
  rewrite flag_read_assign. case_decide; [|done]. by case_decide.
Qed.

Lemma visibility_show c n l :
  _visibility (showStack n c) l
  = if decide (n = name l) then bool_decide (n ≠ "__proto__")
    else _visibility c l.
Proof.
  unfold _visibility, showStack; simpl.
  rewrite flag_read_assign. case_decide; [|done].
  case_decide.
  - by rewrite bool_decide_eq_false_2 by (by intros []).
  - by rewrite bool_decide_eq_true_2.
Qed.

Lemma visibility_proto c l : name l = "__proto__" → _visibility c l = false.
Proof. intros Hl. unfold _visibility. by rewrite Hl. Qed.


End Visibility.



(** ** Titles *)

Section Titles.

Context {Row Color : Type}.
Implicit Types (c : @Chart Row Color) (f : @TitleFn Row).

Lemma titles_read_absent (t : @TitlesObject Row) (s : string) :
  titles_proto t = None →
  titles_own t !! s = None →
  titles_read t s = if inherited s then IsInherited s else IsUndefined.
Proof.
  intros Hp Hs. unfold titles_read. rewrite Hp, Hs.
  destruct (decide (s = "__proto__")) as [->|]; done.
Qed.

Lemma titles_read_own (t : @TitlesObject Row) (s : string) f :
  s ≠ "__proto__" →
  titles_own t !! s = Some f →
  titles_read t s = IsTitle f.
Proof.
  intros Hp Hs. unfold titles_read. rewrite Hs. by rewrite decide_False.
Qed.

Lemma titles_assign_fresh (t : @TitlesObject Row) (s : string) f :
  s ≠ "__proto__" →
  titles_proto t = None →
  titles_assign t s f
  = inl {| titles_own := <[s := f]> (titles_own t); titles_proto := None |}.
Proof.
  intros Hs Hp. unfold titles_assign. rewrite decide_False by done.
  by rewrite Hp.
Qed.


End Titles.



(** ** Replacing the group *)

Section GroupReplacement.

Context {Row Color : Type}.
Implicit Types (c : @Chart Row Color) (g : @Group Row) (l : @Layer Row).

(** C10.  [group(g, n, f)] leaves a registry holding exactly the new layer
    and no per-layer title; [f], when given, becomes the shared value
    accessor; the set of hidden names is untouched, so every name is as
    visible as before. *)
Theorem C10_group_replaces c g n (f : option Accessor) :
  stack (group g n f c) = [sole_layer g n]
  ∧ _titles (group g n f c) = ∅
  ∧ _valueAccessor (group g n f c) = default (_valueAccessor c) f
  ∧ _hiddenStacks (group g n f c) = _hiddenStacks c
  ∧ (∀ l, _visibility (group g n f c) l = _visibility c l).
Proof.
  unfold group, stack, sole_layer.
  destruct f as [f|], n as [|s|a]; repeat split.
Qed.

End GroupReplacement.

(** A name hidden before the replacement hides the new layer of that
    name. *)
Example group_keeps_hidden :
  _visibility (group group_B (AString "A") None (hideStack "A" chart_AB))
    (mkLayer group_B "A" None) = false.
Proof. reflexivity. Qed.

(** A function given as second argument of [group] names no layer and is
    not stored as its accessor. *)
Example group_function_name :
  stack (group group_B (AFunction (λ d _, d.1)) None chart_AB)
  = [mkLayer group_B "0" None].
Proof. reflexivity. Qed.

(** ** The registry (stack) *)

Section Registry.

Context {Row Color : Type}.
Implicit Types (c : @Chart Row Color) (g : @Group Row).
Implicit Types (rest : list (arg (@Accessor Row))).

Lemma stack_add_app c g rest :
  ∃ layer, stack (stack_add g rest c) = stack c ++ [layer]
           ∧ layer_group layer = g
           ∧ (unnamed rest → name layer = pretty (length (stack c)))
           ∧ (∀ s, rest !! 0%nat = Some (AString s) → name layer = s).
Proof.
  eexists. split; [reflexivity|]. split; [reflexivity|]. split.
  - unfold unnamed. simpl. unfold name, Layer_named. simpl.
    by destruct (default AUndefined (rest !! 0%nat)).
  - intros s Hs. unfold name, Layer_named. simpl. by rewrite Hs.
Qed.

Lemma stack_add_names c g rest :
  map name (stack (stack_add g rest c))
  = map name (stack c) ++ [call_name rest (length (stack c))].
Proof.
  unfold stack, stack_add, call_name. simpl. rewrite map_app. simpl.
  do 2 f_equal. unfold name, Layer_named. simpl.
  by destruct (rest !! 0%nat) as [[]|].
Qed.

Lemma attach_all_snoc calls g rest c :
  attach_all (calls ++ [(g, rest)]) c = stack_add g rest (attach_all calls c).
Proof. unfold attach_all. by rewrite foldl_app. Qed.

Lemma NoDup_snoc (l : list string) (x : string) :
  NoDup (l ++ [x]) ↔ NoDup l ∧ x ∉ l.
Proof.
  rewrite NoDup_app. split.
  - intros (Hl & Hx & _). split; [done|]. intros Hin.
    apply (Hx x Hin). apply list_elem_of_here.
  - intros [Hl Hx]. split; [done|]. split.
    + intros y Hy Hy'. apply list_elem_of_singleton in Hy'. by subst y.
    + apply NoDup_singleton.
Qed.

Lemma attach_all_names calls c :
  NoDup (map name (stack (attach_all calls c)))
  ↔ NoDup (map name (stack c)) ∧ fresh_names calls (map name (stack c)).
Proof.
  revert c. induction calls as [|[g rest] calls IH]; intros c.
  - simpl. tauto.
  - change (attach_all ((g, rest) :: calls) c)
      with (attach_all calls (stack_add g rest c)).
    rewrite IH, stack_add_names, NoDup_snoc. cbn [fresh_names].
    rewrite length_map. tauto.
Qed.

(** Registry-generated names are the decimal indices of the layers. *)
Lemma attach_all_unnamed_names calls c :
  stack c = [] →
  Forall (λ call, unnamed call.2) calls →
  map name (stack (attach_all calls c)) = pretty <$> seq 0 (length calls).
Proof.
  intros Hc. induction calls as [|[g rest] calls IH] using rev_ind; intros Hall.
  - simpl. by rewrite Hc.
  - apply Forall_app in Hall as [Hall Hlast].
    apply Forall_cons_1 in Hlast as [Hlast _]. simpl in Hlast.
    rewrite attach_all_snoc.
    destruct (stack_add_app (attach_all calls c) g rest)
      as (layer & -> & _ & Hname & _).
    rewrite map_app, IH by done. cbn [map].
    rewrite Hname by done.
    rewrite length_app, seq_app, fmap_app. cbn [length seq fmap list_fmap].
    do 3 f_equal.
    rewrite <- (length_map name), IH by done.
    rewrite length_fmap, length_seq. lia.
Qed.

(** C7 (as amended).  An attach call without a string name names the new
    layer by the decimal length of the registry before the call; a string
    name is kept as it is.  Every attach call appends one layer and leaves
    the registered layers as they are, whatever the name: the names are
    pairwise distinct after the call exactly when they were before and the
    name of the new layer was not registered.  After a sequence of attach
    calls the names are pairwise distinct exactly when they were at the
    start and the name of each call was not registered at the time of the
    call; this is the case for calls from an empty registry that all leave
    the naming to the registry. *)
Theorem C7_attach_names c g rest calls :
  (∃ layer, stack (stack_add g rest c) = stack c ++ [layer]
            ∧ (unnamed rest → name layer = pretty (length (stack c)))
            ∧ (∀ s, rest !! 0%nat = Some (AString s) → name layer = s)
            ∧ (NoDup (map name (stack (stack_add g rest c)))
               ↔ NoDup (map name (stack c))
                 ∧ name layer ∉ map name (stack c)))
  ∧ (NoDup (map name (stack (attach_all calls c)))
     ↔ NoDup (map name (stack c)) ∧ fresh_names calls (map name (stack c)))
  ∧ (stack c = [] →
     Forall (λ call, unnamed call.2) calls →
     NoDup (map name (stack (attach_all calls c)))).
Proof.
  split; [|split].
  - destruct (stack_add_app c g rest) as (layer & H1 & _ & H2 & H3).
    exists layer. split; [done|]. split; [done|]. split; [done|].
    rewrite H1, map_app. apply NoDup_snoc.
  - apply attach_all_names.
  - intros Hc Hall. rewrite attach_all_unnamed_names by done.
    apply NoDup_fmap; [apply _|]. apply NoDup_seq.
Qed.

End Registry.

Lemma C7_attach_names_witness :
  (unnamed (@nil (arg (@Accessor (Z * Z))))
   ∧ ∃ layer, stack (stack_add group_A [] example_chart)
              = stack example_chart ++ [layer]
              ∧ name layer = "0")
  ∧ ([AString "B"] !! 0%nat = Some (@AString (@Accessor (Z * Z)) "B")
     ∧ ∃ layer, stack (stack_add group_B [AString "B"] example_chart)
                = stack example_chart ++ [layer]
                ∧ name layer = "B")
  ∧ (stack example_chart = []
     ∧ Forall (λ call, unnamed call.2) unnamed_calls
     ∧ NoDup (map name (stack (attach_all unnamed_calls example_chart)))).
Proof.
  assert (Forall (λ call, unnamed call.2) unnamed_calls) as Hall.
  { repeat constructor. }
  split; [|split].
  - split; [reflexivity|].
    destruct (proj1 (C7_attach_names example_chart group_A [] unnamed_calls))
      as (layer & Happ & Hname & _).
    exists layer. split; [exact Happ|]. apply Hname. reflexivity.
  - split; [reflexivity|].
    destruct (proj1 (C7_attach_names example_chart group_B [AString "B"]
                       unnamed_calls))
      as (layer & Happ & _ & Hname & _).
    exists layer. split; [exact Happ|]. apply Hname. reflexivity.
  - split; [reflexivity|]. split; [exact Hall|].
    apply (proj2 (proj2 (C7_attach_names example_chart group_A []
                           unnamed_calls)));
      [reflexivity|exact Hall].
Defined.

(** Two attach calls under the same explicit name leave two layers of that
    name in the registry: names are not unique. *)
Lemma C7_attach_names_counterexample :
  map name (stack chart_AA) = ["A"; "A"]
  ∧ ¬ NoDup (map name (stack chart_AA)).
Proof.
  split; [reflexivity|].
  intros H. apply NoDup_cons in H as [H _]. apply H.
  apply list_elem_of_here.
Qed.

(** The registry-generated name itself collides with an explicit name that
    is a decimal index. *)
Example generated_name_collides :
  map name (stack (stack_add group_B [] (stack_add group_A [AString "1"] example_chart)))
  = ["1"; "1"].
Proof. reflexivity. Qed.

(** ** Point extraction and domain filtering *)

Section PrepareValues.

Context {Row Color : Type}.
Implicit Types (c : @Chart Row Color) (layer : @DataLayer Row).
Implicit Types (store : list (@Point Row)) (f : @Point Row → bool).

Lemma deref_seq_from pre store :
  deref (pre ++ store) (seq (length pre) (length store)) = store.
Proof.
  revert pre. induction store as [|p store IH]; intros pre; [done|].
  unfold deref in *. cbn [length seq omap list_omap].
  rewrite list_lookup_middle by done.
  f_equal. specialize (IH (pre ++ [p])).
  rewrite <- app_assoc, length_app in IH. cbn in IH.
  by rewrite Nat.add_1_r in IH.
Qed.

Lemma deref_filter_from pre store f :
  deref (pre ++ store)
    (List.filter (passes (pre ++ store) f) (seq (length pre) (length store)))
  = List.filter f store.
Proof.
  revert pre. induction store as [|p store IH]; intros pre; [done|].
  cbn [length seq List.filter].
  assert (passes (pre ++ p :: store) f (length pre) = f p) as ->.
  { unfold passes. by rewrite list_lookup_middle. }
  specialize (IH (pre ++ [p])).
  rewrite <- app_assoc, length_app in IH. cbn in IH.
  rewrite Nat.add_1_r in IH.
  destruct (f p); [|exact IH].
  unfold deref in *. cbn [omap list_omap].
  rewrite list_lookup_middle by done. by f_equal.
Qed.

(** The array of all references denotes the whole store. *)
Lemma deref_seq store : deref store (seq 0 (length store)) = store.
Proof. apply (deref_seq_from []). Qed.

(** Filtering references by the object they point to filters the store. *)
Lemma deref_filter store f :
  deref store (List.filter (passes store f) (seq 0 (length store)))
  = List.filter f store.
Proof. apply (deref_filter_from []). Qed.

Lemma domainFilter_fixed c sc lo hi p :
  _x c = Some sc → _isOrdinal c = false → _elasticX c = false →
  head (domain sc) = Some lo → last (domain sc) = Some hi →
  _domainFilter c p = bool_decide (lo ≤ pt_x p ≤ hi).
Proof.
  intros Hx Hord Hel Hlo Hhi. unfold _domainFilter.
  rewrite Hx, Hord, Hel.
  rewrite <- head_lookup, Hlo.
  rewrite last_lookup in Hhi.
  replace (length (domain sc) - 1)%nat with (pred (length (domain sc))) by lia.
  rewrite Hhi. simpl.
  destruct (Z.leb_spec lo (pt_x p)), (Z.leb_spec (pt_x p) hi); simpl;
    symmetry; (apply bool_decide_eq_true_2 || apply bool_decide_eq_false_2); lia.
Qed.

Lemma domainFilter_ordinal c p : _isOrdinal c = true → _domainFilter c p = true.
Proof. intros H. unfold _domainFilter. rewrite H. by destruct (_x c). Qed.

Lemma domainFilter_elastic c p : _elasticX c = true → _domainFilter c p = true.
Proof.
  intros H. unfold _domainFilter. rewrite H.
  by destruct (_x c), (_isOrdinal c).
Qed.

(** C4.  [_prepareValues] maps every row through the key accessor and the
    layer's accessor (the shared value accessor when the layer has none);
    [domainValues] is this point list filtered by the domain filter;
    [values] is the unfiltered list when the evade flag is set and
    [domainValues] otherwise.  The domain filter keeps the points with [x]
    between the first and the last element of a fixed numeric domain, and
    every point for an ordinal or an elastic domain. *)
Theorem C4_prepare_values c layer layerIdx :
  let pts :=
    imap (λ i d,
      {| pt_x := _keyAccessor c d i;
         pt_y := default (_valueAccessor c) (dl_accessor layer) d i;
         pt_data := d;
         pt_name := dl_name layer;
         pt_y0 := None;
         pt_y1 := None |}) (dl_rawData layer) in
  let layer' := _prepareValues c layer layerIdx in
  domainValues layer' = List.filter (_domainFilter c) pts
  ∧ values layer' = (if _evadeDomainFilter c then pts else domainValues layer')
  ∧ (∀ sc lo hi p,
       _x c = Some sc → _isOrdinal c = false → _elasticX c = false →
       head (domain sc) = Some lo → last (domain sc) = Some hi →
       _domainFilter c p = bool_decide (lo ≤ pt_x p ≤ hi))
  ∧ (∀ p, _isOrdinal c = true → _domainFilter c p = true)
  ∧ (∀ p, _elasticX c = true → _domainFilter c p = true).
Proof.
  intros pts layer'.
  assert (domainValues layer' = List.filter (_domainFilter c) pts) as Hdom.
  { unfold domainValues, layer', _prepareValues; cbn.
    apply deref_filter. }
  split; [exact Hdom|]. split.
  - unfold values, layer', _prepareValues; cbn.
    destruct (_evadeDomainFilter c).
    + apply deref_seq.
    + reflexivity.
  - split; [|split].
    + intros sc lo hi p. apply domainFilter_fixed.
    + intros p. apply domainFilter_ordinal.
    + intros p. apply domainFilter_elastic.
Qed.

End PrepareValues.

Lemma C4_prepare_values_witness :
  (_x example_chart = Some (mkScale [1; 3])
   ∧ _isOrdinal example_chart = false
   ∧ _elasticX example_chart = false
   ∧ head [1; 3] = Some 1
   ∧ last [1; 3] = Some 3
   ∧ _domainFilter example_chart far_point = bool_decide (1 ≤ 7 ≤ 3))
  ∧ (_isOrdinal (chart_with true false) = true
     ∧ _domainFilter (chart_with true false) far_point = true)
  ∧ (_elasticX (chart_with false true) = true
     ∧ _domainFilter (chart_with false true) far_point = true).
Proof.
  split; [|split].
  - do 5 (split; [reflexivity|]).
    apply (proj1 (proj2 (proj2 (C4_prepare_values example_chart raw_layer_C 0)))
             (mkScale [1; 3]) 1 3 far_point); reflexivity.
  - split; [reflexivity|].
    apply (proj1 (proj2 (proj2 (proj2
             (C4_prepare_values (chart_with true false) raw_layer_C 0))))
             far_point); reflexivity.
  - split; [reflexivity|].
    apply (proj2 (proj2 (proj2 (proj2
             (C4_prepare_values (chart_with false true) raw_layer_C 0))))
             far_point); reflexivity.
Defined.

(** ** Loops with a callback that may raise *)

Section Loops.

Context {A B St : Type}.

(** The only exception the mixin can raise. *)
Lemma error_is_TypeError (e : JsError) : e = TypeError.
Proof. by destruct e. Qed.

Lemma forEach_from_invariant (P : St → Prop) (f : A → nat → St → result St)
    i l s s' :
  (∀ a j s1 s2, a ∈ l → P s1 → f a j s1 = Ok s2 → P s2) →
  P s → forEach_from f i l s = Ok s' → P s'.
Proof.
  revert i s. induction l as [|a l IH]; intros i s Hf Hs Hrun; simpl in Hrun.
  - by inversion Hrun; subst.
  - destruct (f a i s) as [s1|e] eqn:Hfa; simpl in Hrun; [|done].
    eapply IH; [| |exact Hrun].
    + intros ???? Hin. apply Hf. by right.
    + eapply Hf; [by left|exact Hs|exact Hfa].
Qed.

(** A loop whose callback succeeds on every element is a fold. *)
Lemma forEach_from_fold (f : A → nat → St → result St) (g : A → St → St) i l s :
  (∀ a j s1, a ∈ l → f a j s1 = Ok (g a s1)) →
  forEach_from f i l s = Ok (foldl (λ s1 a, g a s1) s l).
Proof.
  revert i s. induction l as [|a l IH]; intros i s Hf; simpl; [done|].
  rewrite Hf by (by left). simpl. apply IH.
  intros ??? Hin. apply Hf. by right.
Qed.

(** A loop raises as soon as its callback raises on some element whatever
    the state. *)
Lemma forEach_from_throw (f : A → nat → St → result St) i l s a :
  a ∈ l → (∀ j s1, f a j s1 = Throw TypeError) →
  forEach_from f i l s = Throw TypeError.
Proof.
  revert i s. induction l as [|b l IH]; intros i s Hin Hf.
  - by apply elem_of_nil in Hin.
  - simpl. destruct (f b i s) as [s1|e] eqn:Hfb; simpl.
    + apply elem_of_cons in Hin as [->|Hin]; [by rewrite Hf in Hfb|].
      by apply IH.
    + by rewrite (error_is_TypeError e).
Qed.

Lemma map_from_length (f : A → nat → result B) i l bs :
  map_from f i l = Ok bs → length bs = length l.
Proof.
  revert i bs. induction l as [|a l IH]; intros i bs Hrun; simpl in Hrun.
  - by inversion Hrun.
  - destruct (f a i) as [b|e]; simpl in Hrun; [|done].
    destruct (map_from f (S i) l) as [bs'|e] eqn:Hrest; simpl in Hrun; [|done].
    inversion Hrun; subst. simpl. f_equal. by eapply IH.
Qed.

Lemma map_from_lookup (f : A → nat → result B) i l bs k a :
  map_from f i l = Ok bs → l !! k = Some a →
  ∃ b, bs !! k = Some b ∧ f a (i + k)%nat = Ok b.
Proof.
  revert i bs k. induction l as [|a0 l IH]; intros i bs k Hrun Hk; [done|].
  simpl in Hrun.
  destruct (f a0 i) as [b|e] eqn:Hfa; simpl in Hrun; [|done].
  destruct (map_from f (S i) l) as [bs'|e] eqn:Hrest; simpl in Hrun; [|done].
  inversion Hrun; subst. destruct k as [|k]; simpl in *.
  - inversion Hk; subst. exists b. by rewrite Nat.add_0_r.
  - destruct (IH _ _ _ Hrest Hk) as (b' & ? & ?). exists b'.
    by rewrite Nat.add_succ_r.
Qed.

(** A map whose callback succeeds on every element succeeds. *)
Lemma map_from_total (f : A → nat → result B) i l :
  (∀ k a, l !! k = Some a → ∃ b, f a (i + k)%nat = Ok b) →
  ∃ bs, map_from f i l = Ok bs.
Proof.
  revert i. induction l as [|a l IH]; intros i Hf; simpl; [by eexists|].
  destruct (Hf 0%nat a eq_refl) as [b Hb]. rewrite Nat.add_0_r in Hb.
  rewrite Hb. simpl.
  destruct (IH (S i)) as [bs Hbs].
  { intros k a' Hk. destruct (Hf (S k) a' Hk) as [b' Hb'].
    exists b'. by rewrite Nat.add_succ_r in Hb'. }
  rewrite Hbs. simpl. by eexists.
Qed.

(** A map raises as soon as its callback raises on some element. *)
Lemma map_from_throw (f : A → nat → result B) i l k a :
  l !! k = Some a → f a (i + k)%nat = Throw TypeError →
  map_from f i l = Throw TypeError.
Proof.
  revert i k. induction l as [|a0 l IH]; intros i k Hk Hf; [done|].
  simpl. destruct (f a0 i) as [b|e] eqn:Hfa; simpl.
  - destruct k as [|k]; simpl in Hk.
    + inversion Hk; subst. rewrite Nat.add_0_r in Hf. by rewrite Hf in Hfa.
    + rewrite (IH (S i) k); [done|done|]. by rewrite Nat.add_succ_r in Hf.
  - by rewrite (error_is_TypeError e).
Qed.

End Loops.

(** ** The composition pass *)

Section Composition.

Context {Row Color : Type}.
Implicit Types (c : @Chart Row Color) (l layer : @DataLayer Row).
Implicit Types (layers out : list (@DataLayer Row)).

Lemma data_unfold c :
  data c =
  if (length (visible_layers c) =? 0)%nat then Ok []
  else
    v4data ←
      match prepared c !! 0%nat with
      | None => Throw TypeError
      | Some layer0 =>
          map_result (λ r i,
            match dl_points layer0 !! r with
            | None => Throw TypeError
            | Some v => column_of (prepared c) v i
            end) (dl_values layer0)
      end;
    write_back (_stackLayout c (map name (prepared c)) v4data) (prepared c).
Proof. reflexivity. Qed.

Lemma visible_layers_filter c :
  visible_layers c = map layer_data (List.filter (_visibility c) (stack c)).
Proof.
  unfold visible_layers, StackedDataAdaptor_data, stack.
  induction (_stack (_dataProvider c)) as [|layer ls IH]; [done|].
  cbn [map List.filter].
  change (_visibility c (layer_data layer)) with (_visibility c layer).
  destruct (_visibility c layer); cbn [map]; by rewrite IH.
Qed.

Lemma filter_filter_same {X : Type} (f : X → bool) (xs : list X) :
  List.filter f (List.filter f xs) = List.filter f xs.
Proof.
  induction xs as [|x xs IH]; [done|]. cbn [List.filter].
  destruct (f x) eqn:Hx; [|done]. cbn [List.filter]. by rewrite Hx, IH.
Qed.

Lemma filter_none {X : Type} (f : X → bool) (xs : list X) :
  Forall (λ x, f x = false) xs → List.filter f xs = [].
Proof.
  induction 1 as [|x xs Hx _ IH]; [done|]. cbn [List.filter]. by rewrite Hx.
Qed.

Lemma filter_all_pass {X : Type} (f : X → bool) (xs : list X) :
  Forall (λ x, f x = true) (List.filter f xs).
Proof.
  induction xs as [|x xs IH]; [constructor|]. cbn [List.filter].
  destruct (f x) eqn:Hx; [by constructor|done].
Qed.

Lemma imap_names (f : nat → @DataLayer Row → @DataLayer Row) layers :
  (∀ i l, name (f i l) = name l) →
  map name (imap f layers) = map name layers.
Proof.
  revert f. induction layers as [|l ls IH]; intros f Hf; [done|].
  cbn [imap map]. rewrite Hf. f_equal. apply IH. intros i l'. apply Hf.
Qed.

Lemma prepared_names c : map name (prepared c) = map name (visible_layers c).
Proof. apply imap_names. done. Qed.

Lemma prepared_length c : length (prepared c) = length (visible_layers c).
Proof. unfold prepared. by rewrite length_imap. Qed.

Lemma write_point_name ys j layer layer' :
  write_point ys j layer = Ok layer' → name layer' = name layer.
Proof.
  unfold write_point. destruct (dl_values layer !! j); [|done].
  by inversion 1.
Qed.

(** Whatever the layout returns, the write-back keeps the layers and their
    names. *)
Lemma write_back_names (v4result : list d3.series) layers out :
  write_back v4result layers = Ok out → map name out = map name layers.
Proof.
  unfold write_back, forEach.
  apply (forEach_from_invariant (λ ls, map name ls = map name layers));
    [|done].
  intros series i ls1 ls2 _ Hls1.
  apply (forEach_from_invariant (λ ls, map name ls = map name layers));
    [|done].
  intros ys j ls3 ls4 _ Hls3 Hstep.
  destruct (ls3 !! i) as [layer|] eqn:Hi; [|done].
  destruct (write_point ys j layer) as [layer'|] eqn:Hw; simpl in Hstep; [|done].
  inversion Hstep; subst. rewrite <- Hls3.
  change map with (@fmap list _) in *.
  rewrite list_fmap_insert.
  apply list_insert_id. rewrite list_lookup_fmap, Hi. simpl.
  f_equal. symmetry. by eapply write_point_name.
Qed.

(** The layers of a successful pass are the visible registered layers, in
    registry order. *)
Lemma data_names c out :
  data c = Ok out →
  map name out = map name (List.filter (_visibility c) (stack c)).
Proof.
  rewrite data_unfold, visible_layers_filter.
  destruct (List.filter (_visibility c) (stack c)) as [|l0 ls] eqn:Hvis.
  { simpl. by inversion 1. }
  cbn [length map Nat.eqb].
  destruct (match prepared c !! 0%nat with
            | Some layer0 => _ | None => _ end) as [v4data|e]; [|done].
  simpl. intros Hwb. apply write_back_names in Hwb.
  rewrite Hwb, prepared_names, visible_layers_filter, Hvis.
  clear. change map with (@fmap list _). rewrite <- list_fmap_compose.
  done.
Qed.

Lemma data_no_visible_layer c :
  Forall (λ layer : Layer, _visibility c layer = false) (stack c) →
  data c = Ok [].
Proof.
  intros Hall. rewrite data_unfold, visible_layers_filter.
  by rewrite filter_none.
Qed.

(** C6.  When the registry is empty or every registered layer is hidden,
    composition returns the empty list and raises nothing, and the four
    extent calculators return [NaN]. *)
Theorem C6_empty_stack c :
  Forall (λ layer : Layer, _visibility c layer = false) (stack c) →
  data c = Ok []
  ∧ yAxisMin c = Ok NaN ∧ yAxisMax c = Ok NaN
  ∧ xAxisMin c = Ok NaN ∧ xAxisMax c = Ok NaN.
Proof.
  intros Hall. pose proof (data_no_visible_layer c Hall) as Hdata.
  unfold yAxisMin, yAxisMax, xAxisMin, xAxisMax, _flattenStack.
  rewrite Hdata. repeat split.
Qed.

Lemma visibility_by_flag `{Named A} c (x : A) :
  _visibility c x = negb (flag_read (_hiddenStacks c) (name x)).
Proof. reflexivity. Qed.

(** C3.  Composition is the composition of the registry restricted to its
    visible layers, so a hidden layer contributes to no baseline; the layers
    of the result are the visible ones: no name that reads as hidden in
    [_hiddenStacks] is among them, and a name reads as hidden once
    [hideStack] has been called for it.  [legendables] has one entry per
    registered layer, in registry order, with the layer's name, its hidden
    flag as [_hiddenStacks] gives it, and its colour. *)
Theorem C3_hidden_layers c :
  data c
  = data (set_dataProvider
            {| _stack := List.filter (_visibility c) (stack c) |} c)
  ∧ (∀ out, data c = Ok out →
       map name out = map name (List.filter (_visibility c) (stack c))
       ∧ Forall (λ l, _visibility c l = true) out
       ∧ ∀ n, flag_read (_hiddenStacks c) n = true → n ∉ map name out)
  ∧ (∀ n, flag_read (_hiddenStacks (hideStack n c)) n = true)
  ∧ length (legendables c) = length (stack c)
  ∧ (∀ i (layer : @Layer Row), stack c !! i = Some layer →
       legendables c !! i
       = Some {| lg_chart := c;
                 lg_name := layer_name layer;
                 lg_hidden := flag_read (_hiddenStacks c) (layer_name layer);
                 lg_color := getColor c layer i |}).
Proof.
  split; [|split; [|split; [|split]]].
  - rewrite !data_unfold.
    assert (visible_layers (set_dataProvider
              {| _stack := List.filter (_visibility c) (stack c) |} c)
            = visible_layers c) as Hvis.
    { rewrite !visible_layers_filter. f_equal.
      apply (filter_filter_same (_visibility c)). }
    unfold prepared. rewrite Hvis. reflexivity.
  - intros out Hout. pose proof (data_names c out Hout) as Hnames.
    assert (Forall (λ n, flag_read (_hiddenStacks c) n = false) (map name out))
      as Hall.
    { rewrite Hnames. apply Forall_fmap.
      eapply Forall_impl; [apply filter_all_pass|].
      intros x Hv. simpl in *. rewrite visibility_by_flag in Hv.
      by apply negb_true_iff in Hv. }
    split; [exact Hnames|]. split.
    + change map with (@fmap list _) in Hall.
      rewrite Forall_fmap in Hall.
      eapply Forall_impl; [exact Hall|].
      intros x Hx. simpl in Hx. rewrite visibility_by_flag. by rewrite Hx.
    + intros n Hn Hin. rewrite Forall_forall in Hall.
      apply Hall in Hin. congruence.
  - intros n. unfold hideStack; cbn. rewrite flag_read_assign.
    rewrite decide_True by done. by case_decide.
  - unfold legendables. apply length_imap.
  - intros i x Hi. unfold legendables.
    rewrite list_lookup_imap, Hi. simpl.
    rewrite visibility_by_flag. by rewrite negb_involutive.
Qed.

End Composition.

Lemma C6_empty_stack_witness :
  (Forall (λ layer : Layer, _visibility example_chart layer = false)
     (stack example_chart)
   ∧ data example_chart = Ok [] ∧ yAxisMin example_chart = Ok NaN)
  ∧ (Forall (λ layer : Layer,
       _visibility (hideStack "B" chart_AB_hidden_A) layer = false)
       (stack (hideStack "B" chart_AB_hidden_A))
     ∧ data (hideStack "B" chart_AB_hidden_A) = Ok []
     ∧ xAxisMax (hideStack "B" chart_AB_hidden_A) = Ok NaN).
Proof.
  split.
  - assert (Forall (λ layer : Layer, _visibility example_chart layer = false)
              (stack example_chart)) as Hall by constructor.
    split; [exact Hall|].
    destruct (C6_empty_stack example_chart Hall) as (H1 & H2 & _).
    by split.
  - assert (Forall (λ layer : Layer,
              _visibility (hideStack "B" chart_AB_hidden_A) layer = false)
              (stack (hideStack "B" chart_AB_hidden_A))) as Hall
      by (repeat constructor).
    split; [exact Hall|].
    destruct (C6_empty_stack _ Hall) as (H1 & _ & _ & _ & H2).
    by split.
Defined.

Lemma C3_hidden_layers_witness :
  data chart_AB_hidden_A = Ok composed_B
  ∧ (map name composed_B = ["B"]
     ∧ flag_read (_hiddenStacks chart_AB_hidden_A) "A" = true
     ∧ "A" ∉ map name composed_B)
  ∧ stack chart_AB_hidden_A !! 0%nat = Some (mkLayer group_A "A" None)
  ∧ legendables chart_AB_hidden_A !! 0%nat
    = Some {| lg_chart := chart_AB_hidden_A; lg_name := "A";
              lg_hidden := true; lg_color := tt |}.
Proof.
  assert (data chart_AB_hidden_A = Ok composed_B) as Hdata by reflexivity.
  split; [exact Hdata|]. split.
  - destruct (proj1 (proj2 (C3_hidden_layers chart_AB_hidden_A))
                composed_B Hdata) as (Hnames & _ & Habsent).
    split; [exact Hnames|]. split; [reflexivity|].
    apply Habsent. reflexivity.
  - split; [reflexivity|].
    apply (proj2 (proj2 (proj2 (proj2 (C3_hidden_layers chart_AB_hidden_A))))
             0%nat (mkLayer group_A "A" None)).
    reflexivity.
Defined.

(** ** Axis extents *)

Section Extents.

Context {Row Color : Type}.
Implicit Types (c : @Chart Row Color) (p : @Point Row).
Implicit Types (pts : list (@Point Row)) (f : @Point Row → option number).

Lemma least_of_snoc vs m v :
  least_of vs m →
  least_of (vs ++ [v])
    (match m with
     | None => Some v
     | Some cur => if cur >? v then Some v else m
     end).
Proof.
  destruct m as [cur|]; simpl.
  - intros [Hin Hle]. destruct (Z.gtb_spec cur v); simpl.
    + split; [set_solver|]. intros w [Hw|Hw]%elem_of_app.
      * specialize (Hle w Hw). lia.
      * apply list_elem_of_singleton in Hw. lia.
    + split; [set_solver|]. intros w [Hw|Hw]%elem_of_app.
      * by apply Hle.
      * apply list_elem_of_singleton in Hw. lia.
  - intros ->. simpl. split; [set_solver|].
    intros w Hw. apply list_elem_of_singleton in Hw. lia.
Qed.

Lemma greatest_of_snoc vs m v :
  greatest_of vs m →
  greatest_of (vs ++ [v])
    (match m with
     | None => Some v
     | Some cur => if cur <? v then Some v else m
     end).
Proof.
  destruct m as [cur|]; simpl.
  - intros [Hin Hle]. destruct (Z.ltb_spec cur v); simpl.
    + split; [set_solver|]. intros w [Hw|Hw]%elem_of_app.
      * specialize (Hle w Hw). lia.
      * apply list_elem_of_singleton in Hw. lia.
    + split; [set_solver|]. intros w [Hw|Hw]%elem_of_app.
      * by apply Hle.
      * apply list_elem_of_singleton in Hw. lia.
  - intros ->. simpl. split; [set_solver|].
    intros w Hw. apply list_elem_of_singleton in Hw. lia.
Qed.

(** [d3.min] returns the least of the values that are numbers. *)
Lemma d3_min_least pts f : least_of (numbers_of f pts) (d3.min pts f).
Proof.
  unfold d3.min.
  enough (∀ pre acc, least_of pre acc →
            least_of (pre ++ numbers_of f pts)
              (fold_left (λ m a,
                 match d3.comparable (f a) with
                 | None => m
                 | Some v =>
                     match m with
                     | None => Some v
                     | Some cur => if cur >? v then Some v else m
                     end
                 end) pts acc)) as H by exact (H [] None eq_refl).
  induction pts as [|p pts IH]; intros pre acc Hacc.
  - simpl. by rewrite app_nil_r.
  - unfold numbers_of in *. cbn [fold_left omap list_omap].
    destruct (d3.comparable (f p)) as [v|]; [|by apply IH].
    rewrite (cons_middle v), app_assoc. apply IH. by apply least_of_snoc.
Qed.

(** [d3.max] returns the greatest of the values that are numbers. *)
Lemma d3_max_greatest pts f : greatest_of (numbers_of f pts) (d3.max pts f).
Proof.
  unfold d3.max.
  enough (∀ pre acc, greatest_of pre acc →
            greatest_of (pre ++ numbers_of f pts)
              (fold_left (λ m a,
                 match d3.comparable (f a) with
                 | None => m
                 | Some v =>
                     match m with
                     | None => Some v
                     | Some cur => if cur <? v then Some v else m
                     end
                 end) pts acc)) as H by exact (H [] None eq_refl).
  induction pts as [|p pts IH]; intros pre acc Hacc.
  - simpl. by rewrite app_nil_r.
  - unfold numbers_of in *. cbn [fold_left omap list_omap].
    destruct (d3.comparable (f p)) as [v|]; [|by apply IH].
    rewrite (cons_middle v), app_assoc. apply IH. by apply greatest_of_snoc.
Qed.

Lemma numbers_of_pluck_x pts : numbers_of pluck_x pts = map pt_x pts.
Proof.
  induction pts as [|p pts IH]; [done|].
  unfold numbers_of in *. cbn [omap list_omap map].
  change (d3.comparable (pluck_x p)) with (Some (pt_x p)).
  by rewrite IH.
Qed.

Lemma subtract_padding m pad t :
  utils.subtract m pad t = minus_padding m pad.
Proof. by destruct m. Qed.

Lemma add_padding m pad t : utils.add m pad t = plus_padding m pad.
Proof. by destruct m. Qed.

(** C5.  After a successful composition, with [pts] the concatenation of
    the [domainValues] of the composed layers: [yAxisMin] is the least of
    [y < 0 ? y + y0 : y0] over [pts] minus the y padding, [yAxisMax] the
    greatest of [y > 0 ? y + y0 : y0] plus the y padding, [xAxisMin] the
    least [x] minus the x padding and [xAxisMax] the greatest [x] plus the
    x padding. *)
Theorem C5_axis_extents c layers :
  data c = Ok layers →
  let pts := concat (map domainValues layers) in
  (∀ p b, pt_y0 p = Some (Num b) →
     d3.comparable (lower_edge p)
     = Some (if pt_y p <? 0 then pt_y p + b else b)
     ∧ d3.comparable (upper_edge p)
       = Some (if pt_y p >? 0 then pt_y p + b else b))
  ∧ ∃ ymin ymax xmin xmax,
      least_of (numbers_of lower_edge pts) ymin
      ∧ yAxisMin c = Ok (minus_padding ymin (_yAxisPadding c))
      ∧ greatest_of (numbers_of upper_edge pts) ymax
      ∧ yAxisMax c = Ok (plus_padding ymax (_yAxisPadding c))
      ∧ least_of (map pt_x pts) xmin
      ∧ xAxisMin c = Ok (minus_padding xmin (_xAxisPadding c))
      ∧ greatest_of (map pt_x pts) xmax
      ∧ xAxisMax c = Ok (plus_padding xmax (_xAxisPadding c)).
Proof.
  intros Hdata pts. split.
  - intros p b Hb. unfold lower_edge, upper_edge. rewrite Hb.
    split; [by destruct (pt_y p <? 0)|by destruct (pt_y p >? 0)].
  - exists (d3.min pts lower_edge), (d3.max pts upper_edge),
      (d3.min pts pluck_x), (d3.max pts pluck_x).
    unfold yAxisMin, yAxisMax, xAxisMin, xAxisMax, _flattenStack.
    rewrite Hdata. simpl. fold pts.
    rewrite !subtract_padding, !add_padding.
    rewrite <- (numbers_of_pluck_x pts).
    repeat split; apply d3_min_least || apply d3_max_greatest.
Qed.

End Extents.

Lemma C5_axis_extents_witness :
  data chart_AB = Ok composed_AB
  ∧ yAxisMin chart_AB = Ok (Num 0) ∧ yAxisMax chart_AB = Ok (Num 35)
  ∧ xAxisMin chart_AB = Ok (Num 1) ∧ xAxisMax chart_AB = Ok (Num 2)
  ∧ (pt_y0 (with_offsets (Num 20, Num 35) far_point) = Some (Num 20)
     ∧ d3.comparable (upper_edge (with_offsets (Num 20, Num 35) far_point))
       = Some 21)
  ∧ ∃ ymin,
      least_of (numbers_of lower_edge (concat (map domainValues composed_AB)))
        ymin
      ∧ yAxisMin chart_AB = Ok (minus_padding ymin (_yAxisPadding chart_AB)).
Proof.
  assert (data chart_AB = Ok composed_AB) as Hdata by reflexivity.
  split; [exact Hdata|]. do 4 (split; [reflexivity|]).
  destruct (C5_axis_extents chart_AB composed_AB Hdata)
    as (Hedge & ymin & _ & _ & _ & Hmin & Hy & _).
  split.
  - split; [reflexivity|].
    apply (proj2 (Hedge (with_offsets (Num 20, Num 35) far_point) 20 eq_refl)).
  - simpl in Hmin. exists ymin. by split.
Defined.

(** ** Stacking: the columns handed to the layout *)

Section Columns.

Context {Row Color : Type}.
Implicit Types (c : @Chart Row Color) (l layer : @DataLayer Row).
Implicit Types (layers out : list (@DataLayer Row)) (v : @Point Row).

Lemma List_filter_elem_of {X : Type} (f : X → bool) (xs : list X) x :
  x ∈ List.filter f xs ↔ x ∈ xs ∧ f x = true.
Proof. rewrite !list_elem_of_In. apply filter_In. Qed.

Lemma List_filter_NoDup {X : Type} (f : X → bool) (xs : list X) :
  NoDup xs → NoDup (List.filter f xs).
Proof.
  induction 1 as [|x xs Hx _ IH]; [constructor|]. cbn [List.filter].
  destruct (f x); [|done]. constructor; [|done].
  rewrite List_filter_elem_of. tauto.
Qed.

(** [_prepareValues] leaves distinct references that point into the store. *)
Lemma prepareValues_wf c layer i : layer_wf (_prepareValues c layer i).
Proof.
  unfold layer_wf, _prepareValues; cbn. split.
  - destruct (_evadeDomainFilter c); [apply NoDup_seq|].
    apply List_filter_NoDup, NoDup_seq.
  - apply Forall_forall. intros r Hr.
    assert (r ∈ seq 0 (length (allValues c layer))) as Hseq.
    { destruct (_evadeDomainFilter c); [done|].
      by apply List_filter_elem_of in Hr as [? _]. }
    apply elem_of_seq in Hseq. lia.
Qed.

Lemma prepared_wf c l : l ∈ prepared c → layer_wf l.
Proof.
  intros (i & Hi)%list_elem_of_lookup. unfold prepared in Hi.
  rewrite list_lookup_imap in Hi.
  destruct (visible_layers c !! i) as [raw|]; [|done].
  inversion Hi; subst. apply prepareValues_wf.
Qed.

Lemma value_at_ok l k :
  layer_wf l → (k < length (dl_values l))%nat →
  ∃ r p, dl_values l !! k = Some r ∧ dl_points l !! r = Some p
         ∧ value_at l k = Ok p.
Proof.
  intros [_ Hrefs] Hk.
  destruct (lookup_lt_is_Some_2 _ _ Hk) as [r Hr].
  assert (r < length (dl_points l))%nat as Hlt.
  { by eapply (Forall_lookup_1 _ _ _ _ Hrefs). }
  destruct (lookup_lt_is_Some_2 _ _ Hlt) as [p Hp].
  exists r, p. unfold value_at. by rewrite Hr, Hp.
Qed.

Lemma value_at_throw l k :
  (length (dl_values l) ≤ k)%nat → value_at l k = Throw TypeError.
Proof.
  intros Hk. unfold value_at. by rewrite (lookup_ge_None_2 _ _ Hk).
Qed.

Lemma y_at_ok l k p : value_at l k = Ok p → y_at l k = pt_y p.
Proof. unfold y_at. by intros ->. Qed.

Lemma column_of_ok layers v i :
  (∀ l, l ∈ layers → ∃ p, value_at l i = Ok p) →
  column_of layers v i = Ok (column_fold layers i {["x" := pt_x v]}).
Proof.
  intros Hall. unfold column_of, forEach, column_fold.
  apply (forEach_from_fold _ (λ l col, <[name l := y_at l i]> col)).
  intros l j col Hl. destruct (Hall l Hl) as [p Hp].
  rewrite Hp. simpl. by rewrite (y_at_ok _ _ _ Hp).
Qed.

Lemma column_of_throw layers v i l :
  l ∈ layers → value_at l i = Throw TypeError →
  column_of layers v i = Throw TypeError.
Proof.
  intros Hl Hthrow. unfold column_of, forEach.
  apply (forEach_from_throw _ _ _ _ l Hl).
  intros j col. by rewrite Hthrow.
Qed.

Lemma column_fold_other layers i col key :
  key ∉ map name layers →
  column_fold layers i col !! key = col !! key.
Proof.
  revert col. induction layers as [|l ls IH]; intros col Hkey; [done|].
  cbn [map] in Hkey. apply not_elem_of_cons in Hkey as [Hne Hkey].
  unfold column_fold in *. cbn [foldl]. rewrite IH by done.
  by rewrite lookup_insert_ne.
Qed.

(** With distinct names no layer overwrites the entry of another. *)
Lemma column_fold_lookup layers i col l :
  NoDup (map name layers) → l ∈ layers →
  column_fold layers i col !! name l = Some (y_at l i).
Proof.
  revert col. induction layers as [|l0 ls IH]; intros col Hnd Hl.
  - by apply elem_of_nil in Hl.
  - cbn [map] in Hnd. apply NoDup_cons in Hnd as [Hfresh Hnd].
    unfold column_fold in *. cbn [foldl].
    apply elem_of_cons in Hl as [->|Hl]; [|by apply IH].
    fold (column_fold ls i (<[name l0:=y_at l0 i]> col)).
    rewrite column_fold_other by done. by rewrite lookup_insert_eq.
Qed.

(** Every key of the layout input is present in every column. *)
Lemma column_fold_is_Some layers i col key :
  key ∈ map name layers → is_Some (column_fold layers i col !! key).
Proof.
  revert col. induction layers as [|l0 ls IH]; intros col Hkey.
  - by apply elem_of_nil in Hkey.
  - unfold column_fold in *. cbn [foldl].
    destruct (decide (key ∈ map name ls)) as [Hin|Hout]; [by apply IH|].
    fold (column_fold ls i (<[name l0:=y_at l0 i]> col)).
    rewrite column_fold_other by done.
    cbn [map] in Hkey. apply elem_of_cons in Hkey as [->|Hkey]; [|done].
    rewrite lookup_insert_eq. by eexists.
Qed.

End Columns.

(** ** Stacking: the default layout *)

Section Layout.

Implicit Types (s : d3.series) (keys : list string) (data : list d3.column).

Lemma sum_below_shift (yv : nat → Z) i :
  sum_below yv (S i) = yv 0%nat + sum_below (λ j, yv (S j)) i.
Proof.
  induction i as [|i IH]; [simpl; lia|].
  change (sum_below yv (S (S i))) with (sum_below yv (S i) + yv (S i)).
  rewrite IH. simpl. lia.
Qed.

Lemma offsetNone_step_lookup s0 s1 k a b y :
  s0 !! k = Some (a, Num b) → s1 !! k = Some (Num 0, Num y) →
  d3.offsetNone_step s0 s1 !! k = Some (Num b, Num (y + b)).
Proof.
  intros H0 H1. unfold d3.offsetNone_step.
  rewrite lookup_zip_with, H0, H1. reflexivity.
Qed.

Lemma offsetNone_from_length s0 rest :
  length (d3.offsetNone_from s0 rest) = length rest.
Proof.
  revert s0. induction rest as [|s1 rest IH]; intros s0; [done|].
  simpl. by rewrite IH.
Qed.

Lemma offsetNone_from_series_length m s0 rest :
  length s0 = m → Forall (λ s, length s = m) rest →
  Forall (λ s, length s = m) (d3.offsetNone_from s0 rest).
Proof.
  revert s0. induction rest as [|s1 rest IH]; intros s0 H0 Hrest; [done|].
  apply Forall_cons in Hrest as [H1 Hrest]. simpl.
  assert (length (d3.offsetNone_step s0 s1) = m) as Hstep.
  { unfold d3.offsetNone_step. rewrite length_zip_with. lia. }
  constructor; [done|]. by apply IH.
Qed.

(** The default layout returns one series per key, each as long as the
    input. *)
Lemma stack_shape keys data :
  length (d3.stack keys data) = length keys
  ∧ Forall (λ s, length s = length data) (d3.stack keys data).
Proof.
  unfold d3.stack. destruct keys as [|key keys]; [by split|].
  cbn [map d3.offsetNone length]. split.
  - by rewrite offsetNone_from_length, length_map.
  - constructor; [by rewrite length_map|].
    apply offsetNone_from_series_length; [by rewrite length_map|].
    apply Forall_forall. intros s Hs.
    change map with (@fmap list _) in Hs.
    apply list_elem_of_fmap in Hs as (k & -> & _). by rewrite length_fmap.
Qed.

Lemma offsetNone_from_values m (base : nat → Z) (yv : nat → nat → Z) s0 rest :
  (∀ k, (k < m)%nat → ∃ a, s0 !! k = Some (a, Num (base k))) →
  (∀ i s, rest !! i = Some s →
     ∀ k, (k < m)%nat → s !! k = Some (Num 0, Num (yv i k))) →
  ∀ i s, d3.offsetNone_from s0 rest !! i = Some s →
    ∀ k, (k < m)%nat →
      s !! k = Some (Num (base k + sum_below (λ j, yv j k) i),
                     Num (base k + sum_below (λ j, yv j k) i + yv i k)).
Proof.
  revert s0 base yv.
  induction rest as [|s1 rest IH]; intros s0 base yv H0 Hrest i s Hs k Hk;
    [done|].
  simpl in Hs.
  assert (∀ k, (k < m)%nat →
            d3.offsetNone_step s0 s1 !! k
            = Some (Num (base k), Num (yv 0%nat k + base k))) as Hstep.
  { intros k' Hk'. destruct (H0 k' Hk') as [a Ha].
    eapply offsetNone_step_lookup; [exact Ha|].
    by apply (Hrest 0%nat s1). }
  destruct i as [|i]; simpl in Hs.
  - inversion Hs; subst. rewrite Hstep by done. simpl.
    do 2 f_equal; f_equal; lia.
  - rewrite (IH _ (λ k, yv 0%nat k + base k) (λ i k, yv (S i) k)
               ltac:(eauto) ltac:(intros i' s' Hs'; apply (Hrest (S i') s' Hs'))
               i s Hs k Hk).
    rewrite (sum_below_shift (λ j, yv j k) i).
    do 2 f_equal; f_equal; lia.
Qed.

(** With every key present in every column, series [i] of the default
    layout starts, at column [k], at the sum of the entries of the keys
    before [i] and ends one entry higher. *)
Lemma stack_values keys data (yv : nat → nat → Z) :
  (∀ i key k col, keys !! i = Some key → data !! k = Some col →
     col !! key = Some (yv i k)) →
  ∀ i s k, d3.stack keys data !! i = Some s → (k < length data)%nat →
    s !! k = Some (Num (sum_below (λ j, yv j k) i),
                   Num (sum_below (λ j, yv j k) i + yv i k)).
Proof.
  intros Hcols i s k Hs Hk. unfold d3.stack in Hs.
  assert (∀ i key, keys !! i = Some key → ∀ k, (k < length data)%nat →
            map (λ d, (Num 0, d3.value d key)) data !! k
            = Some (Num 0, Num (yv i k))) as Hsz.
  { intros i' key Hkey k' Hk'.
    destruct (lookup_lt_is_Some_2 _ _ Hk') as [col Hcol].
    change map with (@fmap list _). rewrite list_lookup_fmap, Hcol. simpl.
    unfold d3.value. by rewrite (Hcols i' key k' col Hkey Hcol). }
  destruct keys as [|key0 keys]; [done|].
  cbn [map d3.offsetNone] in Hs. destruct i as [|i]; simpl in Hs.
  - inversion Hs; subst. by rewrite (Hsz 0%nat key0 eq_refl k Hk).
  - assert (∀ k, (k < length data)%nat →
              ∃ a, map (λ d, (Num 0, d3.value d key0)) data !! k
                   = Some (a, Num (yv 0%nat k))) as H0.
    { intros k' Hk'. exists (Num 0). by apply (Hsz 0%nat key0). }
    assert (∀ i s,
              map (λ key, map (λ d, (Num 0, d3.value d key)) data) keys !! i
              = Some s →
              ∀ k, (k < length data)%nat →
                s !! k = Some (Num 0, Num (yv (S i) k))) as Hrest.
    { intros i' s' Hs' k' Hk'.
      change map with (@fmap list _) in Hs'.
      rewrite list_lookup_fmap in Hs'.
      destruct (keys !! i') as [key|] eqn:Hkey; [|done].
      inversion Hs'; subst. by apply (Hsz (S i') key). }
    rewrite (offsetNone_from_values (length data) (λ k, yv 0%nat k)
               (λ i k, yv (S i) k) _ _ H0 Hrest i s Hs k Hk).
    rewrite (sum_below_shift (λ j, yv j k) i).
    do 2 f_equal; f_equal; lia.
Qed.

End Layout.

(** ** Stacking: the write-back *)

Section WriteBack.

Context {Row : Type}.
Implicit Types (l layer : @DataLayer Row) (p : @Point Row).
Implicit Types (layers pre post : list (@DataLayer Row)).
Implicit Types (series : d3.series) (ys : number * number).

Lemma write_point_ok ys j layer r :
  dl_values layer !! j = Some r →
  write_point ys j layer = Ok (set_point ys j layer)
  ∧ dl_points (set_point ys j layer)
    = alter (with_offsets ys) r (dl_points layer).
Proof.
  intros Hr. unfold set_point, write_point. by rewrite Hr.
Qed.

Lemma set_point_values ys j layer :
  dl_values (set_point ys j layer) = dl_values layer.
Proof.
  unfold set_point, write_point. by destruct (dl_values layer !! j).
Qed.

Lemma write_from_values j series layer :
  dl_values (write_from j series layer) = dl_values layer.
Proof.
  revert j layer. induction series as [|ys series IH]; intros j layer; [done|].
  simpl. by rewrite IH, set_point_values.
Qed.

Lemma set_point_domainValues ys j layer :
  dl_domainValues (set_point ys j layer) = dl_domainValues layer.
Proof.
  unfold set_point, write_point. by destruct (dl_values layer !! j).
Qed.

Lemma write_from_domainValues j series layer :
  dl_domainValues (write_from j series layer) = dl_domainValues layer.
Proof.
  revert j layer. induction series as [|ys series IH]; intros j layer; [done|].
  simpl. by rewrite IH, set_point_domainValues.
Qed.

(** The inner loop on the layer at position [i]. *)
Lemma inner_loop i series j layers layer :
  layers !! i = Some layer →
  (j + length series ≤ length (dl_values layer))%nat →
  forEach_from (λ ys j (layers : list DataLayer),
    match layers !! i with
    | None => Throw TypeError
    | Some layer =>
        layer' ← write_point ys j layer;
        Ok (<[i := layer']> layers)
    end) j series layers
  = Ok (<[i := write_from j series layer]> layers).
Proof.
  revert j layers layer.
  induction series as [|ys series IH]; intros j layers layer Hi Hlen.
  - simpl. by rewrite list_insert_id.
  - cbn [forEach_from write_from]. rewrite Hi.
    cbn [length] in Hlen.
    destruct (lookup_lt_is_Some_2 (dl_values layer) j ltac:(lia)) as [r Hr].
    destruct (write_point_ok ys j layer r Hr) as [-> _]. simpl.
    rewrite (IH (S j) _ (set_point ys j layer)).
    + by rewrite list_insert_insert_eq.
    + apply list_lookup_insert_eq. by eapply lookup_lt_Some.
    + rewrite set_point_values. lia.
Qed.

(** The outer loop, started at position [length pre]. *)
Lemma outer_loop (v4result : list d3.series) pre post :
  Forall2 (λ series layer, (length series ≤ length (dl_values layer))%nat)
    v4result post →
  forEach_from (λ series i layers,
    forEach (λ ys j (layers : list DataLayer),
      match layers !! i with
      | None => Throw TypeError
      | Some layer =>
          layer' ← write_point ys j layer;
          Ok (<[i := layer']> layers)
      end) series layers) (length pre) v4result (pre ++ post)
  = Ok (pre ++ zip_with (write_from 0) v4result post).
Proof.
  intros Hall. revert pre. unfold forEach.
  induction Hall as [|series layer v4result post Hlen _ IH]; intros pre.
  - done.
  - cbn [forEach_from zip_with].
    rewrite (inner_loop (length pre) series 0 (pre ++ layer :: post) layer);
      [|by apply list_lookup_middle|simpl; lia].
    simpl. rewrite insert_app_r_alt by lia.
    rewrite Nat.sub_diag. cbn [insert list_insert].
    specialize (IH (pre ++ [write_from 0 series layer])).
    rewrite length_app in IH. cbn [length] in IH.
    rewrite Nat.add_1_r, <- !app_assoc in IH. exact IH.
Qed.

(** Given series no longer than the [values] of their layers, one series
    per layer, the write-back updates each layer with its own series. *)
Lemma write_back_zip (v4result : list d3.series) layers :
  Forall2 (λ series layer, (length series ≤ length (dl_values layer))%nat)
    v4result layers →
  write_back v4result layers = Ok (zip_with (write_from 0) v4result layers).
Proof. intros Hall. apply (outer_loop v4result [] layers Hall). Qed.

Lemma write_from_other j series layer r :
  (∀ k, (j ≤ k < j + length series)%nat → dl_values layer !! k ≠ Some r) →
  dl_points (write_from j series layer) !! r = dl_points layer !! r.
Proof.
  revert j layer. induction series as [|ys series IH]; intros j layer Hk;
    [done|].
  cbn [write_from]. rewrite IH.
  - destruct (dl_values layer !! j) as [r0|] eqn:Hr0.
    + destruct (write_point_ok ys j layer r0 Hr0) as [_ ->].
      apply list_lookup_alter_ne. intros ->.
      apply (Hk j); [simpl; lia|done].
    + unfold set_point, write_point. by rewrite Hr0.
  - intros k Hrange. rewrite set_point_values. apply Hk. simpl. lia.
Qed.

Lemma write_from_written j series layer k r ys p :
  NoDup (dl_values layer) →
  dl_values layer !! k = Some r → (j ≤ k)%nat →
  series !! (k - j)%nat = Some ys →
  dl_points layer !! r = Some p →
  dl_points (write_from j series layer) !! r = Some (with_offsets ys p).
Proof.
  revert j layer p.
  induction series as [|ys0 series IH]; intros j layer p Hnd Hr Hjk Hys Hp;
    [done|].
  cbn [write_from].
  destruct (decide (k = j)) as [->|Hne].
  - rewrite Nat.sub_diag in Hys. inversion Hys; subst.
    rewrite write_from_other.
    + destruct (write_point_ok ys j layer r Hr) as [_ ->].
      by rewrite list_lookup_alter_eq, Hp.
    + intros k' Hrange. rewrite set_point_values. intros Hr'.
      pose proof (NoDup_lookup _ _ _ _ Hnd Hr Hr'). lia.
  - apply (IH (S j)).
    + by rewrite set_point_values.
    + by rewrite set_point_values.
    + lia.
    + replace (k - j)%nat with (S (k - S j)) in Hys by lia. done.
    + destruct (lookup_lt_is_Some_2 (dl_values layer) j) as [r0 Hr0].
      { apply lookup_lt_Some in Hr. lia. }
      destruct (write_point_ok ys0 j layer r0 Hr0) as [_ ->].
      rewrite list_lookup_alter_ne; [done|]. intros ->.
      pose proof (NoDup_lookup _ _ _ _ Hnd Hr Hr0). lia.
Qed.

Lemma value_at_inv l k p :
  value_at l k = Ok p →
  ∃ r, dl_values l !! k = Some r ∧ dl_points l !! r = Some p.
Proof.
  unfold value_at. destruct (dl_values l !! k) as [r|]; [|done].
  destruct (dl_points l !! r) as [q|] eqn:Hq; [|done].
  inversion 1; subst. by exists r.
Qed.

(** What the write-back leaves at index [k] of [values]: the point with
    the pair of the series when the series reaches [k], the point as it was
    otherwise. *)
Lemma value_at_write_from series l k p :
  NoDup (dl_values l) → value_at l k = Ok p →
  value_at (write_from 0 series l) k
  = Ok (match series !! k with
        | Some ys => with_offsets ys p
        | None => p
        end).
Proof.
  intros Hnd (r & Hr & Hp)%value_at_inv.
  unfold value_at. rewrite write_from_values, Hr.
  destruct (series !! k) as [ys|] eqn:Hys.
  - rewrite (write_from_written 0 series l k r ys p); try done; [lia|].
    by rewrite Nat.sub_0_r.
  - rewrite write_from_other; [by rewrite Hp|].
    intros k' Hrange Hr'.
    pose proof (NoDup_lookup _ _ _ _ Hnd Hr Hr').
    apply lookup_ge_None in Hys. lia.
Qed.

End WriteBack.

(** ** Stacking: the composition pass with the default layout *)

Section Stacking.

Context {Row Color : Type}.
Implicit Types (c : @Chart Row Color) (l layer : @DataLayer Row).
Implicit Types (layers out : list (@DataLayer Row)) (p : @Point Row).

Lemma prepared_unstacked c l k p :
  l ∈ prepared c → value_at l k = Ok p →
  pt_y0 p = None ∧ pt_y1 p = None.
Proof.
  intros (i & Hi)%list_elem_of_lookup (r & _ & Hp)%value_at_inv.
  unfold prepared in Hi. rewrite list_lookup_imap in Hi.
  destruct (visible_layers c !! i) as [raw|]; [|done].
  inversion Hi; subst. cbn in Hp. unfold allValues in Hp.
  rewrite list_lookup_imap in Hp.
  destruct (dl_rawData raw !! r); [|done]. by inversion Hp.
Qed.

(** The pass with the default layout, when no visible layer has fewer
    points than the first: the columns are built, the layout is applied,
    and every layer is updated with its series. *)
Lemma data_default_layout c layer0 :
  _stackLayout c = d3.stack →
  prepared c !! 0%nat = Some layer0 →
  Forall (λ l, (length (dl_values layer0) ≤ length (dl_values l))%nat)
    (prepared c) →
  ∃ cols,
    length cols = length (dl_values layer0)
    ∧ (∀ k col, cols !! k = Some col →
         ∃ col0, col = column_fold (prepared c) k col0)
    ∧ data c
      = Ok (zip_with (write_from 0)
              (d3.stack (map name (prepared c)) cols) (prepared c)).
Proof.
  intros Hlayout H0 Hlen.
  assert (layer_wf layer0) as Hwf0.
  { apply (prepared_wf c). by eapply list_elem_of_lookup_2. }
  assert (∀ k r, dl_values layer0 !! k = Some r →
            match dl_points layer0 !! r with
            | None => Throw TypeError
            | Some v => column_of (prepared c) v k
            end
            = Ok (column_fold (prepared c) k
                    {["x" := from_option pt_x 0 (dl_points layer0 !! r)]}))
    as Hcol.
  { intros k r Hr.
    assert (r < length (dl_points layer0))%nat as Hlt.
    { destruct Hwf0 as [_ Hrefs]. by eapply (Forall_lookup_1 _ _ _ _ Hrefs). }
    destruct (lookup_lt_is_Some_2 _ _ Hlt) as [v ->]. simpl.
    apply column_of_ok. intros l Hl.
    destruct (value_at_ok l k) as (? & p & _ & _ & Hp); [| |by exists p].
    - by apply (prepared_wf c).
    - apply lookup_lt_Some in Hr.
      pose proof (proj1 (Forall_forall _ _) Hlen l Hl). simpl in *. lia. }
  destruct (map_from_total
    (λ r i, match dl_points layer0 !! r with
            | None => Throw TypeError
            | Some v => column_of (prepared c) v i
            end) 0 (dl_values layer0)) as [cols Hcols].
  { intros k r Hr. eexists. by apply Hcol. }
  exists cols.
  pose proof (map_from_length _ _ _ _ Hcols) as Hcols_len.
  split; [done|]. split.
  - intros k col Hk.
    destruct (lookup_lt_is_Some_2 (dl_values layer0) k) as [r Hr].
    { apply lookup_lt_Some in Hk. lia. }
    destruct (map_from_lookup _ _ _ _ _ _ Hcols Hr) as (col' & Hk' & Hf).
    rewrite Hk in Hk'. inversion Hk'; subst col'.
    simpl in Hf. rewrite (Hcol k r Hr) in Hf. inversion Hf. by eexists.
  - rewrite data_unfold.
    assert ((length (visible_layers c) =? 0)%nat = false) as ->.
    { apply Nat.eqb_neq. rewrite <- prepared_length.
      apply lookup_lt_Some in H0. lia. }
    rewrite H0. unfold map_result. rewrite Hcols. simpl. rewrite Hlayout.
    apply write_back_zip.
    destruct (stack_shape (map name (prepared c)) cols) as [Hn Hm].
    apply Forall2_same_length_lookup_2.
    { by rewrite Hn, length_map. }
    intros i series l Hseries Hl.
    pose proof (proj1 (Forall_forall _ _) Hm series
                  (list_elem_of_lookup_2 _ _ _ Hseries)) as Hs.
    pose proof (proj1 (Forall_forall _ _) Hlen l
                  (list_elem_of_lookup_2 _ _ _ Hl)) as Hl'.
    simpl in *. lia.
Qed.

Lemma foldr_add_acc {X : Type} (f : X → Z) (xs : list X) (b : Z) :
  foldr (λ x acc, f x + acc) b xs = foldr (λ x acc, f x + acc) 0 xs + b.
Proof. induction xs as [|x xs IH]; simpl; [lia|]. rewrite IH. lia. Qed.

(** The baseline is the sum of the [y] of the layers before [i]. *)
Lemma baseline_sum_below out (yv : nat → Z) i k :
  (∀ j l, out !! j = Some l → y_at l k = yv j) →
  (i ≤ length out)%nat →
  baseline out i k = sum_below yv i.
Proof.
  intros Hyv. unfold baseline. induction i as [|i IH]; intros Hi; [done|].
  destruct (lookup_lt_is_Some_2 out i ltac:(lia)) as [l Hl].
  rewrite (take_S_r _ _ _ Hl), foldr_app. simpl.
  rewrite foldr_add_acc, IH by lia. rewrite (Hyv i l Hl). lia.
Qed.

(** C1 (as amended).  With the default layout, at least one visible layer,
    pairwise distinct names among the visible layers and equally many
    points in the [values] of each of them, the pass succeeds, keeps every
    layer's [values], and at every index [k] of the [values] of the layer at
    position [i] it leaves [y0] equal to the sum of the [y] at [k] of the
    layers before [i] and [y1] equal to [y0] plus the layer's own [y]; for
    the first layer [y0] is [0]. *)
Theorem C1_cumulative_offsets c m :
  _stackLayout c = d3.stack →
  prepared c ≠ [] →
  NoDup (map name (prepared c)) →
  Forall (λ l, length (dl_values l) = m) (prepared c) →
  ∃ out,
    data c = Ok out
    ∧ map dl_values out = map dl_values (prepared c)
    ∧ (∀ i l k, out !! i = Some l → (k < length (dl_values l))%nat →
         ∃ p, value_at l k = Ok p
              ∧ pt_y0 p = Some (Num (baseline out i k))
              ∧ pt_y1 p = Some (Num (baseline out i k + pt_y p)))
    ∧ (∀ l k, out !! 0%nat = Some l → (k < length (dl_values l))%nat →
         ∃ p, value_at l k = Ok p ∧ pt_y0 p = Some (Num 0)).
Proof.
  intros Hlayout Hne Hnd Hlen.
  destruct (prepared c) as [|layer0 ls] eqn:Hprep; [done|]. clear Hne.
  rewrite <- Hprep in *.
  assert (prepared c !! 0%nat = Some layer0) as H0 by (by rewrite Hprep).
  assert (∀ l, l ∈ prepared c → length (dl_values l) = m) as Hlen'.
  { by apply Forall_forall. }
  assert (length (dl_values layer0) = m) as Hm.
  { apply Hlen'. by eapply list_elem_of_lookup_2. }
  destruct (data_default_layout c layer0 Hlayout H0)
    as (cols & Hcols_len & Hcols & Hdata).
  { apply Forall_forall. intros l Hl. rewrite (Hlen' l Hl). lia. }
  set (series := d3.stack (map name (prepared c)) cols) in *.
  set (out := zip_with (write_from 0) series (prepared c)) in *.
  destruct (stack_shape (map name (prepared c)) cols) as [Hn Hser_len].
  fold series in Hn, Hser_len. rewrite length_map in Hn.
  (* the y of layer j at index k, before and after the pass *)
  set (yv := λ (j k : nat), from_option (λ l, y_at l k) 0 (prepared c !! j)).
  assert (∀ i l, out !! i = Some l →
            ∃ s l0, series !! i = Some s ∧ length s = m
                    ∧ prepared c !! i = Some l0 ∧ l = write_from 0 s l0)
    as Hout.
  { intros i l Hl. unfold out in Hl.
    apply lookup_zip_with_Some in Hl as (s & l0 & -> & Hs & Hl0).
    exists s, l0. repeat split; try done.
    rewrite <- Hm, <- Hcols_len.
    apply (proj1 (Forall_forall _ _) Hser_len).
    by eapply list_elem_of_lookup_2. }
  assert (∀ i l k, out !! i = Some l → (k < m)%nat →
            ∃ p ys, value_at l k = Ok (with_offsets ys p)
                    ∧ pt_y p = yv i k
                    ∧ ys = (Num (sum_below (λ j, yv j k) i),
                            Num (sum_below (λ j, yv j k) i + yv i k)))
    as Hpoint.
  { intros i l k Hl Hk.
    destruct (Hout i l Hl) as (s & l0 & Hs & Hs_len & Hl0 & ->).
    pose proof (list_elem_of_lookup_2 _ _ _ Hl0) as Hin.
    pose proof (prepared_wf c l0 Hin) as Hwf.
    destruct (value_at_ok l0 k Hwf) as (r & p & _ & _ & Hp).
    { rewrite (Hlen' l0 Hin). lia. }
    destruct (lookup_lt_is_Some_2 s k ltac:(lia)) as [ys Hys].
    exists p, ys. split; [|split].
    - rewrite (value_at_write_from s l0 k p (proj1 Hwf) Hp). by rewrite Hys.
    - unfold yv. rewrite Hl0. simpl. symmetry. by apply y_at_ok.
    - pose proof (stack_values (map name (prepared c)) cols yv) as Hvals.
      fold series in Hvals. rewrite (Hvals) with (i := i) (s := s) in Hys;
        [by inversion Hys| |done|lia].
      intros i' key k' col Hkey Hcol.
      change map with (@fmap list _) in Hkey.
      rewrite list_lookup_fmap in Hkey.
      destruct (prepared c !! i') as [l'|] eqn:Hl'; [|done].
      inversion Hkey; subst key.
      destruct (Hcols k' col Hcol) as [col0 ->].
      unfold yv. rewrite Hl'. simpl.
      apply column_fold_lookup; [done|]. by eapply list_elem_of_lookup_2. }
  assert (∀ i l k, out !! i = Some l → (k < m)%nat →
            ∃ p, value_at l k = Ok p
                 ∧ pt_y0 p = Some (Num (baseline out i k))
                 ∧ pt_y1 p = Some (Num (baseline out i k + pt_y p)))
    as Hmain.
  { intros i l k Hl Hk.
    destruct (Hpoint i l k Hl Hk) as (p & ys & Hp & Hy & ->).
    exists (with_offsets
              (Num (sum_below (λ j, yv j k) i),
               Num (sum_below (λ j, yv j k) i + yv i k)) p).
    split; [done|].
    rewrite (baseline_sum_below out (λ j, yv j k) i k).
    - simpl. by rewrite Hy.
    - intros j l' Hl'.
      destruct (Hpoint j l' k Hl' Hk) as (p' & ys' & Hp' & Hy' & _).
      rewrite (y_at_ok _ _ _ Hp'). done.
    - apply lookup_lt_Some in Hl. lia. }
  assert (∀ i l, out !! i = Some l → length (dl_values l) = m) as Hout_len.
  { intros i l Hl. destruct (Hout i l Hl) as (s & l0 & _ & _ & Hl0 & ->).
    rewrite write_from_values. apply Hlen'. by eapply list_elem_of_lookup_2. }
  exists out. split; [exact Hdata|]. split; [|split].
  - apply list_eq. intros i. change map with (@fmap list _).
    rewrite !list_lookup_fmap. unfold out. rewrite lookup_zip_with.
    destruct (prepared c !! i) as [l0|] eqn:Hl0.
    + destruct (lookup_lt_is_Some_2 series i) as [s ->].
      { apply lookup_lt_Some in Hl0. lia. }
      simpl. by rewrite write_from_values.
    + by destruct (series !! i).
  - intros i l k Hl Hk. apply (Hmain i l k Hl).
    by rewrite (Hout_len i l Hl) in Hk.
  - intros l k Hl Hk.
    destruct (Hmain 0%nat l k Hl) as (p & Hp & Hy0 & _).
    { by rewrite (Hout_len 0%nat l Hl) in Hk. }
    by exists p.
Qed.

(** The series of the default layout at a column below the length of the
    first layer: a pair of numbers; with pairwise distinct names, the sum of
    the [y] at that index of the layers before, and that sum plus the [y]
    of the layer itself. *)
Lemma default_series_at c cols i s k :
  (∀ k col, cols !! k = Some col →
     ∃ col0, col = column_fold (prepared c) k col0) →
  d3.stack (map name (prepared c)) cols !! i = Some s →
  (k < length cols)%nat →
  (∃ a b, s !! k = Some (Num a, Num b))
  ∧ (NoDup (map name (prepared c)) →
     s !! k = Some (Num (column_sum c i k),
                    Num (column_sum c i k + prepared_y c i k))).
Proof.
  intros Hcols Hs Hk. split.
  - set (yv := λ (i k : nat),
         default 0 (col ← cols !! k;
                    key ← map name (prepared c) !! i;
                    col !! key)).
    rewrite (stack_values (map name (prepared c)) cols yv) with (i := i) (s := s);
      [by eexists _, _| |done|done].
    intros i' key k' col Hkey Hcol. unfold yv. rewrite Hcol, Hkey. simpl.
    destruct (Hcols k' col Hcol) as [col0 ->].
    destruct (column_fold_is_Some (prepared c) k' col0 key) as [v Hv].
    { by eapply list_elem_of_lookup_2. }
    by rewrite Hv.
  - intros Hnd. unfold column_sum.
    rewrite (stack_values (map name (prepared c)) cols (prepared_y c))
      with (i := i) (s := s); [done| |done|done].
    intros i' key k' col Hkey Hcol.
    change map with (@fmap list _) in Hkey.
    rewrite list_lookup_fmap in Hkey.
    destruct (prepared c !! i') as [l'|] eqn:Hl'; [|done].
    inversion Hkey; subst key.
    destruct (Hcols k' col Hcol) as [col0 ->].
    unfold prepared_y. rewrite Hl'. simpl.
    apply column_fold_lookup; [done|]. by eapply list_elem_of_lookup_2.
Qed.

(** C2 (as amended).  A difference in the number of points is not detected
    as such.  When some visible layer has fewer points than the first, the
    pass raises the error of reading a property of [undefined], whatever
    the layout.  When no visible layer has fewer points than the first, the
    pass with the default layout raises nothing and layers are zipped by
    index with the first: every point at an index below the length of the
    first layer receives a number as [y0] and as [y1], which with pairwise
    distinct names are the sum of the [y] at that index of the layers
    before and that sum plus the point's own [y]; the points past the
    length of the first layer are left without [y0] and [y1]. *)
Theorem C2_length_mismatch c layer0 :
  prepared c !! 0%nat = Some layer0 →
  (∀ l, l ∈ prepared c →
     (length (dl_values l) < length (dl_values layer0))%nat →
     data c = Throw TypeError)
  ∧ (_stackLayout c = d3.stack →
     Forall (λ l, (length (dl_values layer0) ≤ length (dl_values l))%nat)
       (prepared c) →
     ∃ out,
       data c = Ok out
       ∧ map dl_values out = map dl_values (prepared c)
       ∧ (∀ i l k, out !! i = Some l →
            (k < length (dl_values layer0))%nat →
            ∃ p a b, value_at l k = Ok p
                     ∧ pt_y0 p = Some (Num a) ∧ pt_y1 p = Some (Num b)
                     ∧ (NoDup (map name (prepared c)) →
                        a = column_sum c i k ∧ b = column_sum c i k + pt_y p))
       ∧ (∀ i l k p, out !! i = Some l →
            (length (dl_values layer0) ≤ k)%nat →
            value_at l k = Ok p →
            pt_y0 p = None ∧ pt_y1 p = None)).
Proof.
  intros H0. split.
  - intros l Hl Hshort. rewrite data_unfold.
    assert ((length (visible_layers c) =? 0)%nat = false) as ->.
    { apply Nat.eqb_neq. rewrite <- prepared_length.
      apply lookup_lt_Some in H0. lia. }
    rewrite H0.
    destruct (lookup_lt_is_Some_2 (dl_values layer0) (length (dl_values l))
                Hshort) as [r Hr].
    unfold map_result.
    rewrite (map_from_throw _ 0 _ (length (dl_values l)) r Hr); [done|].
    simpl. destruct (dl_points layer0 !! r) as [v|]; [|done].
    apply (column_of_throw _ _ _ l Hl). by apply value_at_throw.
  - intros Hlayout Hlen.
    destruct (data_default_layout c layer0 Hlayout H0 Hlen)
      as (cols & Hcols_len & Hcols & Hdata).
    destruct (stack_shape (map name (prepared c)) cols) as [Hn Hser_len].
    rewrite length_map in Hn.
    eexists. split; [exact Hdata|]. split; [|split].
    + apply list_eq. intros i. change map with (@fmap list _).
      rewrite !list_lookup_fmap, lookup_zip_with.
      destruct (prepared c !! i) as [l0|] eqn:Hl0.
      * destruct (lookup_lt_is_Some_2
                    (d3.stack (name <$> prepared c) cols) i) as [s ->].
        { apply lookup_lt_Some in Hl0.
          change (@fmap list _) with map. lia. }
        simpl. by rewrite write_from_values.
      * by destruct (d3.stack (name <$> prepared c) cols !! i).
    + intros i l k Hl Hk.
      apply lookup_zip_with_Some in Hl as (s & l0 & -> & Hs & Hl0).
      pose proof (list_elem_of_lookup_2 _ _ _ Hl0) as Hin.
      pose proof (prepared_wf c l0 Hin) as Hwf.
      destruct (value_at_ok l0 k Hwf) as (_ & p0 & _ & _ & Hp0).
      { pose proof (proj1 (Forall_forall _ _) Hlen l0 Hin). simpl in *. lia. }
      destruct (default_series_at c cols i s k Hcols Hs ltac:(lia))
        as [(a & b & Hab) Hsum].
      exists (with_offsets (Num a, Num b) p0), a, b.
      split; [|split; [done|split; [done|]]].
      * rewrite (value_at_write_from s l0 k p0 (proj1 Hwf) Hp0).
        by rewrite Hab.
      * intros Hnd. rewrite (Hsum Hnd) in Hab. inversion Hab; subst a b.
        split; [done|]. simpl. f_equal.
        unfold prepared_y. rewrite Hl0. simpl. by apply y_at_ok.
    + intros i l k p Hl Hk Hp.
      apply lookup_zip_with_Some in Hl as (s & l0 & -> & Hs & Hl0).
      pose proof (list_elem_of_lookup_2 _ _ _ Hl0) as Hin.
      pose proof (prepared_wf c l0 Hin) as Hwf.
      destruct (value_at_inv _ _ _ Hp) as (r & Hr & _).
      rewrite write_from_values in Hr.
      destruct (value_at_ok l0 k Hwf) as (_ & p0 & _ & _ & Hp0).
      { by eapply lookup_lt_Some. }
      rewrite (value_at_write_from s l0 k p0 (proj1 Hwf) Hp0) in Hp.
      assert (s !! k = None) as Hnone.
      { apply lookup_ge_None.
        pose proof (proj1 (Forall_forall _ _) Hser_len s
                      (list_elem_of_lookup_2 _ _ _ Hs)) as Hs_len.
        simpl in Hs_len. lia. }
      rewrite Hnone in Hp. inversion Hp; subst p0.
      by apply (prepared_unstacked c l0 k p).
Qed.

End Stacking.

Lemma C1_cumulative_offsets_witness :
  _stackLayout chart_AB = d3.stack
  ∧ prepared chart_AB ≠ []
  ∧ NoDup (map name (prepared chart_AB))
  ∧ Forall (λ l, length (dl_values l) = 2%nat) (prepared chart_AB)
  ∧ ∃ out,
      data chart_AB = Ok out
      ∧ map dl_values out = map dl_values (prepared chart_AB)
      ∧ (∀ i l k, out !! i = Some l → (k < length (dl_values l))%nat →
           ∃ p, value_at l k = Ok p
                ∧ pt_y0 p = Some (Num (baseline out i k))
                ∧ pt_y1 p = Some (Num (baseline out i k + pt_y p)))
      ∧ (∀ l k, out !! 0%nat = Some l → (k < length (dl_values l))%nat →
           ∃ p, value_at l k = Ok p ∧ pt_y0 p = Some (Num 0)).
Proof.
  assert (NoDup (map name (prepared chart_AB))) as Hnd.
  { change (NoDup ["A"; "B"]). apply NoDup_cons. split.
    - intros H. apply list_elem_of_singleton in H. discriminate H.
    - apply NoDup_singleton. }
  assert (Forall (λ l, length (dl_values l) = 2%nat) (prepared chart_AB))
    as Hlen by (repeat constructor).
  split; [reflexivity|]. split; [discriminate|].
  split; [exact Hnd|]. split; [exact Hlen|].
  apply (C1_cumulative_offsets chart_AB 2);
    [reflexivity|discriminate|exact Hnd|exact Hlen].
Defined.

(** Two visible layers named ["A"], with [y] 10 and 5 at the first key:
    the first layer ends at [y1 = 5], which is not [y0 + y = 10], and the
    second starts at [y0 = 5], which is not the [y] of the layer before it.
    A first layer of two points followed by a layer of three: the third
    point of the second layer receives no [y0] at all. *)
Lemma C1_cumulative_offsets_counterexample :
  stacked_point chart_AA 0 0
  = Some {| pt_x := 1; pt_y := 10; pt_data := (1, 10); pt_name := "A";
            pt_y0 := Some (Num 0); pt_y1 := Some (Num 5) |}
  ∧ stacked_point chart_AA 1 0
    = Some {| pt_x := 1; pt_y := 5; pt_data := (1, 5); pt_name := "A";
              pt_y0 := Some (Num 5); pt_y1 := Some (Num 10) |}
  ∧ stacked_point chart_AC 1 2
    = Some {| pt_x := 3; pt_y := 7; pt_data := (3, 7); pt_name := "C";
              pt_y0 := None; pt_y1 := None |}.
Proof. repeat split; reflexivity. Qed.

Lemma C2_length_mismatch_witness :
  (prepared chart_CA !! 0%nat = Some (prepared_layer chart_CA group_C "C" 0)
   ∧ prepared_layer chart_CA group_A "A" 1 ∈ prepared chart_CA
   ∧ (length (dl_values (prepared_layer chart_CA group_A "A" 1))
      < length (dl_values (prepared_layer chart_CA group_C "C" 0)))%nat
   ∧ data chart_CA = Throw TypeError)
  ∧ (prepared chart_AC !! 0%nat = Some (prepared_layer chart_AC group_A "A" 0)
     ∧ _stackLayout chart_AC = d3.stack
     ∧ Forall (λ l,
         (length (dl_values (prepared_layer chart_AC group_A "A" 0))
          ≤ length (dl_values l))%nat) (prepared chart_AC)
     ∧ NoDup (map name (prepared chart_AC))
     ∧ ∃ out l,
         data chart_AC = Ok out
         ∧ out !! 1%nat = Some l
         ∧ (1 < length (dl_values (prepared_layer chart_AC group_A "A" 0)))%nat
         ∧ (∃ p, value_at l 1 = Ok p
                 ∧ pt_y0 p = Some (Num (column_sum chart_AC 1 1))
                 ∧ pt_y1 p = Some (Num (column_sum chart_AC 1 1 + pt_y p)))
         ∧ (length (dl_values (prepared_layer chart_AC group_A "A" 0)) ≤ 2)%nat
         ∧ ∃ q, value_at l 2 = Ok q ∧ pt_y0 q = None ∧ pt_y1 q = None).
Proof.
  split.
  - assert (prepared_layer chart_CA group_A "A" 1 ∈ prepared chart_CA) as Hin.
    { apply (list_elem_of_lookup_2 _ 1%nat). reflexivity. }
    assert (length (dl_values (prepared_layer chart_CA group_A "A" 1))
            < length (dl_values (prepared_layer chart_CA group_C "C" 0)))%nat
      as Hshort by (simpl; lia).
    split; [reflexivity|]. split; [exact Hin|]. split; [exact Hshort|].
    exact (proj1 (C2_length_mismatch chart_CA
                    (prepared_layer chart_CA group_C "C" 0) eq_refl)
             _ Hin Hshort).
  - assert (Forall (λ l,
              (length (dl_values (prepared_layer chart_AC group_A "A" 0))
               ≤ length (dl_values l))%nat) (prepared chart_AC)) as Hlen.
    { repeat constructor. }
    assert (NoDup (map name (prepared chart_AC))) as Hnd.
    { change (NoDup ["A"; "C"]). apply NoDup_cons. split.
      - intros H. apply list_elem_of_singleton in H. discriminate H.
      - apply NoDup_singleton. }
    assert (1 < length (dl_values (prepared_layer chart_AC group_A "A" 0)))%nat
      as Hlt by (simpl; lia).
    assert (length (dl_values (prepared_layer chart_AC group_A "A" 0)) ≤ 2)%nat
      as Hge by (simpl; lia).
    split; [reflexivity|]. split; [reflexivity|]. split; [exact Hlen|].
    split; [exact Hnd|].
    destruct (proj2 (C2_length_mismatch chart_AC
                       (prepared_layer chart_AC group_A "A" 0) eq_refl)
                eq_refl Hlen) as (out & Hout & _ & Hzip & Hpast).
    assert (out = composed_AC) as ->.
    { assert (data chart_AC = Ok composed_AC) as Hc by reflexivity.
      rewrite Hc in Hout. by inversion Hout. }
    assert (∃ l, composed_AC !! 1%nat = Some l) as [l Hl] by (by eexists).
    exists composed_AC, l.
    split; [reflexivity|]. split; [exact Hl|]. split; [exact Hlt|]. split.
    + destruct (Hzip 1%nat l 1%nat Hl Hlt) as (p & a & b & Hp & Ha & Hb & Hsum).
      destruct (Hsum Hnd) as [-> ->]. by exists p.
    + split; [exact Hge|].
      assert (∃ q, value_at l 2 = Ok q) as [q Hq].
      { inversion Hl; subst l. by eexists. }
      exists q. split; [exact Hq|].
      exact (Hpast 1%nat l 2%nat q Hl Hge Hq).
Defined.

(** A first layer of two points and a second of three, both inside the
    domain: the pass returns the layers and raises nothing. *)
Lemma C2_length_mismatch_counterexample :
  map (λ l, length (dl_values l)) (prepared chart_AC) = [2; 3]%nat
  ∧ data chart_AC = Ok composed_AC.
Proof. split; reflexivity. Qed.

(** * Further properties of the mixin *)

(** ** hideStack and showStack compose by name *)

Section VisibilityAlgebra.

Context {Row Color : Type}.
Implicit Types (c : @Chart Row Color) (n m : string).

(** X1.  For one name the last call wins; calls for different names commute. *)
Theorem hide_show_compose c n m :
  hideStack n (showStack n c) = hideStack n c
  ∧ showStack n (hideStack n c) = showStack n c
  ∧ showStack n (showStack n c) = showStack n c
  ∧ (n ≠ m → hideStack n (showStack m c) = showStack m (hideStack n c))
  ∧ (n ≠ m → hideStack n (hideStack m c) = hideStack m (hideStack n c)).
Proof.
  unfold hideStack, showStack, set_hiddenStacks; cbn.
  split; [by rewrite flag_assign_twice|].
  split; [by rewrite flag_assign_twice|].
  split; [by rewrite flag_assign_twice|].
  split; intros Hne; by rewrite (flag_assign_comm _ n m).
Qed.

End VisibilityAlgebra.

Lemma hide_show_compose_witness :
  "A" ≠ "B"
  ∧ hideStack "A" (showStack "B" chart_AB)
    = showStack "B" (hideStack "A" chart_AB)
  ∧ hideStack "A" (hideStack "B" chart_AB)
    = hideStack "B" (hideStack "A" chart_AB).
Proof.
  assert ("A" ≠ "B") as Hne by discriminate.
  split; [exact Hne|].
  destruct (hide_show_compose chart_AB "A" "B") as (_ & _ & _ & H1 & H2).
  split; [exact (H1 Hne)|exact (H2 Hne)].
Defined.

(** ** Looking layers up by name and by index *)

Section Lookup.

Context {Row Color : Type}.
Implicit Types (c : @Chart Row Color) (g : @Group Row) (n : string).
Implicit Types (rest : list (arg (@Accessor Row))).

Lemma findLayerByName_Some c n layer :
  _findLayerByName n c = Some layer →
  layer ∈ stack c ∧ name layer = n.
Proof.
  unfold _findLayerByName. intros Hfind.
  apply fmap_Some in Hfind as ([i x] & Hfind & ->).
  apply list_find_Some in Hfind as (Hi & Hname & _).
  split; [by eapply list_elem_of_lookup_2|done].
Qed.

Lemma findLayerByName_None c n :
  _findLayerByName n c = None ↔ ∀ layer, layer ∈ stack c → name layer ≠ n.
Proof.
  unfold _findLayerByName. rewrite fmap_None, list_find_None, Forall_forall.
  done.
Qed.

Lemma findLayerByName_app (ls : list (@Layer Row)) new n :
  snd <$> list_find (λ layer : Layer, name layer = n) (ls ++ [new])
  = match snd <$> list_find (λ layer : Layer, name layer = n) ls with
    | Some old => Some old
    | None => if decide (name new = n) then Some new else None
    end.
Proof.
  destruct (list_find (λ layer : Layer, name layer = n) ls) as [[i old]|]
    eqn:Hfind.
  - by rewrite (list_find_app_l _ _ _ _ _ Hfind).
  - rewrite (list_find_app_r _ _ _ Hfind). simpl.
    by case_decide.
Qed.

(** X2.  A layer attached under a name that is already registered is shadowed:
    the lookup by name keeps returning the older layer.  Under a new name
    the lookup returns the layer just attached.  Lookups of other names are
    not affected. *)
Theorem findLayerByName_attach c g rest :
  ∃ new,
    stack (stack_add g rest c) = stack c ++ [new]
    ∧ layer_group new = g
    ∧ _findLayerByName (name new) (stack_add g rest c)
      = Some (default new (_findLayerByName (name new) c))
    ∧ ∀ n, n ≠ name new →
        _findLayerByName n (stack_add g rest c) = _findLayerByName n c.
Proof.
  destruct (stack_add_app c g rest) as (new & Happ & Hg & _).
  exists new. split; [done|]. split; [done|].
  unfold _findLayerByName. rewrite Happ. split.
  - rewrite findLayerByName_app.
    destruct (snd <$> list_find _ (stack c)); [done|].
    by rewrite decide_True.
  - intros n Hn. rewrite findLayerByName_app.
    destruct (snd <$> list_find _ (stack c)); [done|].
    by rewrite decide_False.
Qed.

(** X3.  [getValueAccessorByIndex] raises past the end of the registry, returns
    for a registered layer the accessor with which [_prepareValues] computes
    the [y] of its points, and is not affected, at the registered indices,
    by a later attach. *)
Theorem getValueAccessorByIndex_spec c i :
  ((length (stack c) ≤ i)%nat →
     getValueAccessorByIndex i c = Throw TypeError)
  ∧ (∀ layer, stack c !! i = Some layer →
       ∃ acc, getValueAccessorByIndex i c = Ok acc
              ∧ map pt_y (allValues c (layer_data layer))
                = imap (λ k d, acc d k) (all (layer_group layer))
              ∧ ∀ g rest,
                  getValueAccessorByIndex i (stack_add g rest c) = Ok acc).
Proof.
  unfold getValueAccessorByIndex. split.
  - intros Hi. by rewrite (lookup_ge_None_2 _ _ Hi).
  - intros layer Hi. rewrite Hi. eexists. split; [reflexivity|]. split.
    + unfold allValues. cbn. change map with (@fmap list _).
      by rewrite fmap_imap.
    + intros g rest. destruct (stack_add_app c g rest) as (new & -> & _).
      by rewrite (lookup_app_l_Some _ _ _ _ Hi).
Qed.

(** X4.  The accessor found at the index of a layer just attached through
    the chart is the function given as third argument, and the shared value
    accessor otherwise, also when a function is given as second argument:
    the chart passes its three parameters on, so the registry never takes
    the second one for the accessor, as it does when it is itself called
    with two arguments. *)
Theorem getValueAccessorByIndex_attach c g s (f f' : Accessor) :
  let i := length (stack c) in
  getValueAccessorByIndex i (stack_add g [] c) = Ok (_valueAccessor c)
  ∧ getValueAccessorByIndex i (stack_add g [AString s] c)
    = Ok (_valueAccessor c)
  ∧ getValueAccessorByIndex i (stack_add g [AFunction f] c)
    = Ok (_valueAccessor c)
  ∧ getValueAccessorByIndex i (stack_add g [AString s; AFunction f] c) = Ok f
  ∧ getValueAccessorByIndex i (stack_add g [AFunction f'; AFunction f] c)
    = Ok f
  ∧ _stack (StackedDataAdaptor_stack g [AFunction f] (_dataProvider c))
    = stack c ++ [mkLayer g (pretty (length (stack c))) (Some f)].
Proof.
  unfold getValueAccessorByIndex, stack_add, stack; cbn.
  rewrite !list_lookup_middle by done. done.
Qed.

End Lookup.

Lemma getValueAccessorByIndex_spec_witness :
  ((length (stack chart_AB) ≤ 2)%nat
   ∧ getValueAccessorByIndex 2 chart_AB = Throw TypeError)
  ∧ (stack chart_AB !! 1%nat = Some (mkLayer group_B "B" None)
     ∧ ∃ acc, getValueAccessorByIndex 1 chart_AB = Ok acc).
Proof.
  split.
  - assert (length (stack chart_AB) ≤ 2)%nat as Hlen by (simpl; lia).
    split; [exact Hlen|].
    exact (proj1 (getValueAccessorByIndex_spec chart_AB 2) Hlen).
  - split; [reflexivity|].
    destruct (proj2 (getValueAccessorByIndex_spec chart_AB 1)
                (mkLayer group_B "B" None) eq_refl) as (acc & Hacc & _).
    by exists acc.
Defined.

Lemma findLayerByName_attach_witness :
  ∃ new,
    stack (stack_add group_C [AString "A"] chart_AB)
    = stack chart_AB ++ [new]
    ∧ "B" ≠ name new
    ∧ _findLayerByName "B" (stack_add group_C [AString "A"] chart_AB)
      = _findLayerByName "B" chart_AB.
Proof.
  destruct (findLayerByName_attach chart_AB group_C [AString "A"])
    as (new & Happ & _ & _ & Hother).
  assert ("B" ≠ name new) as Hne.
  { apply app_inj_tail in Happ as [_ <-]. discriminate. }
  exists new. split; [exact Happ|]. split; [exact Hne|].
  exact (Hother "B" Hne).
Defined.

(** The layer attached second under the name ["A"] is not the one the
    lookup returns. *)
Example findLayerByName_shadowed :
  _findLayerByName "A" chart_AA = Some (mkLayer group_A "A" None).
Proof. reflexivity. Qed.

(** ** The legend: isLegendableHidden and legendToggle *)

Section Legend.

Context {Row Color : Type}.
Implicit Types (c : @Chart Row Color) (d : @Legendable Row Color).
Implicit Types (l : @Layer Row).

(** Visibility depends on the name only. *)
Lemma visibility_by_name c l l' :
  name l = name l' → _visibility c l = _visibility c l'.
Proof. unfold _visibility. by intros ->. Qed.

Lemma isLegendableHidden_registered c d l :
  l ∈ stack c → name l = lg_name d →
  isLegendableHidden d c = negb (_visibility c l).
Proof.
  intros Hl Hname. unfold isLegendableHidden.
  destruct (_findLayerByName (lg_name d) c) as [found|] eqn:Hfind.
  - apply findLayerByName_Some in Hfind as [_ Hfound].
    f_equal. apply visibility_by_name. by rewrite Hfound.
  - exfalso. by apply (proj1 (findLayerByName_None c (lg_name d)) Hfind l).
Qed.

Lemma isLegendableHidden_unregistered c d :
  (∀ l, l ∈ stack c → name l ≠ lg_name d) →
  isLegendableHidden d c = false.
Proof.
  intros Hnone. unfold isLegendableHidden.
  by rewrite (proj2 (findLayerByName_None c (lg_name d)) Hnone).
Qed.

(** X5.  For every entry that [legendables] returns, [isLegendableHidden] gives
    the entry's own [hidden] flag, also when several layers share the
    name. *)
Theorem isLegendableHidden_legendables c i d :
  legendables c !! i = Some d → isLegendableHidden d c = lg_hidden d.
Proof.
  unfold legendables. rewrite list_lookup_imap.
  destruct (stack c !! i) as [l|] eqn:Hl; [|done].
  inversion 1; subst d. simpl.
  apply (isLegendableHidden_registered c _ l); [|done].
  by eapply list_elem_of_lookup_2.
Qed.

(** X7.  With hidable stacks enabled, toggling the entry of a registered name
    other than ['__proto__'] flips the visibility of the layers of that name
    and of no other; a second toggle brings every layer back to its
    visibility.  Toggling the entry of a registered layer named
    ['__proto__'] changes nothing: the layer stays hidden. *)
Theorem legendToggle_flips c d :
  _hidableStacks c = true →
  (∃ l, l ∈ stack c ∧ name l = lg_name d) →
  (lg_name d ≠ "__proto__" →
   (∀ l, _visibility (legendToggle d c) l
         = if decide (lg_name d = name l) then negb (_visibility c l)
           else _visibility c l)
   ∧ (∀ l, _visibility (legendToggle d (legendToggle d c)) l
           = _visibility c l))
  ∧ (lg_name d = "__proto__" →
     legendToggle d c = c ∧ isLegendableHidden d c = true).
Proof.
  intros Hon (l0 & Hl0 & Hname0). split.
  - intros Hproto.
    assert (∀ c', _hidableStacks c' = true → l0 ∈ stack c' →
              ∀ l, _visibility (legendToggle d c') l
                   = if decide (lg_name d = name l)
                     then negb (_visibility c' l)
                     else _visibility c' l) as Hflip.
    { intros c' Hon' Hl0' l. unfold legendToggle. rewrite Hon'.
      rewrite (isLegendableHidden_registered c' d l0 Hl0' Hname0).
      destruct (_visibility c' l0) eqn:Hv; simpl.
      - rewrite visibility_hide. case_decide as Heq; [|done].
        rewrite (visibility_by_name c' l l0) by congruence. by rewrite Hv.
      - rewrite visibility_show. case_decide as Heq; [|done].
        rewrite (visibility_by_name c' l l0) by congruence. rewrite Hv.
        by apply bool_decide_eq_true_2. }
    split; [by apply Hflip|].
    intros l. rewrite Hflip.
    + rewrite (Hflip c Hon Hl0). case_decide; [|done].
      by rewrite negb_involutive.
    + unfold legendToggle. rewrite Hon.
      by destruct (isLegendableHidden d c).
    + unfold legendToggle. rewrite Hon.
      by destruct (isLegendableHidden d c).
  - intros Hproto.
    assert (isLegendableHidden d c = true) as Hhidden.
    { rewrite (isLegendableHidden_registered c d l0 Hl0 Hname0).
      rewrite visibility_proto; [done|congruence]. }
    split; [|done]. unfold legendToggle. rewrite Hon, Hhidden, Hproto.
    unfold showStack, flag_assign. simpl. by destruct c.
Qed.

(** X8.  With hidable stacks disabled a toggle changes nothing.  With hidable
    stacks enabled, toggling the entry of a name that no registered layer
    carries hides the name, and toggling again leaves it hidden. *)
Theorem legendToggle_edges c d :
  (_hidableStacks c = false → legendToggle d c = c)
  ∧ (_hidableStacks c = true →
     (∀ l, l ∈ stack c → name l ≠ lg_name d) →
     legendToggle d c = hideStack (lg_name d) c
     ∧ legendToggle d (legendToggle d c) = hideStack (lg_name d) c).
Proof.
  split.
  - intros Hoff. unfold legendToggle. by rewrite Hoff.
  - intros Hon Hnone.
    assert (legendToggle d c = hideStack (lg_name d) c) as Hone.
    { unfold legendToggle.
      by rewrite Hon, (isLegendableHidden_unregistered c d Hnone). }
    split; [exact Hone|]. rewrite Hone.
    unfold legendToggle. cbn [hideStack set_hiddenStacks _hidableStacks].
    rewrite Hon.
    rewrite (isLegendableHidden_unregistered (hideStack (lg_name d) c) d)
      by exact Hnone.
    unfold hideStack, set_hiddenStacks; cbn. by rewrite flag_assign_twice.
Qed.

End Legend.

Lemma isLegendableHidden_legendables_witness :
  legendables chart_AB_hidden_A !! 0%nat
  = Some {| lg_chart := chart_AB_hidden_A; lg_name := "A";
            lg_hidden := true; lg_color := tt |}
  ∧ isLegendableHidden
      {| lg_chart := chart_AB_hidden_A; lg_name := "A";
         lg_hidden := true; lg_color := tt |} chart_AB_hidden_A = true.
Proof.
  split; [reflexivity|].
  exact (isLegendableHidden_legendables chart_AB_hidden_A 0 _ eq_refl).
Defined.

Lemma legendToggle_flips_witness :
  (_hidableStacks chart_AB_hidable = true
   ∧ (∃ l : Layer, l ∈ stack chart_AB_hidable ∧ name l = lg_name legend_A)
   ∧ lg_name legend_A ≠ "__proto__"
   ∧ _visibility (legendToggle legend_A chart_AB_hidable)
       (mkLayer group_A "A" None) = false
   ∧ _visibility
       (legendToggle legend_A (legendToggle legend_A chart_AB_hidable))
       (mkLayer group_A "A" None) = true)
  ∧ (_hidableStacks chart_proto = true
     ∧ (∃ l : Layer, l ∈ stack chart_proto ∧ name l = lg_name legend_proto)
     ∧ lg_name legend_proto = "__proto__"
     ∧ legendToggle legend_proto chart_proto = chart_proto
     ∧ isLegendableHidden legend_proto chart_proto = true).
Proof.
  split.
  - assert (∃ l : Layer,
              l ∈ stack chart_AB_hidable ∧ name l = lg_name legend_A) as Hreg.
    { exists (mkLayer group_A "A" None). split; [|reflexivity].
      apply (list_elem_of_lookup_2 _ 0%nat). reflexivity. }
    assert (lg_name legend_A ≠ "__proto__") as Hne by discriminate.
    split; [reflexivity|]. split; [exact Hreg|]. split; [exact Hne|].
    destruct (proj1 (legendToggle_flips chart_AB_hidable legend_A eq_refl Hreg)
                Hne) as [Hone Htwo].
    split.
    + rewrite Hone. reflexivity.
    + rewrite Htwo. reflexivity.
  - assert (∃ l : Layer,
              l ∈ stack chart_proto ∧ name l = lg_name legend_proto) as Hreg.
    { exists (mkLayer group_A "__proto__" None). split; [|reflexivity].
      apply (list_elem_of_lookup_2 _ 0%nat). reflexivity. }
    split; [reflexivity|]. split; [exact Hreg|]. split; [reflexivity|].
    exact (proj2 (legendToggle_flips chart_proto legend_proto eq_refl Hreg)
             eq_refl).
Defined.

Lemma legendToggle_edges_witness :
  (_hidableStacks chart_AB = false ∧ legendToggle legend_A chart_AB = chart_AB)
  ∧ (_hidableStacks chart_AB_hidable = true
     ∧ (∀ l : Layer, l ∈ stack chart_AB_hidable → name l ≠ lg_name legend_Z)
     ∧ legendToggle legend_Z (legendToggle legend_Z chart_AB_hidable)
       = hideStack "Z" chart_AB_hidable).
Proof.
  split.
  - split; [reflexivity|].
    exact (proj1 (legendToggle_edges chart_AB legend_A) eq_refl).
  - assert (∀ l : Layer, l ∈ stack chart_AB_hidable → name l ≠ lg_name legend_Z)
      as Hnone.
    { intros l Hl. apply list_elem_of_lookup in Hl as [i Hi].
      destruct i as [|[|i]]; simpl in Hi; [| |done];
        inversion Hi; subst l; discriminate. }
    split; [reflexivity|]. split; [exact Hnone|].
    exact (proj2 (proj2 (legendToggle_edges chart_AB_hidable legend_Z)
                    eq_refl Hnone)).
Defined.

(** ** Titles: setting, reading, and the effect of group() *)

Section TitleRoundTrip.

Context {Row Color : Type}.
Implicit Types (c : @Chart Row Color) (f : @TitleFn Row) (s : string).
Implicit Types (ta : arg (@TitleFn Row)).

Lemma truthy_nonempty s : s ≠ "" → truthy (@AString (@TitleFn Row) s) = true.
Proof.
  intros Hs. simpl. apply negb_true_iff.
  by apply String.eqb_neq.
Qed.

(** X9.  While the prototype of [_titles] is [Object.prototype], setting the
    title of a stack whose name is neither empty, nor ['__proto__'], nor the
    group name stores it for that stack: reading the title of that stack
    returns it, the titles of the other stacks read as before, and the
    chart-wide title is not changed. *)
Theorem title_set_get c s f :
  s ≠ "" → s ≠ "__proto__" → is_groupName c s = false →
  titles_proto (_titles c) = None →
  ∃ c',
    title (AString s) (AFunction f) c = Chained c'
    ∧ _title c' = _title c
    ∧ titles_proto (_titles c') = None
    ∧ (∀ ta, is_function ta = false → title (AString s) ta c' = TitleIs f)
    ∧ (∀ s' ta, s' ≠ s → is_function ta = false →
         title (AString s') ta c' = title (AString s') ta c).
Proof.
  intros Hs Hproto Hg Hp.
  exists (set_titles {| titles_own := <[s := f]> (titles_own (_titles c));
                        titles_proto := None |} c).
  split; [|split; [done|split; [done|split]]].
  - unfold title. rewrite (truthy_nonempty s Hs). simpl. rewrite Hg.
    by rewrite titles_assign_fresh.
  - intros ta Hta. unfold title. rewrite (truthy_nonempty s Hs). simpl.
    assert (titles_read {| titles_own := <[s := f]> (titles_own (_titles c));
                           titles_proto := None |} s = IsTitle f) as Hr.
    { apply titles_read_own; [done|]. simpl. by rewrite lookup_insert_eq. }
    destruct ta; try done; cbn; by rewrite Hr.
  - intros s' ta Hs' Hta. unfold title.
    destruct (truthy (AString s')); simpl; [|done].
    assert (titles_read {| titles_own := <[s := f]> (titles_own (_titles c));
                           titles_proto := None |} s'
            = titles_read (_titles c) s') as Hr.
    { unfold titles_read. simpl. rewrite Hp.
      by rewrite lookup_insert_ne. }
    destruct ta; try done; cbn; by rewrite Hr.
Qed.


(** X11.  After [group(g, n, f)] the title of every stack whose name is not the
    name of a member of [Object.prototype] reads as the chart-wide title,
    which the call does not change: the per-stack titles set before are
    gone, and so is a prototype installed in [_titles]. *)
Theorem title_after_group c (g : @Group Row) n (a : option Accessor) s ta :
  is_function ta = false →
  title (AString s) ta (group g n a c)
  = if inherited s then InheritedMember s else TitleIs (_title c).
Proof.
  intros Hta.
  assert (_title (group g n a c) = _title c) as Htitle.
  { unfold group. by destruct a. }
  assert (_titles (group g n a c) = ∅) as Htitles.
  { unfold group. by destruct a. }
  unfold title. rewrite Htitle, Htitles.
  destruct (truthy (AString s)) eqn:Htr; simpl.
  - assert (titles_read (∅ : @TitlesObject Row) s
            = if inherited s then IsInherited s else IsUndefined) as Hr
      by by apply titles_read_absent.
    destruct ta; try done; rewrite Hr; by destruct (inherited s).
  - simpl in Htr. apply negb_false_iff, String.eqb_eq in Htr. by subst s.
Qed.

End TitleRoundTrip.

Lemma title_set_get_witness :
  "A" ≠ "" ∧ "A" ≠ "__proto__" ∧ is_groupName chart_AB "A" = false
  ∧ titles_proto (_titles chart_AB) = None
  ∧ ∃ c', title (AString "A") (AFunction title_key) chart_AB = Chained c'
          ∧ title (AString "A") AUndefined c' = TitleIs title_key
          ∧ title (AString "B") AUndefined c'
            = title (AString "B") AUndefined chart_AB.
Proof.
  assert ("A" ≠ "") as Hne by discriminate.
  assert ("A" ≠ "__proto__") as Hproto by discriminate.
  split; [exact Hne|]. split; [exact Hproto|]. split; [reflexivity|].
  split; [reflexivity|].
  destruct (title_set_get chart_AB "A" title_key Hne Hproto eq_refl eq_refl)
    as (c' & Hset & _ & _ & Hget & Hother).
  exists c'. split; [exact Hset|]. split.
  - apply Hget. reflexivity.
  - apply Hother; [discriminate|reflexivity].
Defined.


Lemma title_after_group_witness :
  ∃ c',
    title (AString "A") (AFunction title_key) chart_AB = Chained c'
    ∧ title (AString "A") AUndefined c' = TitleIs title_key
    ∧ is_function (@AUndefined (@TitleFn (Z * Z))) = false
    ∧ title (AString "A") AUndefined (group group_C AUndefined None c')
      = TitleIs (_title c').
Proof.
  exists (set_titles {| titles_own := <[ "A" := title_key ]>
                                        (titles_own (_titles chart_AB));
                        titles_proto := None |} chart_AB).
  split; [reflexivity|]. split; [reflexivity|]. split; [reflexivity|].
  apply (title_after_group _ group_C AUndefined None "A" AUndefined).
  reflexivity.
Defined.

(** ** What a composition pass leaves untouched *)

Section Frame.

Context {Row Color : Type}.
Implicit Types (c : @Chart Row Color) (l layer : @DataLayer Row).
Implicit Types (layers out : list (@DataLayer Row)) (p q : @Point Row).
Implicit Types (store : list (@Point Row)).

Lemma same_point_refl p : same_point p p.
Proof. by repeat split. Qed.

Lemma same_point_trans p q r :
  same_point p q → same_point q r → same_point p r.
Proof.
  intros (?&?&?&?) (?&?&?&?). repeat split; congruence.
Qed.

Lemma same_points_refl store : Forall2 same_point store store.
Proof. apply Forall_Forall2_diag, Forall_forall. intros. apply same_point_refl. Qed.

Lemma same_points_trans store1 store2 store3 :
  Forall2 same_point store1 store2 → Forall2 same_point store2 store3 →
  Forall2 same_point store1 store3.
Proof.
  intros H12. revert store3. induction H12 as [|p q s1 s2 Hpq _ IH];
    intros store3 H23; inversion H23; subst; constructor.
  - by eapply same_point_trans.
  - by apply IH.
Qed.

Lemma same_layer_refl l : same_layer l l.
Proof. repeat split. apply same_points_refl. Qed.

Lemma same_layer_trans l1 l2 l3 :
  same_layer l1 l2 → same_layer l2 l3 → same_layer l1 l3.
Proof.
  intros (?&?&?&?&?&H12) (?&?&?&?&?&H23).
  repeat split; try congruence. by eapply same_points_trans.
Qed.

Lemma write_point_same ys j layer layer' :
  write_point ys j layer = Ok layer' → same_layer layer layer'.
Proof.
  unfold write_point. destruct (dl_values layer !! j) as [r|]; [|done].
  inversion 1; subst. repeat split; cbn.
  apply Forall2_alter_r; [apply same_points_refl|].
  intros p q _ _ (?&?&?&?). by repeat split.
Qed.

(** Whatever the layout returns, the write-back changes nothing but [y0]
    and [y1] of points. *)
Lemma write_back_frame (v4result : list d3.series) layers out :
  write_back v4result layers = Ok out → Forall2 same_layer layers out.
Proof.
  unfold write_back, forEach.
  apply (forEach_from_invariant (λ ls, Forall2 same_layer layers ls)).
  - intros series i ls1 ls2 _ Hls1.
    apply (forEach_from_invariant (λ ls, Forall2 same_layer layers ls));
      [|done].
    intros ys j ls3 ls4 _ Hls3 Hstep.
    destruct (ls3 !! i) as [layer|] eqn:Hi; [|done].
    destruct (write_point ys j layer) as [layer'|] eqn:Hw; simpl in Hstep;
      [|done].
    inversion Hstep; subst.
    destruct (Forall2_lookup_r _ _ _ _ _ Hls3 Hi) as (l0 & Hl0 & Hsame).
    rewrite <- (list_insert_id layers i l0 Hl0).
    apply Forall2_insert; [done|].
    eapply same_layer_trans; [exact Hsame|]. by eapply write_point_same.
  - apply Forall_Forall2_diag, Forall_forall. intros. apply same_layer_refl.
Qed.

(** A successful pass returns the prepared layers, related one by one. *)
Lemma pass_frame c out :
  data c = Ok out → Forall2 same_layer (prepared c) out.
Proof.
  rewrite data_unfold.
  destruct (length (visible_layers c) =? 0)%nat eqn:Hlen.
  - inversion 1; subst. apply Nat.eqb_eq in Hlen.
    rewrite <- prepared_length in Hlen.
    destruct (prepared c); [constructor|done].
  - destruct (match prepared c !! 0%nat with
              | Some layer0 => _ | None => _ end) as [v4data|e]; [|done].
    simpl. apply write_back_frame.
Qed.

(** X12.  A successful pass, whatever the layout, returns the prepared layers in
    order with, at most, [y0] and [y1] of their points changed: names,
    accessors, rows, the arrays [values] and [domainValues], and [x], [y],
    [data] and [name] of every point are those [_prepareValues] produced. *)
Theorem data_frame c out :
  data c = Ok out →
  length out = length (prepared c)
  ∧ ∀ i l0 l, prepared c !! i = Some l0 → out !! i = Some l →
      dl_name l = dl_name l0
      ∧ dl_accessor l = dl_accessor l0
      ∧ dl_rawData l = dl_rawData l0
      ∧ dl_domainValues l = dl_domainValues l0
      ∧ dl_values l = dl_values l0
      ∧ length (dl_points l) = length (dl_points l0)
      ∧ ∀ r p0, dl_points l0 !! r = Some p0 →
          ∃ p, dl_points l !! r = Some p
               ∧ pt_x p = pt_x p0 ∧ pt_y p = pt_y p0
               ∧ pt_data p = pt_data p0 ∧ pt_name p = pt_name p0.
Proof.
  intros Hout. pose proof (pass_frame c out Hout) as Hframe.
  split; [symmetry; by eapply Forall2_length|].
  intros i l0 l Hl0 Hl.
  destruct (Forall2_lookup_lr _ _ _ _ _ _ Hframe Hl0 Hl)
    as (Hn & Ha & Hr & Hd & Hv & Hpts).
  repeat split; try done.
  - symmetry. by eapply Forall2_length.
  - intros r p0 Hp0.
    destruct (Forall2_lookup_l _ _ _ _ _ Hpts Hp0) as (p & Hp & Hx & Hy & Hdt & Hnm).
    exists p. by repeat split.
Qed.

Lemma deref_same store store' refs :
  Forall2 same_point store store' →
  Forall2 same_point (deref store refs) (deref store' refs).
Proof.
  intros Hs. unfold deref. induction refs as [|r refs IH]; [constructor|].
  cbn [omap list_omap].
  pose proof (proj1 (Forall2_lookup _ _ _) Hs r) as Hr.
  destruct Hr; [by constructor|done].
Qed.

Lemma same_layer_domainValues l l' :
  same_layer l l' → Forall2 same_point (domainValues l) (domainValues l').
Proof.
  intros (_&_&_&Hrefs&_&Hpts). unfold domainValues. rewrite <- Hrefs.
  by apply deref_same.
Qed.

Lemma same_layers_flatten layers out :
  Forall2 same_layer layers out →
  Forall2 same_point (concat (map domainValues layers))
    (concat (map domainValues out)).
Proof.
  induction 1 as [|l l' ls ls' Hl _ IH]; [constructor|].
  cbn [map concat]. apply Forall2_app; [|done].
  by apply same_layer_domainValues.
Qed.

Lemma same_points_x (pts pts' : list (@Point Row)) :
  Forall2 same_point pts pts' → map pt_x pts = map pt_x pts'.
Proof.
  induction 1 as [|p q ? ? (Hx&_) _ IH]; [done|].
  cbn [map]. by rewrite Hx, IH.
Qed.

Lemma same_points_data (pts pts' : list (@Point Row)) :
  Forall2 same_point pts pts' → map pt_data pts = map pt_data pts'.
Proof.
  induction 1 as [|p q ? ? (_&_&Hd&_) _ IH]; [done|].
  cbn [map]. by rewrite Hd, IH.
Qed.

(** The domain points of the prepared layers do not depend on the layout
    nor on the evade flag. *)
Lemma prepared_domainValues c (f : StackLayout) b :
  map domainValues (prepared (evadeDomainFilter b (stackLayout f c)))
  = map domainValues (prepared c).
Proof.
  unfold prepared.
  change (visible_layers (evadeDomainFilter b (stackLayout f c)))
    with (visible_layers c).
  generalize (visible_layers c). intros ls.
  change map with (@fmap list _). rewrite !fmap_imap.
  apply imap_ext. intros i l _. simpl.
  unfold domainValues, _prepareValues; cbn [dl_points dl_domainValues].
  rewrite !deref_filter. reflexivity.
Qed.

Lemma d3_min_pluck_x (pts pts' : list (@Point Row)) :
  map pt_x pts = map pt_x pts' → d3.min pts pluck_x = d3.min pts' pluck_x.
Proof.
  unfold d3.min. generalize (@None Z). revert pts'.
  induction pts as [|p pts IH]; intros [|q pts'] acc Hx; try done.
  cbn [map] in Hx. inversion Hx as [[Hp Hrest]].
  cbn [fold_left].
  change (pluck_x p) with (Some (Num (pt_x p))).
  change (pluck_x q) with (Some (Num (pt_x q))).
  rewrite Hp. by apply IH.
Qed.

Lemma d3_max_pluck_x (pts pts' : list (@Point Row)) :
  map pt_x pts = map pt_x pts' → d3.max pts pluck_x = d3.max pts' pluck_x.
Proof.
  unfold d3.max. generalize (@None Z). revert pts'.
  induction pts as [|p pts IH]; intros [|q pts'] acc Hx; try done.
  cbn [map] in Hx. inversion Hx as [[Hp Hrest]].
  cbn [fold_left].
  change (pluck_x p) with (Some (Num (pt_x p))).
  change (pluck_x q) with (Some (Num (pt_x q))).
  rewrite Hp. by apply IH.
Qed.

(** X13.  Replacing the layout or switching the evade flag changes neither the
    [x] of the flattened domain points nor, therefore, the x extents, as
    long as the pass succeeds before and after. *)
Theorem x_extents_independent c (f : StackLayout) b out out' :
  data c = Ok out →
  data (evadeDomainFilter b (stackLayout f c)) = Ok out' →
  map pt_x (concat (map domainValues out'))
  = map pt_x (concat (map domainValues out))
  ∧ xAxisMin (evadeDomainFilter b (stackLayout f c)) = xAxisMin c
  ∧ xAxisMax (evadeDomainFilter b (stackLayout f c)) = xAxisMax c.
Proof.
  intros Hout Hout'.
  assert (map pt_x (concat (map domainValues out'))
          = map pt_x (concat (map domainValues out))) as Hx.
  { rewrite <- (same_points_x _ _ (same_layers_flatten _ _
                                     (pass_frame _ _ Hout'))).
    rewrite <- (same_points_x _ _ (same_layers_flatten _ _
                                     (pass_frame _ _ Hout))).
    by rewrite prepared_domainValues. }
  split; [exact Hx|].
  unfold xAxisMin, xAxisMax, _flattenStack. rewrite Hout, Hout'. simpl.
  by rewrite (d3_min_pluck_x _ _ Hx), (d3_max_pluck_x _ _ Hx).
Qed.

End Frame.

Lemma data_frame_witness :
  data chart_AC = Ok composed_AC
  ∧ length composed_AC = length (prepared chart_AC).
Proof.
  assert (data chart_AC = Ok composed_AC) as Hdata by reflexivity.
  split; [exact Hdata|].
  exact (proj1 (data_frame chart_AC composed_AC Hdata)).
Defined.

Lemma x_extents_independent_witness :
  data chart_far = Ok composed_far
  ∧ data (evadeDomainFilter true (stackLayout d3.stack chart_far))
    = Ok composed_far_evade
  ∧ map (λ l, length (values l)) composed_far = [2; 2]%nat
  ∧ map (λ l, length (values l)) composed_far_evade = [3; 3]%nat
  ∧ xAxisMax (evadeDomainFilter true (stackLayout d3.stack chart_far))
    = xAxisMax chart_far.
Proof.
  split; [reflexivity|]. split; [reflexivity|].
  split; [reflexivity|]. split; [reflexivity|].
  apply (x_extents_independent chart_far d3.stack true
           composed_far composed_far_evade); reflexivity.
Defined.

(** ** Hidden names and the registry *)

Section HiddenNames.

Context {Row Color : Type}.
Implicit Types (c : @Chart Row Color) (g : @Group Row) (n s : string).
Implicit Types (rest : list (arg (@Accessor Row))).

Lemma data_visible_layers c c' :
  visible_layers c' = visible_layers c →
  _stackLayout c' = _stackLayout c →
  _evadeDomainFilter c' = _evadeDomainFilter c →
  _keyAccessor c' = _keyAccessor c →
  _valueAccessor c' = _valueAccessor c →
  _x c' = _x c → _isOrdinal c' = _isOrdinal c → _elasticX c' = _elasticX c →
  data c' = data c.
Proof.
  intros Hvis Hlay Hev Hk Hv Hx Hord Hel.
  assert (∀ l i, _prepareValues c' l i = _prepareValues c l i) as Hprep.
  { intros l i. unfold _prepareValues, allValues, _domainFilter.
    by rewrite Hev, Hk, Hv, Hx, Hord, Hel. }
  assert (prepared c' = prepared c) as Hprepared.
  { unfold prepared. rewrite Hvis. apply imap_ext. intros. apply Hprep. }
  rewrite !data_unfold, Hvis, Hprepared, Hlay. done.
Qed.


Lemma filter_ext_in {X : Type} (f f' : X → bool) (xs : list X) :
  (∀ x, x ∈ xs → f x = f' x) → List.filter f xs = List.filter f' xs.
Proof.
  induction xs as [|x xs IH]; intros Hf; [done|]. cbn [List.filter].
  rewrite (Hf x) by (by left). rewrite IH; [done|].
  intros y Hy. apply Hf. by right.
Qed.

Lemma filter_filter_and {X : Type} (f f' : X → bool) (xs : list X) :
  List.filter f (List.filter f' xs) = List.filter (λ x, f' x && f x) xs.
Proof.
  induction xs as [|x xs IH]; [done|]. cbn [List.filter].
  destruct (f' x); cbn [List.filter andb]; [|done].
  destruct (f x); by rewrite IH.
Qed.

(** X15.  Hiding a name removes from the composition exactly the layers of that
    name: the names of the result are the names that were visible before,
    without the hidden one, in the same order. *)
Theorem hideStack_removes c n out :
  data (hideStack n c) = Ok out →
  map name out
  = List.filter (λ s, negb (String.eqb s n))
      (map name (List.filter (_visibility c) (stack c))).
Proof.
  intros Hout. rewrite (data_names _ _ Hout).
  change (stack (hideStack n c)) with (stack c).
  rewrite (filter_ext_in (_visibility (hideStack n c))
             (λ l, _visibility c l && negb (String.eqb (name l) n))).
  - rewrite <- filter_filter_and.
    generalize (List.filter (_visibility c) (stack c)). intros ls.
    induction ls as [|l ls IH]; [done|]. cbn [List.filter map].
    destruct (negb (name l =? n)%string); cbn [map]; by rewrite IH.
  - intros l _. rewrite visibility_hide.
    destruct (String.eqb_spec (name l) n) as [->|Hne].
    + rewrite decide_True by done. by rewrite andb_false_r.
    + rewrite decide_False by congruence. by rewrite andb_true_r.
Qed.

End HiddenNames.


Lemma hideStack_removes_witness :
  data (hideStack "A" chart_AB) = Ok composed_B
  ∧ map name composed_B
    = List.filter (λ s, negb (String.eqb s "A"))
        (map name (List.filter (_visibility chart_AB) (stack chart_AB))).
Proof.
  split; [reflexivity|].
  apply (hideStack_removes chart_AB "A" composed_B). reflexivity.
Defined.

(** ** Edge cases of the domain filter and of the pass *)

Section PrepareEdges.

Context {Row Color : Type}.
Implicit Types (c : @Chart Row Color) (layer l : @DataLayer Row).

Lemma filter_all {X : Type} (f : X → bool) (xs : list X) :
  (∀ x, f x = true) → List.filter f xs = xs.
Proof.
  intros Hf. induction xs as [|x xs IH]; [done|]. cbn [List.filter].
  by rewrite Hf, IH.
Qed.

Lemma prepared_domainValues_filter c layer i :
  domainValues (_prepareValues c layer i)
  = List.filter (_domainFilter c) (allValues c layer).
Proof.
  unfold domainValues, _prepareValues; cbn [dl_points dl_domainValues].
  apply deref_filter.
Qed.

(** X17.  Without an x scale no point is filtered out.  With a fixed numeric
    domain that is empty, or whose first element is greater than its last
    (a descending domain), every point is filtered out. *)
Theorem domainFilter_edges c layer i :
  (_x c = None →
     domainValues (_prepareValues c layer i) = allValues c layer)
  ∧ (∀ sc, _x c = Some sc → _isOrdinal c = false → _elasticX c = false →
       domain sc = [] →
       domainValues (_prepareValues c layer i) = [])
  ∧ (∀ sc lo hi,
       _x c = Some sc → _isOrdinal c = false → _elasticX c = false →
       head (domain sc) = Some lo → last (domain sc) = Some hi → hi < lo →
       domainValues (_prepareValues c layer i) = []).
Proof.
  rewrite prepared_domainValues_filter. split; [|split].
  - intros Hx. apply filter_all. intros p. unfold _domainFilter.
    by rewrite Hx.
  - intros sc Hx Hord Hel Hdom. apply filter_none, Forall_forall.
    intros p _. unfold _domainFilter. by rewrite Hx, Hord, Hel, Hdom.
  - intros sc lo hi Hx Hord Hel Hlo Hhi Hrev.
    apply filter_none, Forall_forall. intros p _.
    rewrite (domainFilter_fixed c sc lo hi p Hx Hord Hel Hlo Hhi).
    apply bool_decide_eq_false_2. lia.
Qed.

Lemma List_filter_sublist {X : Type} (f : X → bool) (xs : list X) :
  List.filter f xs `sublist_of` xs.
Proof.
  induction xs as [|x xs IH]; [constructor|]. cbn [List.filter].
  destruct (f x); by constructor.
Qed.

Lemma imap_same {X : Type} (f : nat → X → X) (xs : list X) :
  (∀ i x, f i x = x) → imap f xs = xs.
Proof.
  revert f. induction xs as [|x xs IH]; intros f Hf; [done|].
  cbn [imap]. rewrite Hf. f_equal. apply IH. intros. apply Hf.
Qed.

Lemma prepareValues_points_aux c layer :
  map pt_data (allValues c layer) = dl_rawData layer
  ∧ Forall (λ p, pt_y0 p = None) (allValues c layer)
  ∧ Forall (λ p, pt_name p = dl_name layer ∧ pt_y1 p = None)
      (allValues c layer).
Proof.
  split; [|split].
  - unfold allValues. change map with (@fmap list _).
    rewrite fmap_imap. by apply imap_same.
  - apply Forall_forall. intros p (k & Hk)%list_elem_of_lookup.
    unfold allValues in Hk. rewrite list_lookup_imap in Hk.
    destruct (dl_rawData layer !! k); [|done]. by inversion Hk.
  - apply Forall_forall. intros p (k & Hk)%list_elem_of_lookup.
    unfold allValues in Hk. rewrite list_lookup_imap in Hk.
    destruct (dl_rawData layer !! k); [|done]. by inversion Hk.
Qed.

(** X18.  The points [_prepareValues] allocates give back the rows through their
    [data] property, carry the name of the layer and no [y0] nor [y1];
    [domainValues] is a sub-sequence of [values], and [values] a
    sub-sequence of all the points. *)
Theorem prepareValues_points c layer i :
  map pt_data (allValues c layer) = dl_rawData layer
  ∧ Forall (λ p, pt_name p = dl_name layer
                 ∧ pt_y0 p = None ∧ pt_y1 p = None) (allValues c layer)
  ∧ domainValues (_prepareValues c layer i)
      `sublist_of` values (_prepareValues c layer i)
  ∧ values (_prepareValues c layer i) `sublist_of` allValues c layer.
Proof.
  destruct (prepareValues_points_aux c layer) as (Hdata & Hy0 & Hrest).
  split; [exact Hdata|]. split; [|split].
  - apply Forall_forall. intros p Hp.
    pose proof (proj1 (Forall_forall _ _) Hy0 p Hp) as H0.
    pose proof (proj1 (Forall_forall _ _) Hrest p Hp) as [Hn H1].
    simpl in H0. by repeat split.
  - rewrite prepared_domainValues_filter.
    unfold values, _prepareValues; cbn [dl_points dl_values].
    destruct (_evadeDomainFilter c).
    + rewrite deref_seq. apply List_filter_sublist.
    + by rewrite deref_filter.
  - unfold values, _prepareValues; cbn [dl_points dl_values].
    destruct (_evadeDomainFilter c).
    + by rewrite deref_seq.
    + rewrite deref_filter. apply List_filter_sublist.
Qed.

Lemma zip_with_write_nil (series : list d3.series)
    (layers : list (@DataLayer Row)) :
  length series = length layers →
  Forall (λ s, length s = 0%nat) series →
  zip_with (write_from 0) series layers = layers.
Proof.
  revert layers. induction series as [|s series IH]; intros [|l ls] Hlen Hall;
    try done.
  apply Forall_cons in Hall as [Hs Hall].
  destruct s; [|done]. cbn [zip_with write_from]. f_equal.
  apply IH; [by inversion Hlen|done].
Qed.

Lemma all_unstacked_no_number (pts : list (@Point Row))
    (f : @Point Row → option number) :
  Forall (λ p, d3.comparable (f p) = None) pts → numbers_of f pts = [].
Proof.
  induction 1 as [|p pts Hp _ IH]; [done|].
  unfold numbers_of in *. cbn [omap list_omap]. by rewrite Hp.
Qed.

Lemma unstacked_edges (p : @Point Row) :
  pt_y0 p = None →
  d3.comparable (lower_edge p) = None ∧ d3.comparable (upper_edge p) = None.
Proof.
  intros H0. unfold lower_edge, upper_edge. rewrite H0.
  split; [by destruct (pt_y p <? 0)|by destruct (pt_y p >? 0)].
Qed.

(** X19.  When the [values] of the first visible layer are empty (no row, or no
    row inside the domain), the pass with the default layout raises nothing
    and stacks nothing, however many points the other layers have: it
    returns the prepared layers as they are, and both y extents are [NaN]. *)
Theorem first_layer_empty c layer0 :
  _stackLayout c = d3.stack →
  prepared c !! 0%nat = Some layer0 →
  dl_values layer0 = [] →
  data c = Ok (prepared c)
  ∧ yAxisMin c = Ok NaN ∧ yAxisMax c = Ok NaN.
Proof.
  intros Hlayout H0 Hempty.
  assert (data c = Ok (prepared c)) as Hdata.
  { destruct (data_default_layout c layer0 Hlayout H0)
      as (cols & Hcols_len & _ & Hdata).
    { apply Forall_forall. intros l _. rewrite Hempty. simpl. lia. }
    rewrite Hdata. f_equal.
    destruct (stack_shape (map name (prepared c)) cols) as [Hn Hm].
    apply zip_with_write_nil; [by rewrite Hn, length_map|].
    by rewrite Hcols_len, Hempty in Hm. }
  split; [exact Hdata|].
  assert (Forall (λ p : Point, pt_y0 p = None)
            (concat (map domainValues (prepared c)))) as Hnone.
  { apply Forall_concat, Forall_forall.
    intros pts Hpts. change map with (@fmap list _) in Hpts.
    apply list_elem_of_fmap in Hpts as (l & -> & Hl).
    apply list_elem_of_lookup in Hl as [i Hi]. unfold prepared in Hi.
    rewrite list_lookup_imap in Hi.
    destruct (visible_layers c !! i) as [raw|]; [|done].
    inversion Hi; subst l. rewrite prepared_domainValues_filter.
    apply Forall_forall. intros p Hp.
    apply List_filter_elem_of in Hp as [Hp _].
    apply (proj1 (Forall_forall _ _)
             (proj1 (proj2 (prepareValues_points_aux c raw))) p Hp). }
  unfold yAxisMin, yAxisMax, _flattenStack. rewrite Hdata. simpl.
  pose proof (d3_min_least (concat (map domainValues (prepared c)))
                lower_edge) as Hmin.
  pose proof (d3_max_greatest (concat (map domainValues (prepared c)))
                upper_edge) as Hmax.
  rewrite all_unstacked_no_number in Hmin, Hmax.
  - destruct (d3.min _ lower_edge) as [z|];
      [by destruct Hmin as [?%elem_of_nil _]|].
    destruct (d3.max _ upper_edge) as [z|];
      [by destruct Hmax as [?%elem_of_nil _]|]. done.
  - eapply Forall_impl; [exact Hnone|]. intros p Hp.
    by apply unstacked_edges.
  - eapply Forall_impl; [exact Hnone|]. intros p Hp.
    by apply unstacked_edges.
Qed.

End PrepareEdges.

Lemma domainFilter_edges_witness :
  (_x (chart_scaled None) = None
   ∧ domainValues (_prepareValues (chart_scaled None) raw_layer_C 0)
     = allValues (chart_scaled None) raw_layer_C)
  ∧ (_x (chart_scaled (Some (mkScale []))) = Some (mkScale [])
     ∧ domain (mkScale []) = []
     ∧ domainValues
         (_prepareValues (chart_scaled (Some (mkScale []))) raw_layer_C 0)
       = [])
  ∧ (_x (chart_scaled (Some (mkScale [3; 1]))) = Some (mkScale [3; 1])
     ∧ head (domain (mkScale [3; 1])) = Some 3
     ∧ last (domain (mkScale [3; 1])) = Some 1
     ∧ 1 < 3
     ∧ domainValues
         (_prepareValues (chart_scaled (Some (mkScale [3; 1]))) raw_layer_C 0)
       = []).
Proof.
  split; [|split].
  - split; [reflexivity|].
    exact (proj1 (domainFilter_edges (chart_scaled None) raw_layer_C 0)
             eq_refl).
  - split; [reflexivity|]. split; [reflexivity|].
    exact (proj1 (proj2 (domainFilter_edges
                           (chart_scaled (Some (mkScale []))) raw_layer_C 0))
             (mkScale []) eq_refl eq_refl eq_refl eq_refl).
  - split; [reflexivity|]. split; [reflexivity|]. split; [reflexivity|].
    assert (1 < 3) as Hrev by lia.
    split; [exact Hrev|].
    exact (proj2 (proj2 (domainFilter_edges
                           (chart_scaled (Some (mkScale [3; 1])))
                           raw_layer_C 0))
             (mkScale [3; 1]) 3 1 eq_refl eq_refl eq_refl eq_refl eq_refl
             Hrev).
Defined.

Lemma first_layer_empty_witness :
  _stackLayout chart_out_A = d3.stack
  ∧ prepared chart_out_A !! 0%nat
    = Some (prepared_layer chart_out_A group_out "out" 0)
  ∧ dl_values (prepared_layer chart_out_A group_out "out" 0) = []
  ∧ map (λ l, length (dl_values l)) (prepared chart_out_A) = [0; 2]%nat
  ∧ data chart_out_A = Ok (prepared chart_out_A)
  ∧ yAxisMin chart_out_A = Ok NaN
  ∧ yAxisMax chart_out_A = Ok NaN.
Proof.
  split; [reflexivity|]. split; [reflexivity|]. split; [reflexivity|].
  split; [reflexivity|].
  apply (first_layer_empty chart_out_A
           (prepared_layer chart_out_A group_out "out" 0)); reflexivity.
Defined.

(** ** The extents relative to each other *)

Section ExtentOrder.

Context {Row Color : Type}.
Implicit Types (c : @Chart Row Color) (p : @Point Row).
Implicit Types (pts : list (@Point Row)).

(** The lower edge of a point is at most its upper edge, and one is a
    number exactly when the other is. *)
Lemma edges_ordered p lo :
  d3.comparable (lower_edge p) = Some lo →
  ∃ hi, d3.comparable (upper_edge p) = Some hi ∧ lo ≤ hi.
Proof.
  unfold lower_edge, upper_edge.
  destruct (pt_y0 p) as [[b|]|]; simpl;
    destruct (Z.ltb_spec (pt_y p) 0), (Z.gtb_spec (pt_y p) 0); simpl;
    intros Hlo; inversion Hlo; subst; eexists; (split; [reflexivity|lia]).
Qed.

Lemma least_le_greatest (vs ws : list Z) mn mx :
  least_of vs (Some mn) → greatest_of ws (Some mx) →
  (∀ v, v ∈ vs → ∃ w, w ∈ ws ∧ v ≤ w) → mn ≤ mx.
Proof.
  intros [Hin _] [_ Hmax] Hle.
  destruct (Hle mn Hin) as (w & Hw & Hvw). specialize (Hmax w Hw). lia.
Qed.

Lemma minus_padding_Num m pad a :
  minus_padding m pad = Num a → ∃ z, m = Some z ∧ a = z - pad.
Proof. destruct m as [z|]; [|done]. inversion 1. by exists z. Qed.

Lemma plus_padding_Num m pad b :
  plus_padding m pad = Num b → ∃ z, m = Some z ∧ b = z + pad.
Proof. destruct m as [z|]; [|done]. inversion 1. by exists z. Qed.

(** X21.  With a non-negative padding an axis minimum never exceeds the axis
    maximum, whenever both are numbers. *)
Theorem extents_ordered c :
  (∀ a b, 0 ≤ _yAxisPadding c →
     yAxisMin c = Ok (Num a) → yAxisMax c = Ok (Num b) → a ≤ b)
  ∧ (∀ a b, 0 ≤ _xAxisPadding c →
       xAxisMin c = Ok (Num a) → xAxisMax c = Ok (Num b) → a ≤ b).
Proof.
  unfold yAxisMin, yAxisMax, xAxisMin, xAxisMax, _flattenStack.
  destruct (data c) as [out|e]; simpl; [|by split].
  set (pts := concat (map domainValues out)).
  rewrite !subtract_padding, !add_padding.
  split; intros a b Hpad Hmin Hmax;
    inversion Hmin as [Hmin']; inversion Hmax as [Hmax'];
    apply minus_padding_Num in Hmin' as (mn & Hmn & ->);
    apply plus_padding_Num in Hmax' as (mx & Hmx & ->).
  - pose proof (d3_min_least pts lower_edge) as Hleast.
    pose proof (d3_max_greatest pts upper_edge) as Hgreatest.
    rewrite Hmn in Hleast. rewrite Hmx in Hgreatest.
    enough (mn ≤ mx) by lia.
    apply (least_le_greatest _ _ _ _ Hleast Hgreatest).
    intros v Hv. unfold numbers_of in Hv.
    apply list_elem_of_omap in Hv as (p & Hp & Hlo).
    destruct (edges_ordered p v Hlo) as (hi & Hhi & Hle).
    exists hi. split; [|done]. unfold numbers_of.
    apply list_elem_of_omap. by exists p.
  - pose proof (d3_min_least pts pluck_x) as Hleast.
    pose proof (d3_max_greatest pts pluck_x) as Hgreatest.
    rewrite Hmn in Hleast. rewrite Hmx in Hgreatest.
    enough (mn ≤ mx) by lia.
    apply (least_le_greatest _ _ _ _ Hleast Hgreatest).
    intros v Hv. exists v. by split.
Qed.

End ExtentOrder.

Lemma extents_ordered_witness :
  0 ≤ _yAxisPadding chart_AB
  ∧ yAxisMin chart_AB = Ok (Num 0) ∧ yAxisMax chart_AB = Ok (Num 35)
  ∧ 0 ≤ 35
  ∧ 0 ≤ _xAxisPadding chart_AB
  ∧ xAxisMin chart_AB = Ok (Num 1) ∧ xAxisMax chart_AB = Ok (Num 2)
  ∧ 1 ≤ 2.
Proof.
  assert (0 ≤ _yAxisPadding chart_AB) as Hy by (simpl; lia).
  assert (0 ≤ _xAxisPadding chart_AB) as Hx by (simpl; lia).
  split; [exact Hy|]. split; [reflexivity|]. split; [reflexivity|].
  split; [exact (proj1 (extents_ordered chart_AB) 0 35 Hy eq_refl eq_refl)|].
  split; [exact Hx|]. split; [reflexivity|]. split; [reflexivity|].
  exact (proj2 (extents_ordered chart_AB) 1 2 Hx eq_refl eq_refl).
Defined.

(** ** The ordinal x domain *)

Section OrdinalDomain.

Context {Row Color : Type}.
Implicit Types (c : @Chart Row Color) (p : @Point Row).

Lemma imap_index_free {X Y : Type} (f : X → nat → Y) (xs : list X) (n : nat) :
  (∀ x i j, f x i = f x j) → imap (λ i x, f x i) xs = map (λ x, f x n) xs.
Proof.
  intros Hf. revert n.
  enough (∀ (g : nat → nat) n,
            imap (λ i x, f x (g i)) xs = map (λ x, f x n) xs) as H
    by exact (H id).
  induction xs as [|x xs IH]; intros g n; [done|].
  cbn [imap map]. f_equal; [apply Hf|]. apply (IH (g ∘ S)).
Qed.

(** The [x] of a point is the key of its row. *)
Lemma prepared_point_key c out p :
  (∀ d i j, _keyAccessor c d i = _keyAccessor c d j) →
  data c = Ok out →
  p ∈ concat (map domainValues out) →
  pt_x p = _keyAccessor c (pt_data p) 0%nat.
Proof.
  intros Hkey Hout Hp.
  pose proof (same_layers_flatten _ _ (pass_frame c out Hout)) as Hsame.
  apply list_elem_of_lookup in Hp as [i Hi].
  destruct (Forall2_lookup_r _ _ _ _ _ Hsame Hi) as (q & Hq & Hx & _ & Hd & _).
  rewrite <- Hx, <- Hd.
  apply list_elem_of_lookup_2 in Hq.
  apply list_elem_of_In, in_concat in Hq as (pts & Hpts & Hq).
  apply list_elem_of_In in Hpts, Hq.
  change map with (@fmap list _) in Hpts.
  apply list_elem_of_fmap in Hpts as (l & -> & Hl).
  apply list_elem_of_lookup in Hl as [k Hk]. unfold prepared in Hk.
  rewrite list_lookup_imap in Hk.
  destruct (visible_layers c !! k) as [raw|]; [|done].
  inversion Hk; subst l. rewrite prepared_domainValues_filter in Hq.
  apply List_filter_elem_of in Hq as [Hq _].
  apply list_elem_of_lookup in Hq as [n Hn]. unfold allValues in Hn.
  rewrite list_lookup_imap in Hn.
  destruct (dl_rawData raw !! n); [|done]. inversion Hn; subst q. simpl.
  apply Hkey.
Qed.

(** X22.  With a key accessor that does not use the index and an ordering that
    permutes the rows, the ordinal x domain is a permutation of the [x] of
    all flattened domain points: a key occurs once for every visible layer
    that has a domain point with it. *)
Theorem ordinalXDomain_keys c (order : list Row → list Row) out :
  (∀ d i j, _keyAccessor c d i = _keyAccessor c d j) →
  (∀ rows, order rows ≡ₚ rows) →
  data c = Ok out →
  ∃ xs, _ordinalXDomain order c = Ok xs
        ∧ xs ≡ₚ map pt_x (concat (map domainValues out)).
Proof.
  intros Hkey Horder Hout. eexists. split.
  - unfold _ordinalXDomain, _flattenStack. rewrite Hout. reflexivity.
  - rewrite (imap_index_free (_keyAccessor c) _ 0%nat Hkey).
    change map with (@fmap list _). rewrite (Horder _).
    rewrite <- list_fmap_compose.
    enough (((λ x : Row, _keyAccessor c x 0%nat) ∘ pt_data)
              <$> concat (domainValues <$> out)
            = pt_x <$> concat (domainValues <$> out)) as -> by done.
    apply list_fmap_ext. intros i p Hp. simpl. symmetry.
    apply (prepared_point_key c out p Hkey Hout).
    by eapply list_elem_of_lookup_2.
Qed.

End OrdinalDomain.

Lemma ordinalXDomain_keys_witness :
  (∀ (d : Z * Z) (i j : nat),
     _keyAccessor chart_AB d i = _keyAccessor chart_AB d j)
  ∧ (∀ rows : list (Z * Z), rev rows ≡ₚ rows)
  ∧ data chart_AB = Ok composed_AB
  ∧ _ordinalXDomain (@rev (Z * Z)) chart_AB = Ok [2; 1; 2; 1]
  ∧ ∃ xs, _ordinalXDomain (@rev (Z * Z)) chart_AB = Ok xs
          ∧ xs ≡ₚ map pt_x (concat (map domainValues composed_AB)).
Proof.
  assert (∀ (d : Z * Z) (i j : nat),
            _keyAccessor chart_AB d i = _keyAccessor chart_AB d j) as Hkey
    by reflexivity.
  assert (∀ rows : list (Z * Z), rev rows ≡ₚ rows) as Hperm.
  { intros rows. symmetry. apply Permutation_rev. }
  split; [exact Hkey|]. split; [exact Hperm|]. split; [reflexivity|].
  split; [reflexivity|].
  exact (ordinalXDomain_keys chart_AB (@rev (Z * Z)) composed_AB
           Hkey Hperm eq_refl).
Defined.

(** ** Stacked charts of non-negative values *)

Section StackedExtents.

Context {Row Color : Type}.
Implicit Types (c : @Chart Row Color) (l layer : @DataLayer Row).
Implicit Types (layers out : list (@DataLayer Row)) (p : @Point Row).

(** The pass with the default layout on layers of distinct names and equal
    length: the point at index [k] of layer [i] receives the sum of the
    layers before [i] and that sum plus its own [y]. *)
Lemma default_pass_point c m :
  _stackLayout c = d3.stack →
  NoDup (map name (prepared c)) →
  Forall (λ l, length (dl_values l) = m) (prepared c) →
  ∀ out, data c = Ok out →
  ∀ i l0 k p, prepared c !! i = Some l0 → value_at l0 k = Ok p →
    ∃ l, out !! i = Some l
         ∧ value_at l k
           = Ok (with_offsets (Num (column_sum c i k),
                               Num (column_sum c i k + pt_y p)) p).
Proof.
  intros Hlayout Hnd Hlen out Hout i l0 k p Hl0 Hp.
  assert (∀ l, l ∈ prepared c → length (dl_values l) = m) as Hlen'.
  { by apply Forall_forall. }
  destruct (prepared c !! 0%nat) as [layer0|] eqn:H0.
  2:{ apply lookup_ge_None in H0. apply lookup_lt_Some in Hl0. lia. }
  destruct (data_default_layout c layer0 Hlayout H0)
    as (cols & Hcols_len & Hcols & Hdata).
  { apply Forall_forall. intros l Hl. rewrite (Hlen' l Hl).
    rewrite (Hlen' layer0); [lia|]. by eapply list_elem_of_lookup_2. }
  rewrite Hdata in Hout. inversion Hout; subst out. clear Hout.
  assert (length cols = m) as Hcols_m.
  { rewrite Hcols_len. apply Hlen'. by eapply list_elem_of_lookup_2. }
  destruct (stack_shape (map name (prepared c)) cols) as [Hn Hser_len].
  rewrite length_map in Hn.
  destruct (lookup_lt_is_Some_2 (d3.stack (map name (prepared c)) cols) i)
    as [s Hs].
  { apply lookup_lt_Some in Hl0. lia. }
  pose proof (list_elem_of_lookup_2 _ _ _ Hl0) as Hin.
  pose proof (prepared_wf c l0 Hin) as Hwf.
  assert (k < m)%nat as Hk.
  { destruct (value_at_inv _ _ _ Hp) as (r & Hr & _).
    apply lookup_lt_Some in Hr. by rewrite (Hlen' l0 Hin) in Hr. }
  assert (length s = m) as Hs_len.
  { rewrite <- Hcols_m. apply (proj1 (Forall_forall _ _) Hser_len).
    by eapply list_elem_of_lookup_2. }
  exists (write_from 0 s l0). split.
  - rewrite lookup_zip_with, Hs, Hl0. done.
  - rewrite (value_at_write_from s l0 k p (proj1 Hwf) Hp).
    assert (∀ i' key k' col,
              map name (prepared c) !! i' = Some key → cols !! k' = Some col →
              col !! key = Some (prepared_y c i' k')) as Hcol_y.
    { intros i' key k' col Hkey Hcol.
      change map with (@fmap list _) in Hkey.
      rewrite list_lookup_fmap in Hkey.
      destruct (prepared c !! i') as [l'|] eqn:Hl'; [|done].
      inversion Hkey; subst key.
      destruct (Hcols k' col Hcol) as [col0 ->].
      unfold prepared_y. rewrite Hl'. simpl.
      apply column_fold_lookup; [done|]. by eapply list_elem_of_lookup_2. }
    assert (k < length cols)%nat as Hk' by lia.
    rewrite (stack_values (map name (prepared c)) cols (prepared_y c)
               Hcol_y i s k Hs Hk').
    unfold column_sum. do 4 f_equal.
    unfold prepared_y. rewrite Hl0. simpl. by rewrite (y_at_ok _ _ _ Hp).
Qed.

Lemma deref_elem_of (store : list (@Point Row)) refs p :
  p ∈ deref store refs ↔ ∃ r, r ∈ refs ∧ store !! r = Some p.
Proof. unfold deref. apply list_elem_of_omap. Qed.

Lemma prepared_domain_subset c l r :
  l ∈ prepared c → r ∈ dl_domainValues l → r ∈ dl_values l.
Proof.
  intros (i & Hi)%list_elem_of_lookup. unfold prepared in Hi.
  rewrite list_lookup_imap in Hi.
  destruct (visible_layers c !! i) as [raw|]; [|done].
  inversion Hi; subst l. unfold _prepareValues; cbn.
  destruct (_evadeDomainFilter c); [|done].
  by intros [? _]%List_filter_elem_of.
Qed.

Lemma flatten_elem_of out p :
  p ∈ concat (map domainValues out) ↔
  ∃ i l, out !! i = Some l ∧ p ∈ domainValues l.
Proof.
  rewrite list_elem_of_In, in_concat. split.
  - intros (pts & Hpts & Hp). apply in_map_iff in Hpts as (l & <- & Hl).
    apply list_elem_of_In, list_elem_of_lookup in Hl as [i Hi].
    exists i, l. by rewrite list_elem_of_In.
  - intros (i & l & Hi & Hp). exists (domainValues l). split.
    + apply in_map. by eapply list_elem_of_In, list_elem_of_lookup_2.
    + by apply list_elem_of_In.
Qed.

(** Every flattened domain point sits at some index [k] of some layer [i]
    and carries the column sum below it. *)
Lemma flattened_offsets c m out p :
  _stackLayout c = d3.stack →
  NoDup (map name (prepared c)) →
  Forall (λ l, length (dl_values l) = m) (prepared c) →
  data c = Ok out →
  p ∈ concat (map domainValues out) →
  ∃ i k, (i < length (prepared c))%nat ∧ (k < m)%nat
         ∧ pt_y0 p = Some (Num (column_sum c i k))
         ∧ pt_y p = prepared_y c i k.
Proof.
  intros Hlayout Hnd Hlen Hout (i & l & Hi & Hp)%flatten_elem_of.
  pose proof (pass_frame c out Hout) as Hframe.
  destruct (Forall2_lookup_r _ _ _ _ _ Hframe Hi)
    as (l0 & Hl0 & _ & _ & _ & Hdom & Hvals & _).
  pose proof (list_elem_of_lookup_2 _ _ _ Hl0) as Hin.
  apply deref_elem_of in Hp as (r & Hr & Hpr).
  rewrite <- Hdom in Hr.
  apply (prepared_domain_subset c l0 r Hin) in Hr.
  apply list_elem_of_lookup in Hr as [k Hk].
  assert (k < m)%nat as Hkm.
  { apply lookup_lt_Some in Hk.
    by rewrite (proj1 (Forall_forall _ _) Hlen l0 Hin) in Hk. }
  destruct (value_at_ok l0 k (prepared_wf c l0 Hin)) as (_ & p0 & _ & _ & Hp0).
  { by eapply lookup_lt_Some. }
  destruct (default_pass_point c m Hlayout Hnd Hlen out Hout i l0 k p0 Hl0 Hp0)
    as (l' & Hl' & Hval).
  rewrite Hi in Hl'. inversion Hl'; subst l'.
  unfold value_at in Hval. rewrite <- Hvals, Hk, Hpr in Hval.
  inversion Hval; subst p.
  exists i, k. split; [by eapply lookup_lt_Some|]. split; [done|].
  split; [done|]. simpl. unfold prepared_y. rewrite Hl0. simpl.
  symmetry. by apply y_at_ok.
Qed.

(** Conversely, the point at index [k] of layer [i] is among the flattened
    domain points when its reference is in [domainValues]. *)
Lemma flattened_member c m out i l0 k r :
  _stackLayout c = d3.stack →
  NoDup (map name (prepared c)) →
  Forall (λ l, length (dl_values l) = m) (prepared c) →
  data c = Ok out →
  prepared c !! i = Some l0 → dl_values l0 !! k = Some r →
  r ∈ dl_domainValues l0 →
  ∃ p, p ∈ concat (map domainValues out)
       ∧ pt_y0 p = Some (Num (column_sum c i k))
       ∧ pt_y p = prepared_y c i k.
Proof.
  intros Hlayout Hnd Hlen Hout Hl0 Hk Hr.
  pose proof (list_elem_of_lookup_2 _ _ _ Hl0) as Hin.
  destruct (value_at_ok l0 k (prepared_wf c l0 Hin)) as (_ & p0 & _ & _ & Hp0).
  { by eapply lookup_lt_Some. }
  destruct (default_pass_point c m Hlayout Hnd Hlen out Hout i l0 k p0 Hl0 Hp0)
    as (l & Hl & Hval).
  pose proof (pass_frame c out Hout) as Hframe.
  destruct (Forall2_lookup_lr _ _ _ _ _ _ Hframe Hl0 Hl)
    as (_ & _ & _ & Hdom & Hvals & _).
  destruct (value_at_inv _ _ _ Hval) as (r' & Hr' & Hpr).
  rewrite <- Hvals, Hk in Hr'. inversion Hr'; subst r'.
  exists (with_offsets (Num (column_sum c i k),
                        Num (column_sum c i k + pt_y p0)) p0).
  split; [|split; [reflexivity|]].
  - apply flatten_elem_of. exists i, l. split; [done|].
    apply deref_elem_of. exists r. split; [by rewrite <- Hdom|exact Hpr].
  - simpl. unfold prepared_y. rewrite Hl0. simpl. symmetry. by apply y_at_ok.
Qed.

Lemma prepared_y_nonneg c i k :
  Forall (λ l, Forall (λ p, 0 ≤ pt_y p) (dl_points l)) (prepared c) →
  0 ≤ prepared_y c i k.
Proof.
  intros Hall. unfold prepared_y.
  destruct (prepared c !! i) as [l|] eqn:Hl; simpl; [|lia].
  unfold y_at. destruct (value_at l k) as [p|] eqn:Hp; [|lia].
  destruct (value_at_inv _ _ _ Hp) as (r & _ & Hr).
  pose proof (proj1 (Forall_forall _ _) Hall l
                (list_elem_of_lookup_2 _ _ _ Hl)) as Hl_all.
  apply (proj1 (Forall_forall _ _) Hl_all p).
  by eapply list_elem_of_lookup_2.
Qed.

Lemma sum_below_mono (yv : nat → Z) i j :
  (∀ n, 0 ≤ yv n) → (i ≤ j)%nat → sum_below yv i ≤ sum_below yv j.
Proof.
  intros Hyv. induction 1 as [|j _ IH]; [lia|].
  simpl. specialize (Hyv j). lia.
Qed.

Lemma sum_below_nonneg (yv : nat → Z) i :
  (∀ n, 0 ≤ yv n) → 0 ≤ sum_below yv i.
Proof. intros Hyv. apply (sum_below_mono yv 0 i Hyv). lia. Qed.

Lemma data_default_ok c m :
  _stackLayout c = d3.stack →
  Forall (λ l, length (dl_values l) = m) (prepared c) →
  ∃ out, data c = Ok out.
Proof.
  intros Hlayout Hlen.
  destruct (prepared c !! 0%nat) as [layer0|] eqn:H0.
  - destruct (data_default_layout c layer0 Hlayout H0) as (? & _ & _ & Hd).
    + apply Forall_forall. intros l Hl.
      rewrite (proj1 (Forall_forall _ _) Hlen l Hl).
      rewrite (proj1 (Forall_forall _ _) Hlen layer0); [lia|].
      by eapply list_elem_of_lookup_2.
    + by eexists.
  - exists []. rewrite data_unfold.
    assert ((length (visible_layers c) =? 0)%nat = true) as ->; [|done].
    apply Nat.eqb_eq. rewrite <- prepared_length.
    apply lookup_ge_None in H0. lia.
Qed.

Lemma least_of_unique vs m1 m2 : least_of vs m1 → least_of vs m2 → m1 = m2.
Proof.
  destruct m1 as [a|], m2 as [b|]; simpl.
  - intros [Ha Hla] [Hb Hlb]. specialize (Hla b Hb). specialize (Hlb a Ha).
    f_equal. lia.
  - intros [Ha _] ->. by apply elem_of_nil in Ha.
  - intros -> [Hb _]. by apply elem_of_nil in Hb.
  - done.
Qed.

Lemma greatest_of_unique vs m1 m2 :
  greatest_of vs m1 → greatest_of vs m2 → m1 = m2.
Proof.
  destruct m1 as [a|], m2 as [b|]; simpl.
  - intros [Ha Hla] [Hb Hlb]. specialize (Hla b Hb). specialize (Hlb a Ha).
    f_equal. lia.
  - intros [Ha _] ->. by apply elem_of_nil in Ha.
  - intros -> [Hb _]. by apply elem_of_nil in Hb.
  - done.
Qed.

(** X23.  With the default layout, distinct names, equally long layers and no
    negative value, the y axis starts at the zero baseline: [yAxisMin] is
    [0] minus the padding as soon as the first visible layer has a point in
    the domain. *)
Theorem nonnegative_baseline c m layer0 :
  _stackLayout c = d3.stack →
  NoDup (map name (prepared c)) →
  Forall (λ l, length (dl_values l) = m) (prepared c) →
  Forall (λ l, Forall (λ p, 0 ≤ pt_y p) (dl_points l)) (prepared c) →
  prepared c !! 0%nat = Some layer0 →
  dl_domainValues layer0 ≠ [] →
  yAxisMin c = Ok (Num (0 - _yAxisPadding c)).
Proof.
  intros Hlayout Hnd Hlen Hpos H0 Hdom.
  destruct (data_default_ok c m Hlayout Hlen) as [out Hout].
  unfold yAxisMin, _flattenStack. rewrite Hout. simpl.
  rewrite subtract_padding.
  set (pts := concat (map domainValues out)).
  enough (d3.min pts lower_edge = Some 0) as -> by done.
  apply (least_of_unique (numbers_of lower_edge pts));
    [apply d3_min_least|].
  assert (∀ p, p ∈ pts → ∃ i k, pt_y0 p = Some (Num (column_sum c i k))
                               ∧ d3.comparable (lower_edge p)
                                 = Some (column_sum c i k)) as Hlow.
  { intros p Hp.
    destruct (flattened_offsets c m out p Hlayout Hnd Hlen Hout Hp)
      as (i & k & _ & _ & Hy0 & Hy).
    exists i, k. split; [done|]. unfold lower_edge. rewrite Hy0.
    pose proof (prepared_y_nonneg c i k Hpos).
    destruct (Z.ltb_spec (pt_y p) 0); [lia|done]. }
  split.
  - destruct (dl_domainValues layer0) as [|r rs] eqn:Hrefs; [done|].
    pose proof (list_elem_of_lookup_2 _ _ _ H0) as Hin.
    assert (r ∈ dl_domainValues layer0) as Hr by (rewrite Hrefs; by left).
    pose proof (prepared_domain_subset c layer0 r Hin Hr) as Hrv.
    apply list_elem_of_lookup in Hrv as [k Hk].
    destruct (flattened_member c m out 0 layer0 k r Hlayout Hnd Hlen Hout
                H0 Hk Hr) as (p & Hp & Hy0 & Hy).
    unfold numbers_of. apply list_elem_of_omap. exists p. split; [done|].
    destruct (Hlow p Hp) as (i' & k' & Hy0' & ->).
    rewrite Hy0 in Hy0'. by inversion Hy0'.
  - intros v Hv. unfold numbers_of in Hv.
    apply list_elem_of_omap in Hv as (p & Hp & Hv).
    destruct (Hlow p Hp) as (i & k & _ & Hc). rewrite Hc in Hv.
    inversion Hv; subst v. apply sum_below_nonneg.
    intros n. by apply prepared_y_nonneg.
Qed.

(** X24.  Under the same conditions and without the evade flag, the y axis ends
    at the largest column total: [yAxisMax] is the greatest, over the point
    indices, of the sum of all visible layers at that index, plus the
    padding. *)
Theorem nonnegative_total c m total :
  _stackLayout c = d3.stack →
  NoDup (map name (prepared c)) →
  Forall (λ l, length (dl_values l) = m) (prepared c) →
  Forall (λ l, Forall (λ p, 0 ≤ pt_y p) (dl_points l)) (prepared c) →
  _evadeDomainFilter c = false →
  prepared c ≠ [] →
  greatest_of (map (column_sum c (length (prepared c))) (seq 0 m))
    (Some total) →
  yAxisMax c = Ok (Num (total + _yAxisPadding c)).
Proof.
  intros Hlayout Hnd Hlen Hpos Hev Hne [Htotal_in Htotal_max].
  destruct (data_default_ok c m Hlayout Hlen) as [out Hout].
  unfold yAxisMax, _flattenStack. rewrite Hout. simpl.
  rewrite add_padding.
  set (pts := concat (map domainValues out)).
  enough (d3.max pts upper_edge = Some total) as -> by done.
  apply (greatest_of_unique (numbers_of upper_edge pts));
    [apply d3_max_greatest|].
  assert (∀ i k, column_sum c i k + prepared_y c i k = column_sum c (S i) k)
    as Hstep by done.
  assert (∀ p i k, pt_y0 p = Some (Num (column_sum c i k)) →
            pt_y p = prepared_y c i k →
            d3.comparable (upper_edge p) = Some (column_sum c (S i) k))
    as Hup.
  { intros p i k Hy0 Hy. unfold upper_edge. rewrite Hy0, Hy.
    pose proof (prepared_y_nonneg c i k Hpos).
    destruct (Z.gtb_spec (prepared_y c i k) 0); simpl.
    - f_equal. rewrite <- Hstep. lia.
    - f_equal. rewrite <- Hstep. lia. }
  change map with (@fmap list _) in Htotal_in.
  apply list_elem_of_fmap in Htotal_in as (k & -> & Hk).
  apply elem_of_seq in Hk.
  split.
  - destruct (prepared c) as [|x xs] eqn:Hprep using rev_ind; [done|].
    clear IHxs. rewrite <- Hprep in *.
    assert (prepared c !! length xs = Some x) as Hlast.
    { rewrite Hprep. by apply list_lookup_middle. }
    assert (length (prepared c) = S (length xs)) as Hn.
    { rewrite Hprep, length_app. simpl. lia. }
    pose proof (list_elem_of_lookup_2 _ _ _ Hlast) as Hin.
    destruct (lookup_lt_is_Some_2 (dl_values x) k) as [r Hr].
    { rewrite (proj1 (Forall_forall _ _) Hlen x Hin). lia. }
    assert (r ∈ dl_domainValues x) as Hrd.
    { apply list_elem_of_lookup in Hin as [i Hi]. unfold prepared in Hi.
      rewrite list_lookup_imap in Hi.
      destruct (visible_layers c !! i) as [raw|]; [|done].
      inversion Hi; subst x. unfold _prepareValues in *; cbn in *.
      rewrite Hev in Hr. by eapply list_elem_of_lookup_2. }
    destruct (flattened_member c m out (length xs) x k r Hlayout Hnd Hlen Hout
                Hlast Hr Hrd) as (p & Hp & Hy0 & Hy).
    unfold numbers_of. apply list_elem_of_omap. exists p. split; [done|].
    rewrite (Hup p _ _ Hy0 Hy). by rewrite Hn.
  - intros v Hv. unfold numbers_of in Hv.
    apply list_elem_of_omap in Hv as (p & Hp & Hv).
    destruct (flattened_offsets c m out p Hlayout Hnd Hlen Hout Hp)
      as (i & k' & Hi & Hk' & Hy0 & Hy).
    rewrite (Hup p i k' Hy0 Hy) in Hv. inversion Hv; subst v.
    transitivity (column_sum c (length (prepared c)) k').
    + apply sum_below_mono; [|lia]. intros n. by apply prepared_y_nonneg.
    + apply Htotal_max. change map with (@fmap list _).
      apply list_elem_of_fmap. exists k'. split; [done|].
      apply elem_of_seq. lia.
Qed.

End StackedExtents.

Lemma nonnegative_baseline_witness :
  _stackLayout chart_AB = d3.stack
  ∧ NoDup (map name (prepared chart_AB))
  ∧ Forall (λ l, length (dl_values l) = 2%nat) (prepared chart_AB)
  ∧ Forall (λ l, Forall (λ p, 0 ≤ pt_y p) (dl_points l)) (prepared chart_AB)
  ∧ prepared chart_AB !! 0%nat = Some (prepared_layer chart_AB group_A "A" 0)
  ∧ dl_domainValues (prepared_layer chart_AB group_A "A" 0) ≠ []
  ∧ yAxisMin chart_AB = Ok (Num (0 - _yAxisPadding chart_AB)).
Proof.
  assert (NoDup (map name (prepared chart_AB))) as Hnd.
  { change (NoDup ["A"; "B"]). apply NoDup_cons. split.
    - intros H. apply list_elem_of_singleton in H. discriminate H.
    - apply NoDup_singleton. }
  assert (Forall (λ l, length (dl_values l) = 2%nat) (prepared chart_AB))
    as Hlen by (repeat constructor).
  assert (Forall (λ l, Forall (λ p, 0 ≤ pt_y p) (dl_points l))
            (prepared chart_AB)) as Hpos.
  { repeat (constructor; try (simpl; lia)). }
  assert (dl_domainValues (prepared_layer chart_AB group_A "A" 0) ≠ [])
    as Hdom by discriminate.
  split; [reflexivity|]. split; [exact Hnd|]. split; [exact Hlen|].
  split; [exact Hpos|]. split; [reflexivity|]. split; [exact Hdom|].
  exact (nonnegative_baseline chart_AB 2
           (prepared_layer chart_AB group_A "A" 0)
           eq_refl Hnd Hlen Hpos eq_refl Hdom).
Defined.

Lemma nonnegative_total_witness :
  _stackLayout chart_AB = d3.stack
  ∧ NoDup (map name (prepared chart_AB))
  ∧ Forall (λ l, length (dl_values l) = 2%nat) (prepared chart_AB)
  ∧ Forall (λ l, Forall (λ p, 0 ≤ pt_y p) (dl_points l)) (prepared chart_AB)
  ∧ _evadeDomainFilter chart_AB = false
  ∧ prepared chart_AB ≠ []
  ∧ map (column_sum chart_AB (length (prepared chart_AB))) (seq 0 2)
    = [15; 35]
  ∧ greatest_of
      (map (column_sum chart_AB (length (prepared chart_AB))) (seq 0 2))
      (Some 35)
  ∧ yAxisMax chart_AB = Ok (Num (35 + _yAxisPadding chart_AB)).
Proof.
  assert (NoDup (map name (prepared chart_AB))) as Hnd.
  { change (NoDup ["A"; "B"]). apply NoDup_cons. split.
    - intros H. apply list_elem_of_singleton in H. discriminate H.
    - apply NoDup_singleton. }
  assert (Forall (λ l, length (dl_values l) = 2%nat) (prepared chart_AB))
    as Hlen by (repeat constructor).
  assert (Forall (λ l, Forall (λ p, 0 ≤ pt_y p) (dl_points l))
            (prepared chart_AB)) as Hpos.
  { repeat (constructor; try (simpl; lia)). }
  assert (prepared chart_AB ≠ []) as Hne by discriminate.
  assert (greatest_of
            (map (column_sum chart_AB (length (prepared chart_AB))) (seq 0 2))
            (Some 35)) as Htotal.
  { change (greatest_of [15; 35] (Some 35)). split.
    - apply list_elem_of_In. right. left. reflexivity.
    - intros v Hv. apply list_elem_of_In in Hv.
      destruct Hv as [<-|[<-|[]]]; lia. }
  split; [reflexivity|]. split; [exact Hnd|]. split; [exact Hlen|].
  split; [exact Hpos|]. split; [reflexivity|]. split; [exact Hne|].
  split; [reflexivity|]. split; [exact Htotal|].
  exact (nonnegative_total chart_AB 2 35 eq_refl Hnd Hlen Hpos eq_refl Hne
           Htotal).
Defined.

(** ** Further compositions: columns, visibility round trips, group() *)

Section MoreCompositions.

Context {Row Color : Type}.
Implicit Types (c : @Chart Row Color) (l layer : @DataLayer Row).
Implicit Types (layers out : list (@DataLayer Row)) (v p : @Point Row).

Lemma column_of_inv layers v i col :
  column_of layers v i = Ok col →
  col = column_fold layers i {["x" := pt_x v]}.
Proof.
  intros Hcol.
  assert (∀ l, l ∈ layers → ∃ p, value_at l i = Ok p) as Hall.
  { intros l Hl. destruct (value_at l i) as [p|e] eqn:Hp; [by exists p|].
    rewrite (error_is_TypeError e) in Hp.
    by rewrite (column_of_throw layers v i l Hl Hp) in Hcol. }
  rewrite (column_of_ok layers v i Hall) in Hcol. by inversion Hcol.
Qed.

(** X20.  A column handed to the layout has an entry for every layer name, holds
    nothing but these and [x], and keeps the key of the point under [x]
    unless a layer is itself named ["x"]. *)
Theorem column_entries layers v i col :
  column_of layers v i = Ok col →
  (∀ key, is_Some (col !! key) ↔ key = "x" ∨ key ∈ map name layers)
  ∧ ("x" ∉ map name layers → col !! "x" = Some (pt_x v)).
Proof.
  intros ->%column_of_inv. split.
  - intros key. split.
    + intros Hsome.
      destruct (decide (key ∈ map name layers)) as [|Hout]; [by right|].
      rewrite column_fold_other in Hsome by done.
      destruct (decide (key = "x")) as [|Hne]; [by left|].
      rewrite lookup_singleton_ne in Hsome by done.
      by destruct Hsome.
    + intros [->|Hin]; [|by apply column_fold_is_Some].
      destruct (decide ("x" ∈ map name layers)) as [|Hout];
        [by apply column_fold_is_Some|].
      rewrite column_fold_other by done.
      rewrite lookup_singleton_eq. by eexists.
  - intros Hout. rewrite column_fold_other by done.
    by rewrite lookup_singleton_eq.
Qed.

(** [data()] reads the hidden names only through the visibility of the
    registered layers. *)
Lemma data_same_visibility c (h : gmap string bool) :
  (∀ x : @Layer Row, x ∈ stack c →
     _visibility (set_hiddenStacks h c) x = _visibility c x) →
  data (set_hiddenStacks h c) = data c.
Proof.
  intros Hvis. apply data_visible_layers; try done.
  rewrite !visible_layers_filter. f_equal.
  change (stack (set_hiddenStacks h c)) with (stack c).
  by apply filter_ext_in.
Qed.

(** X16.  Hiding and then showing a name that read as not hidden, or the name
    ['__proto__'], leaves [data()] as it was; so does hiding or showing a
    name that no registered layer carries. *)
Theorem data_visibility_round_trip c n :
  (flag_read (_hiddenStacks c) n = false ∨ n = "__proto__" →
     data (showStack n (hideStack n c)) = data c)
  ∧ ((∀ x : @Layer Row, x ∈ stack c → name x ≠ n) →
     data (hideStack n c) = data c ∧ data (showStack n c) = data c).
Proof.
  split.
  - intros Hn.
    apply (data_same_visibility c
             (flag_assign (flag_assign (_hiddenStacks c) n true) n false)).
    intros x _.
    change (set_hiddenStacks _ c) with (showStack n (hideStack n c)).
    rewrite visibility_show, visibility_hide.
    case_decide as Heq; [|done]. subst n. destruct Hn as [Hn|Hn].
    + unfold _visibility. rewrite Hn. simpl.
      apply bool_decide_eq_true_2. intros Hp. by rewrite Hp in Hn.
    + rewrite visibility_proto by done.
      apply bool_decide_eq_false_2. by intros [].
  - intros Hnone. split.
    + apply (data_same_visibility c (flag_assign (_hiddenStacks c) n true)).
      intros x Hx. change (set_hiddenStacks _ c) with (hideStack n c).
      rewrite visibility_hide. rewrite decide_False; [done|].
      intros ->. by apply (Hnone x).
    + apply (data_same_visibility c (flag_assign (_hiddenStacks c) n false)).
      intros x Hx. change (set_hiddenStacks _ c) with (showStack n c).
      rewrite visibility_show. rewrite decide_False; [done|].
      intros ->. by apply (Hnone x).
Qed.

(** X6.  For a name that no registered layer carries, [isLegendableHidden]
    answers [false] also after [hideStack] has been called for it, although
    the name then reads as hidden in [_hiddenStacks], which holds [true]
    for it unless the name is ['__proto__']. *)
Theorem isLegendableHidden_unknown c (d : @Legendable Row Color) :
  (∀ x : @Layer Row, x ∈ stack c → name x ≠ lg_name d) →
  flag_read (_hiddenStacks (hideStack (lg_name d) c)) (lg_name d) = true
  ∧ (lg_name d ≠ "__proto__" →
     _hiddenStacks (hideStack (lg_name d) c) !! lg_name d = Some true)
  ∧ isLegendableHidden d (hideStack (lg_name d) c) = false.
Proof.
  intros Hnone. split; [|split].
  - unfold hideStack; cbn. rewrite flag_read_assign.
    rewrite decide_True by done. by case_decide.
  - intros Hne. unfold hideStack, flag_assign; cbn.
    rewrite decide_False by done. by rewrite lookup_insert_eq.
  - by apply isLegendableHidden_unregistered.
Qed.

(** X25.  A chart whose only layer comes from [group(g, n, f)], with the default
    layout and the layer's name not hidden, composes to that one layer over
    the rows of [g], every point stacked on the zero baseline: [y0 = 0] and
    [y1 = y]. *)
Theorem group_single_layer c (g : @Group Row) n (f : option Accessor) :
  _stackLayout c = d3.stack →
  _visibility c (sole_layer g n) = true →
  ∃ l, data (group g n f c) = Ok [l]
       ∧ dl_name l = layer_name (sole_layer g n)
       ∧ dl_rawData l = all g
       ∧ ∀ k p, value_at l k = Ok p →
           pt_y0 p = Some (Num 0) ∧ pt_y1 p = Some (Num (pt_y p)).
Proof.
  intros Hlayout Hvis.
  set (c' := group g n f c).
  assert (_stackLayout c' = d3.stack) as Hlayout'.
  { unfold c', group. by destruct f. }
  assert (stack c' = [sole_layer g n]) as Hstack.
  { unfold c', group, stack, sole_layer. by destruct f, n. }
  assert (prepared c'
          = [_prepareValues c' (layer_data (sole_layer g n)) 0]) as Hprep.
  { unfold prepared. rewrite visible_layers_filter, Hstack.
    cbn [List.filter].
    assert (_visibility c' (sole_layer g n) = true) as ->; [|done].
    rewrite <- Hvis. unfold c', group. by destruct f. }
  set (l0 := _prepareValues c' (layer_data (sole_layer g n)) 0) in *.
  assert (NoDup (map name (prepared c'))) as Hnd.
  { rewrite Hprep. apply NoDup_singleton. }
  assert (Forall (λ l, length (dl_values l) = length (dl_values l0))
            (prepared c')) as Hlen.
  { rewrite Hprep. by repeat constructor. }
  destruct (data_default_ok c' _ Hlayout' Hlen) as [out Hout].
  pose proof (pass_frame c' out Hout) as Hframe. rewrite Hprep in Hframe.
  inversion Hframe as [|? l ? out' Hsame Hrest]; subst.
  inversion Hrest; subst.
  destruct Hsame as (Hname & _ & Hrows & _ & Hvals & _).
  exists l. split; [done|]. split; [by rewrite <- Hname|].
  split; [by rewrite <- Hrows|].
  intros k p Hp.
  destruct (value_at_inv _ _ _ Hp) as (r & Hr & _).
  rewrite <- Hvals in Hr.
  destruct (value_at_ok l0 k) as (_ & p0 & _ & _ & Hp0).
  { apply (prepared_wf c'). rewrite Hprep. by left. }
  { by eapply lookup_lt_Some. }
  destruct (default_pass_point c' _ Hlayout' Hnd Hlen [l] Hout 0 l0 k p0)
    as (l' & Hl' & Hval); [by rewrite Hprep|done|].
  inversion Hl'; subst l'. rewrite Hp in Hval. by inversion Hval.
Qed.

End MoreCompositions.

Lemma column_entries_witness :
  column_of (prepared chart_AB) far_point 1
  = Ok (<["B" := 15]> (<["A" := 20]> {["x" := 7]}))
  ∧ ("x" ∉ map name (prepared chart_AB))
  ∧ (<["B" := 15]> (<["A" := 20]> ({["x" := 7]} : gmap string Z))) !! "x"
    = Some (pt_x far_point).
Proof.
  assert (column_of (prepared chart_AB) far_point 1
          = Ok (<["B" := 15]> (<["A" := 20]> {["x" := 7]}))) as Hcol
    by reflexivity.
  assert ("x" ∉ map name (prepared chart_AB)) as Hx.
  { change ("x" ∉ ["A"; "B"]). intros H. apply list_elem_of_In in H.
    destruct H as [H|[H|[]]]; discriminate H. }
  split; [exact Hcol|]. split; [exact Hx|].
  exact (proj2 (column_entries _ _ _ _ Hcol) Hx).
Defined.

Lemma data_visibility_round_trip_witness :
  ((flag_read (_hiddenStacks chart_AB) "A" = false ∨ "A" = "__proto__")
   ∧ data (showStack "A" (hideStack "A" chart_AB)) = data chart_AB)
  ∧ ((∀ x : Layer, x ∈ stack chart_AB → name x ≠ "Z")
     ∧ data (hideStack "Z" chart_AB) = data chart_AB).
Proof.
  split.
  - assert (flag_read (_hiddenStacks chart_AB) "A" = false
            ∨ "A" = "__proto__") as Hn by (left; reflexivity).
    split; [exact Hn|].
    exact (proj1 (data_visibility_round_trip chart_AB "A") Hn).
  - assert (∀ x : Layer, x ∈ stack chart_AB → name x ≠ "Z") as Hnone.
    { intros x Hx. apply list_elem_of_lookup in Hx as [i Hi].
      destruct i as [|[|i]]; simpl in Hi; [| |done];
        inversion Hi; subst x; discriminate. }
    split; [exact Hnone|].
    exact (proj1 (proj2 (data_visibility_round_trip chart_AB "Z") Hnone)).
Defined.

Lemma isLegendableHidden_unknown_witness :
  (∀ x : Layer, x ∈ stack chart_AB_hidable → name x ≠ lg_name legend_Z)
  ∧ lg_name legend_Z ≠ "__proto__"
  ∧ _hiddenStacks (hideStack "Z" chart_AB_hidable) !! "Z" = Some true
  ∧ isLegendableHidden legend_Z (hideStack "Z" chart_AB_hidable) = false.
Proof.
  assert (∀ x : Layer, x ∈ stack chart_AB_hidable → name x ≠ lg_name legend_Z)
    as Hnone.
  { intros x Hx. apply list_elem_of_lookup in Hx as [i Hi].
    destruct i as [|[|i]]; simpl in Hi; [| |done];
      inversion Hi; subst x; discriminate. }
  assert (lg_name legend_Z ≠ "__proto__") as Hne by discriminate.
  split; [exact Hnone|]. split; [exact Hne|].
  destruct (isLegendableHidden_unknown chart_AB_hidable legend_Z Hnone)
    as (_ & Hown & Hanswer).
  split; [exact (Hown Hne)|exact Hanswer].
Defined.

Lemma group_single_layer_witness :
  _stackLayout chart_AB = d3.stack
  ∧ _visibility chart_AB (sole_layer group_C AUndefined) = true
  ∧ ∃ l, data (group group_C AUndefined None chart_AB) = Ok [l]
         ∧ dl_name l = "0"
         ∧ dl_rawData l = [(1, 5); (2, 15); (3, 7)].
Proof.
  split; [reflexivity|]. split; [reflexivity|].
  destruct (group_single_layer chart_AB group_C AUndefined None
              eq_refl eq_refl) as (l & Hdata & Hname & Hrows & _).
  exists l. split; [exact Hdata|]. split; [exact Hname|exact Hrows].
Defined.
